(** * Transactions with rollback: a shallow embedding of [transaction.py]

    The development has the parts of the Python module, one Rocq module
    per class: the exceptions, the command lifecycle ([CommandBase]), the
    closure adapter ([Command]), the abort sentinel ([CommandAbort]), the
    file command family built on [_CommandFileBase], and the
    [Transaction] engine.  Methods are computations in a state-and-
    exception monad; the file system is a finite map from paths to
    contents together with the set of staging directories.

    Python objects are mutable and shared by reference: a transaction's
    history is a list of references to command objects.  The embedding
    keeps an object store ([heap]) indexed by addresses, so a command that
    is submitted twice is one object seen twice.

    The first part holds the definitions, the second the properties: the
    lifecycle, the order of the sweeps, the handling of exceptions at the
    end of the scope, the removal of the staging directory, and the
    restoration of the files by a rollback. *)

From stdpp Require Import gmap strings list fin_maps stringmap.

Set Default Proof Using "Type".

(** ** Exceptions *)

(** The three exception classes of the module, the library exceptions the
    file operations raise, and [OtherError] for whatever else user code
    (a callback, the body of a [with] block) may raise.  None of the
    classes derives from another one of the list, so [isinstance] is
    equality of constructors.  [ReferenceError] stands for the lookup of
    an address that holds no object, which Python cannot get to. *)
Inductive exn :=
  | TransactionAbortError
  | TransactionError
  | CommandError
  | SameFileError
  | FileNotFoundError
  | TypeError
  | ReferenceError
  | OtherError (tag : string).

Global Instance exn_eq_dec : EqDecision exn.
Proof. solve_decision. Defined.

(** ** Results and the state-and-exception monad *)

Inductive result (A : Type) :=
  | Ok (a : A)
  | Raise (e : exn).
Arguments Ok {A} a.
Arguments Raise {A} e.

(** The values the methods of the module return. *)
Inductive pyval :=
  | PyNone
  | PyBool (b : bool).

Global Instance pyval_eq_dec : EqDecision pyval.
Proof. solve_decision. Defined.

(** Python truthiness, for [if super().rollback(): ...] and for the
    return value of [__exit__]. *)
Definition truthy (v : pyval) : bool :=
  match v with
  | PyNone => false
  | PyBool b => b
  end.

(** Truthiness of a path: [None] and the empty string are falsy. *)
Definition path_truthy (p : string) : bool :=
  match p with
  | EmptyString => false
  | String _ _ => true
  end.

(** A computation over a state [S] that returns or raises.  The state is
    kept when an exception is raised: effects that happened before the
    [raise] stay. *)
Definition Py (S A : Type) : Type := S → result A * S.

Definition ret {S A} (a : A) : Py S A := λ s, (Ok a, s).
Definition raise {S A} (e : exn) : Py S A := λ s, (Raise e, s).
Definition bind {S A B} (m : Py S A) (k : A → Py S B) : Py S B :=
  λ s, match m s with
       | (Ok a, s') => k a s'
       | (Raise e, s') => (Raise e, s')
       end.
Definition gets {S A} (f : S → A) : Py S A := λ s, (Ok (f s), s).
Definition modify {S} (f : S → S) : Py S unit := λ s, (Ok tt, f s).

Declare Scope py_scope.
Delimit Scope py_scope with py.
Notation "x <- e ;; k" := (bind e (λ x, k))
  (at level 100, e at next level, right associativity) : py_scope.
Notation "e ;; k" := (bind e (λ _, k))
  (at level 100, right associativity) : py_scope.
Open Scope py_scope.

(** Run a computation on one component of a larger state. *)
Definition zoom {S T A} (get : S → T) (set : T → S → S) (m : Py T A) : Py S A :=
  λ s, let '(r, t) := m (get s) in (r, set t s).

(** [for x in xs: body(x)]: stops at the first exception. *)
Fixpoint for_each {S A} (xs : list A) (body : A → Py S pyval) : Py S unit :=
  match xs with
  | [] => ret tt
  | x :: xs' => body x ;; for_each xs' body
  end.

(** Statements that may [return]: what [try]/[except]/[finally] needs.
    A block falls through, returns a value or raises. *)
Inductive completion (A : Type) :=
  | Fallthrough
  | Return (v : A)
  | Throw (e : exn).
Arguments Fallthrough {A}.
Arguments Return {A} v.
Arguments Throw {A} e.

Definition block (S A : Type) : Type := S → completion A * S.

(** An expression statement: the value is dropped. *)
Definition stmt {S A B} (m : Py S B) : block S A :=
  λ s, match m s with
       | (Ok _, s') => (Fallthrough, s')
       | (Raise e, s') => (Throw e, s')
       end.

Definition return_ {S A} (v : A) : block S A := λ s, (Return v, s).

(** [try: body / except cls: handler / finally: final].  The handler runs
    when the body raised an instance of [cls]; the [finally] block always
    runs, and when it returns or raises itself, that replaces whatever was
    pending: a return value or an exception in flight. *)
Definition try_except_finally {S A}
    (body : block S A) (cls : exn) (handler final : block S A) : block S A :=
  λ s,
    let '(c1, s1) := body s in
    let '(c2, s2) :=
      match c1 with
      | Throw e => if decide (e = cls) then handler s1 else (c1, s1)
      | _ => (c1, s1)
      end in
    let '(c3, s3) := final s2 in
    match c3 with
    | Fallthrough => (c2, s3)
    | _ => (c3, s3)
    end.

(** A function body: falling off the end returns [None]. *)
Definition def {S} (b : block S pyval) : Py S pyval :=
  λ s, match b s with
       | (Fallthrough, s') => (Ok PyNone, s')
       | (Return v, s') => (Ok v, s')
       | (Throw e, s') => (Raise e, s')
       end.

(** ** The file system *)

(** Regular files with their content, and the directories the module cares
    about (the staging directories).  Paths handed to the commands are
    taken to name regular files or nothing, never a directory. *)
Record filesystem := mkFs {
  files : gmap string string;
  dirs : gset string
}.

Definition set_files (f : gmap string string → gmap string string) (w : filesystem) :=
  mkFs (f (files w)) (dirs w).

Definition names (w : filesystem) : gset string := dom (files w) ∪ dirs w.

(** [os.path.isfile] and [os.path.isdir]. *)
Definition isfile (p : string) (w : filesystem) : bool :=
  match files w !! p with
  | Some _ => true
  | None => false
  end.

Definition isdir (p : string) (w : filesystem) : bool :=
  bool_decide (p ∈ dirs w).

(** [tempfile.mkdtemp(prefix)]: a new directory under the temporary-file
    area whose name is not in use. *)
Definition mkdtemp (prefix : string) : Py filesystem string := λ w,
  let d := fresh_string_of_set ("/tmp/" +:+ prefix) (names w) in
  (Ok d, mkFs (files w) ({[d]} ∪ dirs w)).

(** [tempfile.mkstemp(dir=d)]: a new empty file in [d] (in the default
    temporary-file area when [d] is [None]) whose name is not in use. *)
Definition mkstemp (dir : option string) : Py filesystem string := λ w,
  match dir with
  | Some d =>
      if isdir d w then
        let p := fresh_string_of_set (d +:+ "/tmp") (names w) in
        (Ok p, set_files <[p := ""]> w)
      else (Raise FileNotFoundError, w)
  | None =>
      let p := fresh_string_of_set "/tmp/tmp" (names w) in
      (Ok p, set_files <[p := ""]> w)
  end.

(** [shutil.copy(src, dst)] for regular files; returns [dst]. *)
Definition shutil_copy (src dst : string) : Py filesystem string := λ w,
  match files w !! src with
  | None => (Raise FileNotFoundError, w)
  | Some c =>
      if decide (src = dst) then (Raise SameFileError, w)
      else if path_truthy dst then (Ok dst, set_files <[dst := c]> w)
      else (Raise FileNotFoundError, w)
  end.

(** [shutil.move(src, dst)] for regular files: a rename that replaces
    [dst]; renaming a file to itself does nothing. *)
Definition shutil_move (src dst : string) : Py filesystem string := λ w,
  match files w !! src with
  | None => (Raise FileNotFoundError, w)
  | Some c =>
      if decide (src = dst) then (Ok dst, w)
      else if path_truthy dst then (Ok dst, set_files (λ m, <[dst := c]> (delete src m)) w)
      else (Raise FileNotFoundError, w)
  end.

(** [os.remove(p)]. *)
Definition os_remove (p : string) : Py filesystem unit := λ w,
  match files w !! p with
  | None => (Raise FileNotFoundError, w)
  | Some _ => (Ok tt, set_files (delete p) w)
  end.

(** [with open(p, 'w') as file: file.write(c)]. *)
Definition write_file (p c : string) : Py filesystem unit := λ w,
  if path_truthy p then (Ok tt, set_files <[p := c]> w)
  else (Raise FileNotFoundError, w).

(** [shutil.rmtree(d)]: the directory and everything below it. *)
Definition below (d p : string) : bool := String.prefix (d +:+ "/") p.

Definition rmtree (d : option string) : Py filesystem unit := λ w,
  match d with
  | None => (Raise TypeError, w)
  | Some d =>
      if isdir d w then
        (Ok tt, mkFs (filter (λ kv, below d kv.1 = false) (files w))
                     (filter (λ p, below d p = false) (dirs w ∖ {[d]})))
      else (Raise FileNotFoundError, w)
  end.

(** ** Command lifecycle *)

Module CommandState.
Inductive t :=
  | INIT
  | PERFORMED
  | ROLLEDBACK
  | COMMITTED.

Global Instance eq_dec : EqDecision t.
Proof. solve_decision. Defined.
End CommandState.

(** Methods of a class act on the object's attributes and on the file
    system: the state of a method of class [X] is [X.t * filesystem].
    [io] runs a file-system operation; each module's [upcall] runs a
    method of the parent class on the inherited attributes. *)
Definition io {T A} (m : Py filesystem A) : Py (T * filesystem) A :=
  zoom snd (λ w s, (s.1, w)) m.
Definition attr {T W B} (f : T → B) : Py (T * W) B :=
  gets (λ s, f s.1).
Definition setattr {T W} (f : T → T) : Py (T * W) unit :=
  modify (λ s, (f s.1, s.2)).

Module CommandBase.
Record t := mk {
  _state : CommandState.t;
  _error_pre_preform : bool
}.

Definition __init__ : t := mk CommandState.INIT false.

Definition perform : Py t pyval :=
  st <- gets _state ;;
  if decide (st ≠ CommandState.INIT) then
    modify (λ self, mk (_state self) true) ;;
    raise CommandError
  else
    modify (λ self, mk CommandState.PERFORMED (_error_pre_preform self)) ;;
    ret PyNone.

Definition rollback : Py t pyval :=
  failed <- gets _error_pre_preform ;;
  if failed then ret (PyBool true)
  else
    st <- gets _state ;;
    if decide (st ≠ CommandState.PERFORMED) then raise CommandError
    else ret (PyBool false).

Definition commit : Py t pyval :=
  st <- gets _state ;;
  if decide (st ≠ CommandState.PERFORMED) then raise CommandError
  else
    modify (λ self, mk CommandState.COMMITTED (_error_pre_preform self)) ;;
    ret PyNone.
End CommandBase.

(** ** The closure adapter *)

(** The delegates are arbitrary user functions; what they return is
    ignored, so they are computations on the file system that return
    nothing or raise. *)
Definition callback := Py filesystem unit.

Module Command.
Record t := mk {
  super : CommandBase.t;
  perform_callback : callback;
  rollback_callback : callback;
  commit_callback : callback
}.

Definition set_super (b : CommandBase.t) (self : t) : t :=
  mk b (perform_callback self) (rollback_callback self) (commit_callback self).
Definition upcall {A} (m : Py CommandBase.t A) : Py (t * filesystem) A :=
  zoom (λ s, super s.1) (λ b s, (set_super b s.1, s.2)) m.

Definition __init__ (perform rollback commit : callback) : t :=
  mk CommandBase.__init__ perform rollback commit.

Definition perform (temp_dir : option string) : Py (t * filesystem) pyval :=
  upcall CommandBase.perform ;;
  f <- attr perform_callback ;;
  io f ;;
  ret PyNone.

Definition rollback : Py (t * filesystem) pyval :=
  skip <- upcall CommandBase.rollback ;;
  if truthy skip then ret (PyBool true)
  else
    f <- attr rollback_callback ;;
    io f ;;
    ret PyNone.

Definition commit : Py (t * filesystem) pyval :=
  upcall CommandBase.commit ;;
  f <- attr commit_callback ;;
  io f ;;
  ret PyNone.
End Command.

(** ** The abort sentinel *)

(** The constructor does not call the parent constructor: the object has
    no attribute at all, in particular no [_state]. *)
Module CommandAbort.
Record t := mk { }.

Definition __init__ : t := mk.

Definition perform (temp_dir : option string) : Py (t * filesystem) pyval :=
  raise TransactionAbortError.

Definition rollback : Py (t * filesystem) pyval := ret PyNone.

Definition commit : Py (t * filesystem) pyval := ret PyNone.
End CommandAbort.

(** ** File commands: backup, then mutate *)

Module _CommandFileBase.
Record t := mk {
  super : CommandBase.t;
  target_path : string;
  _temp_copy : option string
}.

Definition set_super (b : CommandBase.t) (self : t) : t :=
  mk b (target_path self) (_temp_copy self).
Definition set_temp_copy (p : option string) (self : t) : t :=
  mk (super self) (target_path self) p.
Definition upcall {A} (m : Py CommandBase.t A) : Py (t * filesystem) A :=
  zoom (λ s, super s.1) (λ b s, (set_super b s.1, s.2)) m.

Definition __init__ (target_path : string) : t :=
  mk CommandBase.__init__ target_path None.

Definition perform (temp_dir : option string) : Py (t * filesystem) pyval :=
  upcall CommandBase.perform ;;
  target <- attr target_path ;;
  will_overwrite <- io (gets (isfile target)) ;;
  (if will_overwrite then
     copy_dest <- io (mkstemp temp_dir) ;;
     copied <- io (shutil_copy target copy_dest) ;;
     setattr (set_temp_copy (Some copied))
   else ret tt) ;;
  ret (PyBool will_overwrite).

(** [not self._temp_copy or not os.path.isfile(self._temp_copy)].  When
    this is false [_temp_copy] holds a path, the one [rollback] and
    [commit] then use. *)
Definition no_copy (temp_copy : option string) (w : filesystem) : bool :=
  match temp_copy with
  | None => true
  | Some p => negb (path_truthy p) || negb (isfile p w)
  end.

Definition rollback : Py (t * filesystem) pyval :=
  skip <- upcall CommandBase.rollback ;;
  if truthy skip then ret (PyBool true)
  else
    temp_copy <- attr _temp_copy ;;
    missing <- io (gets (no_copy temp_copy)) ;;
    if missing then ret (PyBool false)
    else
      target <- attr target_path ;;
      io (shutil_move (default "" temp_copy) target) ;;
      ret (PyBool true).

Definition commit : Py (t * filesystem) pyval :=
  upcall CommandBase.commit ;;
  temp_copy <- attr _temp_copy ;;
  missing <- io (gets (no_copy temp_copy)) ;;
  if missing then ret PyNone
  else
    io (os_remove (default "" temp_copy)) ;;
    ret PyNone.
End _CommandFileBase.

Module CommandFileWrite.
Record t := mk {
  super : _CommandFileBase.t;
  contents : string
}.

Definition set_super (b : _CommandFileBase.t) (self : t) : t :=
  mk b (contents self).
Definition upcall {A} (m : Py (_CommandFileBase.t * filesystem) A)
  : Py (t * filesystem) A :=
  zoom (λ s, (super s.1, s.2)) (λ r s, (set_super r.1 s.1, r.2)) m.
Definition target_path (self : t) : string :=
  _CommandFileBase.target_path (super self).

Definition __init__ (target_path contents : string) : t :=
  mk (_CommandFileBase.__init__ target_path) contents.

Definition perform (temp_dir : option string) : Py (t * filesystem) pyval :=
  upcall (_CommandFileBase.perform temp_dir) ;;
  target <- attr target_path ;;
  text <- attr contents ;;
  io (write_file target text) ;;
  ret PyNone.

Definition rollback : Py (t * filesystem) pyval :=
  restored <- upcall _CommandFileBase.rollback ;;
  if truthy restored then ret PyNone
  else
    target <- attr target_path ;;
    present <- io (gets (isfile target)) ;;
    if negb present then ret PyNone
    else
      io (os_remove target) ;;
      ret PyNone.

Definition commit : Py (t * filesystem) pyval :=
  upcall _CommandFileBase.commit.
End CommandFileWrite.

Module CommandFileDelete.
Record t := mk {
  super : _CommandFileBase.t
}.

Definition upcall {A} (m : Py (_CommandFileBase.t * filesystem) A)
  : Py (t * filesystem) A :=
  zoom (λ s, (super s.1, s.2)) (λ r s, (mk r.1, r.2)) m.
Definition target_path (self : t) : string :=
  _CommandFileBase.target_path (super self).

Definition __init__ (target_path : string) : t :=
  mk (_CommandFileBase.__init__ target_path).

Definition perform (temp_dir : option string) : Py (t * filesystem) pyval :=
  saved <- upcall (_CommandFileBase.perform temp_dir) ;;
  if negb (truthy saved) then ret (PyBool false)
  else
    target <- attr target_path ;;
    io (os_remove target) ;;
    ret PyNone.

Definition rollback : Py (t * filesystem) pyval :=
  upcall _CommandFileBase.rollback.

Definition commit : Py (t * filesystem) pyval :=
  upcall _CommandFileBase.commit.
End CommandFileDelete.

Module CommandFileCopy.
Record t := mk {
  super : _CommandFileBase.t;
  src_path : string;
  dst_path : string
}.

Definition set_super (b : _CommandFileBase.t) (self : t) : t :=
  mk b (src_path self) (dst_path self).
Definition upcall {A} (m : Py (_CommandFileBase.t * filesystem) A)
  : Py (t * filesystem) A :=
  zoom (λ s, (super s.1, s.2)) (λ r s, (set_super r.1 s.1, r.2)) m.

(** The constructor raises before the object exists when both paths are
    the same string; the backup then protects the destination. *)
Definition __init__ (src_path dst_path : string) : result t :=
  if decide (src_path = dst_path) then Raise SameFileError
  else Ok (mk (_CommandFileBase.__init__ dst_path) src_path dst_path).

Definition perform (temp_dir : option string) : Py (t * filesystem) pyval :=
  upcall (_CommandFileBase.perform temp_dir) ;;
  src <- attr src_path ;;
  dst <- attr dst_path ;;
  present <- io (gets (isfile src)) ;;
  if negb (path_truthy src) || negb present then ret (PyBool false)
  else
    io (shutil_copy src dst) ;;
    ret PyNone.

Definition rollback : Py (t * filesystem) pyval :=
  restored <- upcall _CommandFileBase.rollback ;;
  if truthy restored then ret (PyBool true)
  else
    dst <- attr dst_path ;;
    present <- io (gets (isfile dst)) ;;
    if negb (path_truthy dst) || negb present then ret (PyBool false)
    else
      io (os_remove dst) ;;
      ret PyNone.

Definition commit : Py (t * filesystem) pyval :=
  upcall _CommandFileBase.commit.
End CommandFileCopy.

Module CommandFileMove.
Record t := mk {
  super : _CommandFileBase.t;
  src_path : string;
  dst_path : string
}.

Definition set_super (b : _CommandFileBase.t) (self : t) : t :=
  mk b (src_path self) (dst_path self).
Definition upcall {A} (m : Py (_CommandFileBase.t * filesystem) A)
  : Py (t * filesystem) A :=
  zoom (λ s, (super s.1, s.2)) (λ r s, (set_super r.1 s.1, r.2)) m.

Definition __init__ (target_path dst_path : string) : t :=
  mk (_CommandFileBase.__init__ dst_path) target_path dst_path.

Definition perform (temp_dir : option string) : Py (t * filesystem) pyval :=
  upcall (_CommandFileBase.perform temp_dir) ;;
  src <- attr src_path ;;
  dst <- attr dst_path ;;
  present <- io (gets (isfile src)) ;;
  if negb (path_truthy src) || negb present then ret (PyBool false)
  else
    io (shutil_move src dst) ;;
    ret PyNone.

(** The move is undone first, whatever the lifecycle says; the parent's
    rollback, with its lifecycle check, comes second. *)
Definition rollback : Py (t * filesystem) pyval :=
  src <- attr src_path ;;
  dst <- attr dst_path ;;
  present <- io (gets (isfile dst)) ;;
  (if path_truthy dst && present then
     io (shutil_move dst src) ;; ret tt
   else ret tt) ;;
  upcall _CommandFileBase.rollback ;;
  ret PyNone.

Definition commit : Py (t * filesystem) pyval :=
  upcall _CommandFileBase.commit.
End CommandFileMove.

(** ** Command objects and dynamic dispatch *)

Inductive command :=
  | OfCommand (c : Command.t)
  | OfCommandAbort (c : CommandAbort.t)
  | OfCommandFileWrite (c : CommandFileWrite.t)
  | OfCommandFileDelete (c : CommandFileDelete.t)
  | OfCommandFileCopy (c : CommandFileCopy.t)
  | OfCommandFileMove (c : CommandFileMove.t).

(** Run the method of the object's class and put the object back. *)
Definition as_object {T A} (inj : T → command) (c : T) (m : Py (T * filesystem) A)
  : Py (command * filesystem) A :=
  λ s, let '(r, (c', w')) := m (c, s.2) in (r, (inj c', w')).

Definition perform (temp_dir : option string) : Py (command * filesystem) pyval :=
  λ s, match s.1 with
       | OfCommand c => as_object OfCommand c (Command.perform temp_dir) s
       | OfCommandAbort c => as_object OfCommandAbort c (CommandAbort.perform temp_dir) s
       | OfCommandFileWrite c => as_object OfCommandFileWrite c (CommandFileWrite.perform temp_dir) s
       | OfCommandFileDelete c => as_object OfCommandFileDelete c (CommandFileDelete.perform temp_dir) s
       | OfCommandFileCopy c => as_object OfCommandFileCopy c (CommandFileCopy.perform temp_dir) s
       | OfCommandFileMove c => as_object OfCommandFileMove c (CommandFileMove.perform temp_dir) s
       end.

Definition rollback : Py (command * filesystem) pyval :=
  λ s, match s.1 with
       | OfCommand c => as_object OfCommand c Command.rollback s
       | OfCommandAbort c => as_object OfCommandAbort c CommandAbort.rollback s
       | OfCommandFileWrite c => as_object OfCommandFileWrite c CommandFileWrite.rollback s
       | OfCommandFileDelete c => as_object OfCommandFileDelete c CommandFileDelete.rollback s
       | OfCommandFileCopy c => as_object OfCommandFileCopy c CommandFileCopy.rollback s
       | OfCommandFileMove c => as_object OfCommandFileMove c CommandFileMove.rollback s
       end.

Definition commit : Py (command * filesystem) pyval :=
  λ s, match s.1 with
       | OfCommand c => as_object OfCommand c Command.commit s
       | OfCommandAbort c => as_object OfCommandAbort c CommandAbort.commit s
       | OfCommandFileWrite c => as_object OfCommandFileWrite c CommandFileWrite.commit s
       | OfCommandFileDelete c => as_object OfCommandFileDelete c CommandFileDelete.commit s
       | OfCommandFileCopy c => as_object OfCommandFileCopy c CommandFileCopy.commit s
       | OfCommandFileMove c => as_object OfCommandFileMove c CommandFileMove.commit s
       end.

(** The lifecycle attributes of an object, when its class has them. *)
Definition lifecycle (c : command) : option CommandBase.t :=
  match c with
  | OfCommand c => Some (Command.super c)
  | OfCommandAbort _ => None
  | OfCommandFileWrite c => Some (_CommandFileBase.super (CommandFileWrite.super c))
  | OfCommandFileDelete c => Some (_CommandFileBase.super (CommandFileDelete.super c))
  | OfCommandFileCopy c => Some (_CommandFileBase.super (CommandFileCopy.super c))
  | OfCommandFileMove c => Some (_CommandFileBase.super (CommandFileMove.super c))
  end.

(** ** The transaction engine *)

Module TransactionState.
Inductive t :=
  | NONE
  | INIT
  | RUNNING
  | DONE
  | ABORTED.

Global Instance eq_dec : EqDecision t.
Proof. solve_decision. Defined.
End TransactionState.

(** What the engine does to the outside, in the order it does it: the
    method calls on command objects and the removals of the staging
    directory. *)
Inductive event :=
  | EvPerform (a : nat)
  | EvRollback (a : nat)
  | EvCommit (a : nat)
  | EvRmtree (d : option string).

Global Instance event_eq_dec : EqDecision event.
Proof. solve_decision. Defined.

(** The store of command objects, the file system and the events so far. *)
Record machine := mkMachine {
  heap : gmap nat command;
  fs : filesystem;
  trace : list event
}.

Definition log (ev : event) (m : machine) : machine :=
  mkMachine (heap m) (fs m) (trace m ++ [ev]).

Module Transaction.
Import TransactionState.

Record t := mk {
  name : option string;
  verbose : bool;
  safe : bool;
  state : TransactionState.t;
  commands : list nat;
  temp_dir : option string
}.

Definition set_state (st : TransactionState.t) (self : t) : t :=
  mk (name self) (verbose self) (safe self) st (commands self) (temp_dir self).
Definition set_temp_dir (d : option string) (self : t) : t :=
  mk (name self) (verbose self) (safe self) (state self) (commands self) d.
Definition append_command (a : nat) (self : t) : t :=
  mk (name self) (verbose self) (safe self) (state self) (commands self ++ [a])
     (temp_dir self).

(** A file-system operation, and a method call on the object at an
    address.  A history only holds references to live objects; the
    lookup failure is there to keep the function total. *)
Definition os {A} (m : Py filesystem A) : Py (t * machine) A :=
  zoom (λ s, fs s.2) (λ w s, (s.1, mkMachine (heap s.2) w (trace s.2))) m.

Definition call (ev : event) (a : nat) (method : Py (command * filesystem) pyval)
  : Py (t * machine) pyval :=
  λ s,
    let m := log ev s.2 in
    match heap m !! a with
    | None => (Raise ReferenceError, (s.1, m))
    | Some c =>
        let '(r, (c', w')) := method (c, fs m) in
        (r, (s.1, mkMachine (<[a := c']> (heap m)) w' (trace m)))
    end.

Definition __init__ (name : option string) (verbose safe : bool) : t :=
  mk name verbose safe INIT [] None.

Definition perform_command (command : nat) : Py (t * machine) pyval :=
  st <- attr state ;;
  if decide (st ≠ RUNNING) then raise TransactionError
  else
    setattr (append_command command) ;;
    dir <- attr temp_dir ;;
    call (EvPerform command) command (perform dir) ;;
    ret PyNone.

Definition perform_commands (commands : list nat) : Py (t * machine) pyval :=
  for_each commands perform_command ;;
  ret PyNone.

Definition abort : Py (t * machine) pyval :=
  st <- attr state ;;
  if decide (st = ABORTED) then raise TransactionError
  else
    setattr (set_state ABORTED) ;;
    history <- attr commands ;;
    for_each (rev history) (λ cmd, call (EvRollback cmd) cmd rollback) ;;
    ret PyNone.

Definition _commit : Py (t * machine) pyval :=
  history <- attr commands ;;
  for_each history (λ cmd, call (EvCommit cmd) cmd commit) ;;
  ret PyNone.

Definition _cleanup : Py (t * machine) pyval :=
  dir <- attr temp_dir ;;
  modify (λ s, (s.1, log (EvRmtree dir) s.2)) ;;
  os (rmtree dir) ;;
  ret PyNone.

(** Entering a running transaction only prints a warning and goes on. *)
Definition __enter__ : Py (t * machine) unit :=
  st <- attr state ;;
  if decide (st = NONE) then raise TransactionError
  else if decide (st = DONE ∨ st = ABORTED) then raise TransactionError
  else
    dir <- os (mkdtemp "_") ;;
    setattr (set_temp_dir (Some dir)) ;;
    created <- os (gets (isdir dir)) ;;
    if negb created then raise TransactionError
    else
      setattr (set_state RUNNING) ;;
      ret tt.

(** [exc_val] is the exception that left the scope, if any; the result
    tells the [with] statement whether to swallow it.  The diagnostic
    output of the verbose mode is not part of the state. *)
Definition __exit__ (exc_val : option exn) : Py (t * machine) bool :=
  match exc_val with
  | None =>
      st <- attr state ;;
      if decide (st = ABORTED) then
        _cleanup ;;
        ret true
      else if decide (st = NONE) then raise TransactionError
      else if decide (st = INIT) then raise TransactionError
      else if decide (st = DONE) then ret true
      else
        _commit ;;
        setattr (set_state DONE) ;;
        _cleanup ;;
        ret true
  | Some exc =>
      if decide (exc = TransactionError) then ret false
      else
        let error_is_abort := bool_decide (exc = TransactionAbortError) in
        is_safe <- attr safe ;;
        if negb is_safe && negb error_is_abort then ret false
        else
          abort ;;
          _cleanup ;;
          ret true
  end.

Definition start : Py (t * machine) pyval :=
  def (try_except_finally
         (stmt __enter__)
         TransactionError (return_ (PyBool false))
         (return_ (PyBool true))).

Definition end_ : Py (t * machine) pyval :=
  def (try_except_finally
         (stmt (__exit__ None))
         TransactionError (return_ (PyBool false))
         (return_ (PyBool true))).

(** [with self: body]. *)
Definition with_ (body : Py (t * machine) pyval) : Py (t * machine) unit :=
  __enter__ ;;
  λ s, match body s with
       | (Ok _, s') => (__exit__ None ;; ret tt) s'
       | (Raise exc, s') =>
           (swallow <- __exit__ (Some exc) ;;
            if swallow then ret tt else raise exc) s'
       end.

(** The class method [Transaction.execute]: a fresh transaction around
    the commands; tells whether it reached [DONE]. *)
Definition execute (commands : list nat) (name : option string) (verbose safe : bool)
  : machine → result bool * (t * machine) :=
  λ m,
    (with_ (perform_commands commands) ;;
     st <- attr state ;;
     ret (bool_decide (st = DONE)))
    (__init__ name verbose safe, m).
End Transaction.

(** ** Calling methods from outside *)

(** A caller that invokes methods on one object in some order and catches
    what each call raises. *)
Inductive method :=
  | DoPerform (temp_dir : option string)
  | DoRollback
  | DoCommit.

Definition invoke (mth : method) : Py (command * filesystem) pyval :=
  match mth with
  | DoPerform temp_dir => perform temp_dir
  | DoRollback => rollback
  | DoCommit => commit
  end.

Fixpoint invoke_all (calls : list method) (s : command * filesystem)
  : list (result pyval) * (command * filesystem) :=
  match calls with
  | [] => ([], s)
  | mth :: calls' =>
      let '(r, s') := invoke mth s in
      let '(rs, s'') := invoke_all calls' s' in
      (r :: rs, s'')
  end.

Definition is_ok {A} (r : result A) : bool :=
  match r with
  | Ok _ => true
  | Raise _ => false
  end.

(** Number of removals of a staging directory the engine has asked for. *)
Definition is_rmtree (ev : event) : bool :=
  match ev with
  | EvRmtree _ => true
  | _ => false
  end.

Definition removals (m : machine) : nat :=
  length (filter (λ ev, is_rmtree ev = true) (trace m)).

(** Classes whose [rollback] starts with the lifecycle check: all but
    the abort sentinel, which has no lifecycle, and the move command,
    which undoes the move first. *)
Definition not_move (c : command) : Prop :=
  match c with
  | OfCommandFileMove _ => False
  | _ => True
  end.

(** Between [s] and [s'] the staging directory of the transaction was
    removed, by exactly one removal, and nothing is left below it. *)
Definition staging_removed_once (s s' : Transaction.t * machine) : Prop :=
  ∃ d, Transaction.temp_dir s.1 = Some d ∧
       (d ∉ dirs (fs s'.2)) ∧
       (∀ p, below d p = true → files (fs s'.2) !! p = None) ∧
       removals s'.2 = S (removals s.2).

(** ** Example machines *)

(** The objects and files of the scenarios used below. *)
Module Example.
(** [target.txt] holds "old"; one write command for it. *)
Definition one_write : machine :=
  mkMachine
    {[ 0 := OfCommandFileWrite (CommandFileWrite.__init__ "target.txt" "new") ]}
    (mkFs {[ "target.txt" := "old" ]} ∅) [].

(** The same, with a command whose [perform] fails for a reason of its
    own. *)
Definition write_then_failure : machine :=
  mkMachine
    {[ 0 := OfCommandFileWrite (CommandFileWrite.__init__ "target.txt" "new");
       1 := OfCommand (Command.__init__ (raise (OtherError "unrelated"))
                         (ret tt) (ret tt)) ]}
    (mkFs {[ "target.txt" := "old" ]} ∅) [].

(** [B] holds "keep", [A] does not exist; a move of [A] to [B] and an
    abort command. *)
Definition move_missing_source : machine :=
  mkMachine
    {[ 0 := OfCommandFileMove (CommandFileMove.__init__ "A" "B");
       1 := OfCommandAbort CommandAbort.__init__ ]}
    (mkFs {[ "B" := "keep" ]} ∅) [].

(** [A] holds "a", [B] holds "keep"; a move, a write to the moved-to
    path and an abort command. *)
Definition move_then_write : machine :=
  mkMachine
    {[ 0 := OfCommandFileMove (CommandFileMove.__init__ "A" "B");
       1 := OfCommandFileWrite (CommandFileWrite.__init__ "B" "x");
       2 := OfCommandAbort CommandAbort.__init__ ]}
    (mkFs {[ "A" := "a"; "B" := "keep" ]} ∅) [].

(** A transaction that has entered its scope on [m] and performed the
    commands at [cmds]. *)
Definition running (safe : bool) (cmds : list nat) (m : machine)
  : Transaction.t * machine :=
  ((Transaction.__enter__ ;; Transaction.perform_commands cmds)
     (Transaction.__init__ None false safe, m)).2.
End Example.

(** ** Well-behaved runs *)

(** A file command as its constructor leaves it, with a destination that
    is a usable path. *)
Inductive fresh_command : command → Prop :=
  | fresh_write target contents :
      path_truthy target = true →
      fresh_command (OfCommandFileWrite (CommandFileWrite.__init__ target contents))
  | fresh_delete target :
      path_truthy target = true →
      fresh_command (OfCommandFileDelete (CommandFileDelete.__init__ target))
  | fresh_copy src dst c :
      CommandFileCopy.__init__ src dst = Ok c →
      path_truthy dst = true →
      fresh_command (OfCommandFileCopy c)
  | fresh_move src dst :
      path_truthy dst = true →
      fresh_command (OfCommandFileMove (CommandFileMove.__init__ src dst)).

(** The one situation the rollback of a move cannot tell from a move
    that happened: nothing to move, and something at the destination. *)
Definition nothing_moved_onto_a_file (c : command) (w : filesystem) : bool :=
  match c with
  | OfCommandFileMove mv =>
      negb (path_truthy (CommandFileMove.src_path mv)
            && isfile (CommandFileMove.src_path mv) w)
      && isfile (CommandFileMove.dst_path mv) w
  | _ => false
  end.

(** The commands at [cmds] are fresh when their turn comes, and no move
    among them finds its source missing and its destination present. *)
Fixpoint well_behaved (cmds : list nat) (s : Transaction.t * machine) : Prop :=
  match cmds with
  | [] => True
  | a :: rest =>
      (∃ c, heap s.2 !! a = Some c ∧ fresh_command c ∧
            nothing_moved_onto_a_file c (fs s.2) = false) ∧
      well_behaved rest (Transaction.perform_command a s).2
  end.

(** A transaction inside its scope: running, with its staging directory
    in place. *)
Definition in_scope (s : Transaction.t * machine) : Prop :=
  Transaction.state s.1 = TransactionState.RUNNING ∧
  ∃ d, Transaction.temp_dir s.1 = Some d ∧ isdir d (fs s.2) = true.

(** The lifecycle attributes after one successful [perform]. *)
Definition performed : CommandBase.t :=
  CommandBase.mk CommandState.PERFORMED false.

(** ** The lifecycle seen from outside *)

(** The method of [CommandBase] behind each method of a command. *)
Definition base_invoke (mth : method) : Py CommandBase.t pyval :=
  match mth with
  | DoPerform _ => CommandBase.perform
  | DoRollback => CommandBase.rollback
  | DoCommit => CommandBase.commit
  end.

(** How many [perform] calls of a run of calls returned without raising,
    and how many [commit] calls. *)
Fixpoint successful (wanted : method → bool) (calls : list method)
    (results : list (result pyval)) : nat :=
  match calls, results with
  | mth :: calls', r :: results' =>
      (if wanted mth && is_ok r then 1 else 0) + successful wanted calls' results'
  | _, _ => 0
  end.

Definition is_perform (mth : method) : bool :=
  match mth with
  | DoPerform _ => true
  | _ => false
  end.

Definition is_commit (mth : method) : bool :=
  match mth with
  | DoCommit => true
  | _ => false
  end.

(** ** The engine seen from outside *)

(** A caller that invokes methods on one transaction in some order and
    catches what each call raises; only the state after each call
    matters here. *)
Inductive tx_method :=
  | TxStart
  | TxEnter
  | TxPerform (command : nat)
  | TxPerformAll (commands : list nat)
  | TxAbort
  | TxEnd
  | TxExit (exc_val : option exn).

Definition tx_after (mth : tx_method) (s : Transaction.t * machine)
  : Transaction.t * machine :=
  match mth with
  | TxStart => (Transaction.start s).2
  | TxEnter => (Transaction.__enter__ s).2
  | TxPerform a => (Transaction.perform_command a s).2
  | TxPerformAll l => (Transaction.perform_commands l s).2
  | TxAbort => (Transaction.abort s).2
  | TxEnd => (Transaction.end_ s).2
  | TxExit exc => (Transaction.__exit__ exc s).2
  end.

Definition tx_after_all (calls : list tx_method) (s : Transaction.t * machine)
  : Transaction.t * machine :=
  foldl (λ s mth, tx_after mth s) s calls.

(** Number of [perform] and [commit] calls the engine has made. *)
Definition is_forward (ev : event) : bool :=
  match ev with
  | EvPerform _ | EvCommit _ => true
  | _ => false
  end.

Definition forward_calls (m : machine) : nat :=
  length (filter (λ ev, is_forward ev = true) (trace m)).

Definition finished (s : Transaction.t * machine) : Prop :=
  Transaction.state s.1 = TransactionState.DONE ∨
  Transaction.state s.1 = TransactionState.ABORTED.

(** ** Objects made on the way, and [main] *)




(** ** Backups *)

(** The backup a file command refers to, when it has one. *)
Definition temp_copy (c : command) : option string :=
  match c with
  | OfCommandFileWrite c => _CommandFileBase._temp_copy (CommandFileWrite.super c)
  | OfCommandFileDelete c => _CommandFileBase._temp_copy (CommandFileDelete.super c)
  | OfCommandFileCopy c => _CommandFileBase._temp_copy (CommandFileCopy.super c)
  | OfCommandFileMove c => _CommandFileBase._temp_copy (CommandFileMove.super c)
  | OfCommand _ | OfCommandAbort _ => None
  end.

Definition is_file_command (c : command) : Prop :=
  match c with
  | OfCommand _ | OfCommandAbort _ => False
  | _ => True
  end.

(** A file command that has been performed in a transaction whose
    staging directory is [d]: its backup, if any, is in [d]. *)
Definition staged (d : string) (c : command) : Prop :=
  is_file_command c ∧
  lifecycle c = Some performed ∧
  ∀ p, temp_copy c = Some p → below d p = true.

(** The lifecycle attributes after [perform] and [commit]. *)
Definition committed : CommandBase.t :=
  CommandBase.mk CommandState.COMMITTED false.

(** ** Executing one command *)

(** [self.__class__.__name__] *)
Definition class_name (c : command) : string :=
  match c with
  | OfCommand _ => "Command"
  | OfCommandAbort _ => "CommandAbort"
  | OfCommandFileWrite _ => "CommandFileWrite"
  | OfCommandFileDelete _ => "CommandFileDelete"
  | OfCommandFileCopy _ => "CommandFileCopy"
  | OfCommandFileMove _ => "CommandFileMove"
  end.

(** [CommandBase.execute], inherited by every class, called on the object
    at [self]: a safe transaction around the one command, named after
    the class when no name is given; tells whether it reached [DONE]. *)
Definition execute (self : nat) (name : option string) (verbose : bool)
  : machine → result bool * (Transaction.t * machine) :=
  λ m,
    let name :=
      match name with
      | Some n => if path_truthy n then Some n else class_name <$> heap m !! self
      | None => class_name <$> heap m !! self
      end in
    (Transaction.with_ (Transaction.perform_command self) ;;
     st <- attr Transaction.state ;;
     ret (bool_decide (st = TransactionState.DONE)))
    (Transaction.__init__ name verbose true, m).

(** * Properties *)

(** Unfolding of the monad and of the attribute plumbing. *)
Ltac run :=
  cbv beta iota zeta delta
    [bind ret raise gets modify zoom attr setattr io def stmt return_
     try_except_finally];
  cbn [fst snd].

Section Lifecycle.
Import CommandBase.

Lemma perform_from_init b :
  _state b = CommandState.INIT →
  perform b = (Ok PyNone, mk CommandState.PERFORMED (_error_pre_preform b)).
Proof. intros H. unfold perform. run. rewrite H. by case_decide. Qed.

Lemma perform_illegal b :
  _state b ≠ CommandState.INIT →
  perform b = (Raise CommandError, mk (_state b) true).
Proof. intros H. unfold perform. run. by case_decide. Qed.

Lemma rollback_failed_pre_perform b :
  _error_pre_preform b = true → rollback b = (Ok (PyBool true), b).
Proof. intros H. unfold rollback. run. by rewrite H. Qed.

Lemma rollback_performed b :
  _error_pre_preform b = false → _state b = CommandState.PERFORMED →
  rollback b = (Ok (PyBool false), b).
Proof. intros H1 H2. unfold rollback. run. rewrite H1, H2. by case_decide. Qed.

Lemma rollback_illegal b :
  _error_pre_preform b = false → _state b ≠ CommandState.PERFORMED →
  rollback b = (Raise CommandError, b).
Proof. intros H1 H2. unfold rollback. run. rewrite H1. by case_decide. Qed.

Lemma commit_performed b :
  _state b = CommandState.PERFORMED →
  commit b = (Ok PyNone, mk CommandState.COMMITTED (_error_pre_preform b)).
Proof. intros H. unfold commit. run. rewrite H. by case_decide. Qed.

Lemma commit_illegal b :
  _state b ≠ CommandState.PERFORMED → commit b = (Raise CommandError, b).
Proof. intros H. unfold commit. run. by case_decide. Qed.

(** No method of the lifecycle writes into the object on [rollback]. *)
Lemma rollback_keeps_object b : (rollback b).2 = b.
Proof.
  destruct (_error_pre_preform b) eqn:Hf.
  - by rewrite rollback_failed_pre_perform.
  - destruct (decide (_state b = CommandState.PERFORMED)).
    + by rewrite rollback_performed.
    + by rewrite rollback_illegal.
Qed.
End Lifecycle.

(** Unfolding of the methods of the command classes, down to the
    lifecycle methods, which the lemmas above describe. *)
Ltac unfold_class :=
  unfold perform, rollback, commit, as_object,
    Command.perform, Command.rollback, Command.commit, Command.upcall,
    CommandAbort.perform, CommandAbort.rollback, CommandAbort.commit,
    CommandFileWrite.perform, CommandFileWrite.rollback,
    CommandFileWrite.commit, CommandFileWrite.upcall,
    CommandFileWrite.target_path,
    CommandFileDelete.perform, CommandFileDelete.rollback,
    CommandFileDelete.commit, CommandFileDelete.upcall,
    CommandFileDelete.target_path,
    CommandFileCopy.perform, CommandFileCopy.rollback,
    CommandFileCopy.commit, CommandFileCopy.upcall,
    CommandFileMove.perform, CommandFileMove.rollback,
    CommandFileMove.commit, CommandFileMove.upcall,
    _CommandFileBase.perform, _CommandFileBase.rollback,
    _CommandFileBase.commit, _CommandFileBase.upcall;
  run.

Section Dispatch.
Implicit Types (c : command) (b : CommandBase.t) (w : filesystem).

Lemma commit_illegal_dispatch c b w :
  lifecycle c = Some b → CommandBase._state b ≠ CommandState.PERFORMED →
  commit (c, w) = (Raise CommandError, (c, w)).
Proof.
  intros Hb Hs.
  destruct c as [c|c|c|c|c|c]; simpl in Hb; simplify_eq.
  all: unfold_class; rewrite (commit_illegal _ Hs); simpl.
  - by destruct c.
  - by destruct c as [[] ?].
  - by destruct c as [[]].
  - by destruct c as [[] ? ?].
  - by destruct c as [[] ? ?].
Qed.

Lemma rollback_illegal_dispatch c b w :
  lifecycle c = Some b → not_move c →
  CommandBase._error_pre_preform b = false →
  CommandBase._state b ≠ CommandState.PERFORMED →
  rollback (c, w) = (Raise CommandError, (c, w)).
Proof.
  intros Hb Hm Hf Hs.
  destruct c as [c|c|c|c|c|c]; simpl in Hb; simplify_eq; try done.
  all: unfold_class; rewrite (rollback_illegal _ Hf Hs); simpl.
  - by destruct c.
  - by destruct c as [[] ?].
  - by destruct c as [[]].
  - by destruct c as [[] ? ?].
Qed.

End Dispatch.

Section Sweep.
Import Transaction.
Implicit Types (s : Transaction.t * machine) (xs calls : list nat).

Lemma call_frame ev a mth s :
  (call ev a mth s).2.1 = s.1 ∧
  trace (call ev a mth s).2.2 = trace s.2 ++ [ev].
Proof.
  unfold call. simpl. destruct (heap s.2 !! a) as [c|]; simpl; [|done].
  by destruct (mth (c, fs s.2)) as [r [c' w']].
Qed.

(** A loop of method calls over a list of addresses: the calls made are
    an initial segment of the list, in the order of the list, and all of
    it when the loop ends without an exception. *)
Lemma for_each_call_trace (ev : nat → event) mth xs s :
  (for_each xs (λ a, call (ev a) a mth) s).2.1 = s.1 ∧
  ∃ calls,
    calls `prefix_of` xs ∧
    trace (for_each xs (λ a, call (ev a) a mth) s).2.2
      = trace s.2 ++ (ev <$> calls) ∧
    (is_ok (for_each xs (λ a, call (ev a) a mth) s).1 = true → calls = xs).
Proof.
  revert s. induction xs as [|a xs IH]; intros s; simpl.
  - split; [done|]. exists []. by rewrite app_nil_r.
  - unfold bind.
    destruct (call_frame (ev a) a mth s) as [Hself Htr].
    destruct (call (ev a) a mth s) as [[v|e] s1]; simpl in *.
    + destruct (IH s1) as [IH1 (calls & Hpre & IH2 & IH3)].
      split; [congruence|].
      exists (a :: calls). split; [by apply prefix_cons|].
      split; [|intros H; f_equal; by apply IH3].
      rewrite IH2, Htr, <- app_assoc. done.
    + split; [done|]. exists [a]. split.
      * by apply prefix_cons, prefix_nil.
      * split; [by rewrite Htr|done].
Qed.
End Sweep.

Section Engine.
Import Transaction TransactionState.
Implicit Types (s : Transaction.t * machine) (exc : exn).

Lemma abort_twice s :
  state s.1 = ABORTED → abort s = (Raise TransactionError, s).
Proof. intros H. unfold abort. run. rewrite H. by case_decide. Qed.

Lemma abort_sweep s :
  state s.1 ≠ ABORTED →
  abort s =
    (for_each (rev (commands s.1)) (λ cmd, call (EvRollback cmd) cmd rollback) ;;
     ret PyNone) (set_state ABORTED s.1, s.2).
Proof. intros H. unfold abort. run. by case_decide. Qed.

Lemma abort_state s :
  state s.1 ≠ ABORTED → state (abort s).2.1 = ABORTED.
Proof.
  intros H. rewrite (abort_sweep _ H). unfold bind.
  pose proof (for_each_call_trace EvRollback rollback (rev (commands s.1))
                (set_state ABORTED s.1, s.2)) as [Hself _].
  destruct (for_each _ _ _) as [[[]|e] s1]; simpl in *; by rewrite Hself.
Qed.

Lemma removals_calls (ev : nat → event) (m m' : machine) (calls : list nat) :
  (∀ a, is_rmtree (ev a) = false) →
  trace m' = trace m ++ (ev <$> calls) → removals m' = removals m.
Proof.
  intros Hev Htr. unfold removals. rewrite Htr, filter_app, length_app.
  assert (filter (λ e, is_rmtree e = true) (ev <$> calls) = []) as ->; [|simpl; lia].
  clear Htr. induction calls as [|a calls IH]; [done|]. simpl.
  rewrite filter_cons_False; [done|]. by rewrite Hev.
Qed.

(** What [_cleanup] does: one removal is asked for; when it succeeds
    the directory and the files below it are gone. *)
Lemma cleanup_spec s :
  (_cleanup s).2.1 = s.1 ∧
  removals (_cleanup s).2.2 = S (removals s.2) ∧
  heap (_cleanup s).2.2 = heap s.2 ∧
  (is_ok (_cleanup s).1 = true →
   ∃ d, temp_dir s.1 = Some d ∧ d ∈ dirs (fs s.2) ∧
        (d ∉ dirs (fs (_cleanup s).2.2)) ∧
        ∀ p, below d p = true → files (fs (_cleanup s).2.2) !! p = None).
Proof.
  unfold _cleanup, os. run. unfold removals, rmtree. simpl.
  destruct (temp_dir s.1) as [d|] eqn:Hd; simpl.
  - unfold isdir. destruct (bool_decide (d ∈ dirs (fs s.2))) eqn:Hin; simpl.
    + repeat split.
      * rewrite filter_app, length_app. simpl. lia.
      * intros _. apply bool_decide_eq_true in Hin.
        exists d. repeat split; [done| |].
        -- rewrite elem_of_filter, elem_of_difference, elem_of_singleton.
           intros (_ & _ & Hne). by apply Hne.
        -- intros p Hp. apply map_lookup_filter_None. right.
           intros c _. simpl. by rewrite Hp.
    + repeat split; [|done].
      rewrite filter_app, length_app. simpl. lia.
  - repeat split; [|done].
    rewrite filter_app, length_app. simpl. lia.
Qed.

Lemma cleanup_trace s :
  (_cleanup s).2.1 = s.1 ∧
  trace (_cleanup s).2.2 = trace s.2 ++ [EvRmtree (temp_dir s.1)].
Proof.
  unfold _cleanup, os. run.
  by destruct (rmtree _ _) as [[[]|e] w'].
Qed.
End Engine.

(** ** The copy constructor *)

(** C8.  Constructing [CommandFileCopy(src, dst)] raises [SameFileError]
    exactly when the two paths are equal; the constructor is a pure
    function of the two paths, so the failure comes before any transaction
    or [perform] is involved.  When the paths differ the constructor
    succeeds, and the new command is in its initial state, protects [dst]
    and has no backup yet. *)
Theorem copy_constructor_rejects_same_path (src dst : string) :
  (CommandFileCopy.__init__ src dst = Raise SameFileError ↔ src = dst) ∧
  (src ≠ dst ↔
   ∃ c, CommandFileCopy.__init__ src dst = Ok c ∧
        CommandFileCopy.src_path c = src ∧
        CommandFileCopy.dst_path c = dst ∧
        _CommandFileBase.target_path (CommandFileCopy.super c) = dst ∧
        _CommandFileBase._temp_copy (CommandFileCopy.super c) = None ∧
        lifecycle (OfCommandFileCopy c) = Some CommandBase.__init__).
Proof.
  unfold CommandFileCopy.__init__.
  destruct (decide (src = dst)) as [Heq|Hne]; split; split; try done.
  - by intros (c & ? & _).
  - intros _. eexists. by repeat split.
Qed.

(** ** The abort sentinel *)

(** C10.  The abort command has no lifecycle state at all, and whatever
    methods are called on it, in whatever order and however often: every
    [perform] raises the abort signal, every [rollback] and [commit]
    returns [None], and neither the object nor the file system changes.
    No call ever raises the lifecycle error. *)
Theorem abort_command_ignores_lifecycle (calls : list method) (w : filesystem) :
  let cmd := OfCommandAbort CommandAbort.__init__ in
  lifecycle cmd = None ∧
  invoke_all calls (cmd, w) =
    ((λ mth, match mth with
             | DoPerform _ => Raise TransactionAbortError
             | DoRollback | DoCommit => Ok PyNone
             end) <$> calls,
     (cmd, w)).
Proof.
  simpl. split; [done|].
  induction calls as [|mth calls IH]; [done|].
  simpl. destruct mth; simpl; by rewrite IH.
Qed.

(** ** [start] and [end] *)

(** C9.  [Transaction.start()] and [Transaction.end()] return [True] for
    every transaction and every machine state.  The scope entry behind
    [start] does raise the usage error for a finished or invalid
    transaction, and the scope exit behind [end] does so for one that was
    never started: the [return True] of the [finally] clause replaces the
    exception, and the [return False] of the handler as well.  What entry
    or exit did to the state stays. *)
Theorem start_and_end_always_return_true (s : Transaction.t * machine) :
  Transaction.start s = (Ok (PyBool true), (Transaction.__enter__ s).2) ∧
  Transaction.end_ s = (Ok (PyBool true), (Transaction.__exit__ None s).2) ∧
  (Transaction.state s.1 = TransactionState.NONE ∨
   Transaction.state s.1 = TransactionState.DONE ∨
   Transaction.state s.1 = TransactionState.ABORTED →
   Transaction.__enter__ s = (Raise TransactionError, s)) ∧
  (Transaction.state s.1 = TransactionState.NONE ∨
   Transaction.state s.1 = TransactionState.INIT →
   Transaction.__exit__ None s = (Raise TransactionError, s)).
Proof.
  split; [|split; [|split]].
  - unfold Transaction.start. run.
    destruct (Transaction.__enter__ s) as [[[]|e] s']; simpl; [done|].
    by case_decide.
  - unfold Transaction.end_. run.
    destruct (Transaction.__exit__ None s) as [[b|e] s']; simpl; [done|].
    by case_decide.
  - intros H. unfold Transaction.__enter__. run.
    destruct s as [self m]; simpl in *.
    destruct H as [-> | [-> | ->]]; done.
  - intros H. unfold Transaction.__exit__. run.
    destruct s as [self m]; simpl in *.
    destruct H as [-> | ->]; done.
Qed.

(** The usage errors of C9, at the states the claim names. *)
Lemma start_and_end_always_return_true_witness :
  let m := mkMachine ∅ (mkFs ∅ ∅) [] in
  let done := Transaction.mk None false true TransactionState.DONE [] None in
  let fresh := Transaction.__init__ None false true in
  Transaction.__enter__ (done, m) = (Raise TransactionError, (done, m)) ∧
  Transaction.start (done, m) = (Ok (PyBool true), (done, m)) ∧
  Transaction.__exit__ None (fresh, m) = (Raise TransactionError, (fresh, m)) ∧
  Transaction.end_ (fresh, m) = (Ok (PyBool true), (fresh, m)).
Proof.
  intros m done fresh.
  destruct (start_and_end_always_return_true (done, m)) as (Hs & _ & He & _).
  destruct (start_and_end_always_return_true (fresh, m)) as (_ & Hd & _ & Hx).
  assert (Transaction.__enter__ (done, m) = (Raise TransactionError, (done, m))) as E1.
  { apply He. simpl. tauto. }
  assert (Transaction.__exit__ None (fresh, m) = (Raise TransactionError, (fresh, m))) as E2.
  { apply Hx. simpl. tauto. }
  split; [done|]. split; [by rewrite Hs, E1|]. split; [done|]. by rewrite Hd, E2.
Defined.

(** ** The lifecycle in its initial state *)



(** ** Rollback does not end the lifecycle *)

(** C3.  [rollback] never writes the lifecycle state: after a successful
    [perform] followed by a successful [rollback] the command is still
    [PERFORMED], so a second [rollback] succeeds and so does a [commit],
    which then moves the command to [COMMITTED].  After a [commit], on
    the other hand, both [rollback] and [commit] raise the lifecycle
    error.  The state [ROLLEDBACK] is never assigned. *)
Theorem rollback_then_commit_succeeds (w : filesystem) :
  let b1 := CommandBase.mk CommandState.PERFORMED false in
  let noop : callback := ret tt in
  CommandBase.perform CommandBase.__init__ = (Ok PyNone, b1) ∧
  CommandBase.rollback b1 = (Ok (PyBool false), b1) ∧
  CommandBase.commit b1
    = (Ok PyNone, CommandBase.mk CommandState.COMMITTED false) ∧
  (invoke_all [DoPerform None; DoRollback; DoRollback; DoCommit; DoRollback; DoCommit]
     (OfCommand (Command.__init__ noop noop noop), w)).1
    = [Ok PyNone; Ok PyNone; Ok PyNone; Ok PyNone;
       Raise CommandError; Raise CommandError] ∧
  (∀ b, (CommandBase.rollback b).2 = b) ∧
  (∀ b, CommandBase._state (CommandBase.commit b).2 ≠ CommandState.ROLLEDBACK ∨
        CommandBase._state b = CommandState.ROLLEDBACK) ∧
  (∀ b, CommandBase._state (CommandBase.perform b).2 ≠ CommandState.ROLLEDBACK ∨
        CommandBase._state b = CommandState.ROLLEDBACK).
Proof.
  simpl. repeat split.
  - apply rollback_keeps_object.
  - intros [st f]. destruct st; first [by right | by left].
  - intros [st f]. destruct st; first [by right | by left].
Qed.

Section EngineFrames.
Import Transaction TransactionState.
Implicit Types (s : Transaction.t * machine).

Lemma commit_frame s :
  (_commit s).2.1 = s.1 ∧
  ∃ calls, calls `prefix_of` commands s.1 ∧
    trace (_commit s).2.2 = trace s.2 ++ (EvCommit <$> calls) ∧
    (is_ok (_commit s).1 = true → calls = commands s.1).
Proof.
  unfold _commit. run.
  destruct (for_each_call_trace EvCommit commit (commands s.1) s)
    as [Hself (calls & Hpre & Htr & Hall)].
  destruct (for_each _ _ s) as [[[]|e] s1]; simpl in *;
    (split; [done|]); exists calls; by repeat split.
Qed.

Lemma abort_frame s :
  state s.1 ≠ ABORTED →
  (abort s).2.1 = set_state ABORTED s.1 ∧
  ∃ calls, calls `prefix_of` rev (commands s.1) ∧
    trace (abort s).2.2 = trace s.2 ++ (EvRollback <$> calls) ∧
    (is_ok (abort s).1 = true → calls = rev (commands s.1)).
Proof.
  intros H. rewrite (abort_sweep _ H). unfold bind.
  destruct (for_each_call_trace EvRollback rollback (rev (commands s.1))
              (set_state ABORTED s.1, s.2))
    as [Hself (calls & Hpre & Htr & Hall)].
  destruct (for_each _ _ _) as [[[]|e] s1]; simpl in *;
    (split; [done|]); exists calls; by repeat split.
Qed.

End EngineFrames.

(** ** The order of the sweeps *)



(** ** Exceptions that leave the scope *)

Section Scope.
Import Transaction TransactionState.
Implicit Types (s : Transaction.t * machine) (body : Py (Transaction.t * machine) pyval).

Lemma exit_usage_error s :
  __exit__ (Some TransactionError) s = (Ok false, s).
Proof. unfold __exit__. run. by case_decide. Qed.

Lemma exit_abort_signal s :
  __exit__ (Some TransactionAbortError) s = (abort ;; _cleanup ;; ret true) s.
Proof.
  unfold __exit__. cbn [bool_decide decide_rel]. case_decide; [done|].
  run. rewrite bool_decide_eq_true_2 by done. simpl.
  by rewrite andb_false_r.
Qed.

Lemma exit_unsafe_failure exc s :
  exc ≠ TransactionError → exc ≠ TransactionAbortError → safe s.1 = false →
  __exit__ (Some exc) s = (Ok false, s).
Proof.
  intros H1 H2 Hs. unfold __exit__. case_decide; [done|].
  run. rewrite Hs, bool_decide_eq_false_2 by done. done.
Qed.

Lemma exit_safe_failure exc s :
  exc ≠ TransactionError → safe s.1 = true →
  __exit__ (Some exc) s = (abort ;; _cleanup ;; ret true) s.
Proof.
  intros H1 Hs. unfold __exit__. case_decide; [done|].
  run. by rewrite Hs.
Qed.

Lemma with_raised body s0 s_in s1 exc :
  __enter__ s0 = (Ok tt, s_in) → body s_in = (Raise exc, s1) →
  with_ body s0 =
    (swallow <- __exit__ (Some exc) ;; if swallow then ret tt else raise exc) s1.
Proof. intros He Hb. unfold with_. unfold bind at 1. by rewrite He, Hb. Qed.
End Scope.



(** ** Removal of the staging directory *)

Section Staging.
Import Transaction TransactionState.
Implicit Types (s : Transaction.t * machine).

(** When the cleanup that ends an exit path succeeds, the staging
    directory is gone and that cleanup was the one removal. *)
Lemma cleanup_removes_once s s1 s' :
  temp_dir s1.1 = temp_dir s.1 → removals s1.2 = removals s.2 →
  (_cleanup ;; ret true) s1 = (Ok true, s') →
  staging_removed_once s s'.
Proof.
  intros Hd Hr. unfold bind.
  destruct (cleanup_spec s1) as (_ & Hrem & _ & Hgone).
  destruct (_cleanup s1) as [[v|e] s2]; simpl in *; [|done].
  intros [= <-]. destruct Hgone as (d & Hdir & _ & Hout & Hfiles); [done|].
  exists d. rewrite <- Hd, <- Hr. by repeat split.
Qed.

Lemma abort_then_cleanup_removes_once s s' :
  (abort ;; _cleanup ;; ret true) s = (Ok true, s') →
  staging_removed_once s s'.
Proof.
  destruct (decide (state s.1 = ABORTED)) as [Ha|Ha].
  { unfold bind at 1. by rewrite (abort_twice _ Ha). }
  unfold bind at 1.
  destruct (abort_frame s Ha) as [Hself (calls & _ & Htr & _)].
  destruct (abort s) as [[v|e] s1]; simpl in *; [|done].
  apply cleanup_removes_once.
  - by rewrite Hself.
  - by apply (removals_calls EvRollback _ _ calls).
Qed.
End Staging.

(** C2, as the code has it.  Whenever the scope exit returns [True] to
    the [with] statement (after the commit of a running transaction, after
    an earlier [abort()], or after aborting on the abort signal or, in safe
    mode, on another failure), the staging directory and every file below
    it are gone, and the exit asked for exactly one removal.  The one
    exception is the repeated exit of a transaction that is already
    [DONE]: it returns [True] and removes nothing.  When the scope is left
    by a usage error, or in unsafe mode by any failure other than the
    abort signal, the exit returns [False] and touches nothing: the
    staging directory stays. *)
Theorem exit_removes_staging_dir_when_handled
    (exc : option exn) (s s' : Transaction.t * machine) :
  (Transaction.__exit__ exc s = (Ok true, s') →
   ¬ (exc = None ∧ Transaction.state s.1 = TransactionState.DONE) →
   staging_removed_once s s') ∧
  (exc = None → Transaction.state s.1 = TransactionState.DONE →
   Transaction.__exit__ exc s = (Ok true, s)) ∧
  (∀ e, exc = Some e →
     e = TransactionError ∨
     (Transaction.safe s.1 = false ∧ e ≠ TransactionAbortError) →
     Transaction.__exit__ exc s = (Ok false, s)).
Proof.
  split; [|split].
  - intros Hx Hnd. destruct exc as [e|].
    + destruct (decide (e = TransactionError)) as [->|Hne].
      { by rewrite exit_usage_error in Hx. }
      destruct (Transaction.safe s.1) eqn:Hsafe.
      * rewrite (exit_safe_failure _ _ Hne Hsafe) in Hx.
        by apply abort_then_cleanup_removes_once.
      * destruct (decide (e = TransactionAbortError)) as [->|Hna].
        -- rewrite exit_abort_signal in Hx.
           by apply abort_then_cleanup_removes_once.
        -- by rewrite (exit_unsafe_failure _ _ Hne Hna Hsafe) in Hx.
    + revert Hx. unfold Transaction.__exit__.
      unfold bind at 1. unfold attr, gets. cbn [fst snd].
      destruct (Transaction.state s.1) eqn:Hst; simpl; try done.
      * (* RUNNING: commit, then cleanup *)
        unfold bind at 1.
        destruct (commit_frame s) as [Hself (calls & _ & Htr & _)].
        destruct (Transaction._commit s) as [[v|e] s1]; simpl in *; [|done].
        unfold bind at 1. unfold setattr, modify. cbn [fst snd].
        apply cleanup_removes_once; simpl.
        -- by rewrite Hself.
        -- by apply (removals_calls EvCommit _ _ calls).
      * (* DONE *) intros _. by destruct Hnd.
      * (* ABORTED: cleanup only *)
        by apply cleanup_removes_once.
  - intros -> Hst. unfold Transaction.__exit__. run. by rewrite Hst.
  - intros e -> [->|[Hsafe Hna]].
    + apply exit_usage_error.
    + destruct (decide (e = TransactionError)) as [->|Hne].
      * apply exit_usage_error.
      * by apply exit_unsafe_failure.
Qed.

(** C2 at a running transaction with one performed write: a failure in
    safe mode and a normal exit both remove the staging directory; the
    same failure in unsafe mode leaves everything as it is. *)
Lemma exit_removes_staging_dir_when_handled_witness :
  let s := Example.running true [0] Example.one_write in
  let u := Example.running false [0] Example.one_write in
  staging_removed_once s (Transaction.__exit__ (Some (OtherError "boom")) s).2 ∧
  staging_removed_once s (Transaction.__exit__ None s).2 ∧
  Transaction.__exit__ (Some (OtherError "boom")) u = (Ok false, u).
Proof.
  intros s u. split; [|split].
  - destruct (exit_removes_staging_dir_when_handled (Some (OtherError "boom")) s
                (Transaction.__exit__ (Some (OtherError "boom")) s).2) as [H _].
    apply H; [by vm_compute|]. by intros [? _].
  - destruct (exit_removes_staging_dir_when_handled None s
                (Transaction.__exit__ None s).2) as [H _].
    apply H; [by vm_compute|]. intros [_ Hst]. by vm_compute in Hst.
  - destruct (exit_removes_staging_dir_when_handled (Some (OtherError "boom")) u u)
      as (_ & _ & H).
    apply (H (OtherError "boom") eq_refl). right. by split.
Defined.

(** C2 as stated fails in unsafe mode: a failure other than the abort
    signal leaves the scope, the [with] statement raises it again, and
    the staging directory created on entry is still there, with no
    removal asked for. *)
Lemma unsafe_failure_keeps_staging_dir :
  let s0 := (Transaction.__init__ None false false, Example.one_write) in
  let body := (Transaction.perform_command 0 ;; raise (OtherError "boom"))
              : Py (Transaction.t * machine) pyval in
  let s_in := (Transaction.__enter__ s0).2 in
  let out := Transaction.with_ body s0 in
  out.1 = Raise (OtherError "boom") ∧
  Transaction.temp_dir s_in.1 = Some "/tmp/_" ∧
  "/tmp/_" ∈ dirs (fs out.2.2) ∧
  removals out.2.2 = 0 ∧
  ¬ staging_removed_once s_in out.2.
Proof.
  intros s0 body s_in out.
  assert ("/tmp/_" ∈ dirs (fs out.2.2)) as Hin.
  { apply (bool_decide_unpack _). by vm_compute. }
  split; [by vm_compute|]. split; [by vm_compute|]. split; [done|].
  split; [by vm_compute|].
  intros (d & Hd & Hout & _). apply Hout.
  assert (d = "/tmp/_") as -> by (vm_compute in Hd; congruence).
  done.
Qed.

(** * Performing and undoing file commands *)

(** From here on the reduction tactics leave the operations of the file
    system and the methods of the classes folded; they are rewritten with
    the equations proved for them. *)
Global Arguments mkstemp : simpl never.
Global Arguments mkdtemp : simpl never.
Global Arguments shutil_copy : simpl never.
Global Arguments shutil_move : simpl never.
Global Arguments os_remove : simpl never.
Global Arguments write_file : simpl never.
Global Arguments rmtree : simpl never.
Global Arguments isfile : simpl never.
Global Arguments isdir : simpl never.
Global Arguments set_files : simpl never.
Global Arguments CommandBase.perform : simpl never.
Global Arguments CommandBase.rollback : simpl never.
Global Arguments CommandBase.commit : simpl never.
Global Arguments _CommandFileBase.perform : simpl never.
Global Arguments _CommandFileBase.rollback : simpl never.
Global Arguments _CommandFileBase.commit : simpl never.
Global Arguments CommandFileWrite.perform : simpl never.
Global Arguments CommandFileWrite.rollback : simpl never.
Global Arguments perform : simpl never.
Global Arguments rollback : simpl never.
Global Arguments commit : simpl never.

Ltac steps := run; cbn.

Section FileSystem.
Implicit Types (w : filesystem) (p src dst : string).

Lemma path_truthy_app (s t : string) :
  path_truthy s = true → path_truthy (s +:+ t) = true.
Proof. by destruct s. Qed.

Lemma fresh_string_truthy {A} (m : stringmap A) (s : string) :
  path_truthy s = true → path_truthy (fresh_string s m) = true.
Proof.
  intros Hs. unfold fresh_string. destruct (m !! s) as [a|]; [|done].
  generalize 0%N (wf_guard 32 (fresh_string_R_wf s m) 0%N). revert m.
  fix FIX 3. intros m n [?]. simpl. unfold fresh_string_go at 1. simpl.
  destruct (Some_dec (m !! _)) as [[??]|?]; [apply FIX|].
  by apply path_truthy_app.
Qed.

Lemma append_cons a (s t : string) : String a s +:+ t = String a (s +:+ t).
Proof. done. Qed.

Lemma prefix_app (s t : string) : String.prefix s (s +:+ t) = true.
Proof.
  induction s as [|a s IH]; [by destruct t|].
  rewrite append_cons. cbn. destruct (Ascii.ascii_dec a a); [done|congruence].
Qed.

Lemma append_assoc (s t u : string) : (s +:+ t) +:+ u = s +:+ (t +:+ u).
Proof.
  induction s as [|a s IH]; [done|]. rewrite !append_cons. by f_equal.
Qed.

Lemma fresh_string_extends {A} (m : stringmap A) (s : string) :
  ∃ t, fresh_string s m = s +:+ t.
Proof.
  unfold fresh_string. destruct (m !! s) as [a|].
  - generalize 0%N (wf_guard 32 (fresh_string_R_wf s m) 0%N). revert m.
    fix FIX 3. intros m n [?]. simpl. unfold fresh_string_go at 1. simpl.
    destruct (Some_dec (m !! _)) as [[??]|?]; [apply FIX|].
    by eexists.
  - exists "". induction s as [|a s IH]; [done|].
    rewrite append_cons. by f_equal.
Qed.

Lemma staging_file_below d X :
  below d (fresh_string_of_set (d +:+ "/tmp") X) = true.
Proof.
  unfold below, fresh_string_of_set.
  destruct (fresh_string_extends (mapset.mapset_car X) (d +:+ "/tmp")) as [t ->].
  change (d +:+ "/tmp") with (d +:+ ("/" +:+ "tmp")).
  rewrite <- (append_assoc d "/" "tmp"), append_assoc.
  apply prefix_app.
Qed.

Lemma isfile_true p w c : files w !! p = Some c → isfile p w = true.
Proof. unfold isfile. by intros ->. Qed.

Lemma isfile_false p w : files w !! p = None → isfile p w = false.
Proof. unfold isfile. by intros ->. Qed.

Lemma isfile_lookup p w :
  (isfile p w = true ∧ ∃ c, files w !! p = Some c) ∨
  (isfile p w = false ∧ files w !! p = None).
Proof. unfold isfile. destruct (files w !! p); [left|right]; eauto. Qed.

Lemma mkstemp_in_staging d w :
  isdir d w = true →
  ∃ p, mkstemp (Some d) w = (Ok p, set_files <[p := ""]> w) ∧
       files w !! p = None ∧ path_truthy p = true ∧ below d p = true.
Proof.
  intros Hd. unfold mkstemp. rewrite Hd. eexists. split; [done|].
  pose proof (fresh_string_of_set_fresh (names w) (d +:+ "/tmp")) as Hf.
  unfold names in Hf. rewrite not_elem_of_union, not_elem_of_dom in Hf.
  split; [by destruct Hf|]. split; [|apply staging_file_below].
  unfold fresh_string_of_set. apply fresh_string_truthy. by destruct d.
Qed.

Lemma shutil_copy_ok src dst w c :
  files w !! src = Some c → src ≠ dst → path_truthy dst = true →
  shutil_copy src dst w = (Ok dst, set_files <[dst := c]> w).
Proof.
  intros Hs Hne Ht. unfold shutil_copy. rewrite Hs.
  case_decide; [done|]. by rewrite Ht.
Qed.

Lemma shutil_move_ok src dst w c :
  files w !! src = Some c → src ≠ dst → path_truthy dst = true →
  shutil_move src dst w
    = (Ok dst, set_files (λ m, <[dst := c]> (delete src m)) w).
Proof.
  intros Hs Hne Ht. unfold shutil_move. rewrite Hs.
  case_decide; [done|]. by rewrite Ht.
Qed.

Lemma shutil_move_same p w c :
  files w !! p = Some c → shutil_move p p w = (Ok p, w).
Proof. intros Hs. unfold shutil_move. rewrite Hs. by case_decide. Qed.

Lemma os_remove_ok p w c :
  files w !! p = Some c → os_remove p w = (Ok tt, set_files (delete p) w).
Proof. intros Hs. unfold os_remove. by rewrite Hs. Qed.

Lemma write_file_ok p c w :
  path_truthy p = true → write_file p c w = (Ok tt, set_files <[p := c]> w).
Proof. intros Ht. unfold write_file. by rewrite Ht. Qed.

Lemma filesystem_eq w w' : files w = files w' → dirs w = dirs w' → w = w'.
Proof. destruct w, w'. simpl. by intros -> ->. Qed.
End FileSystem.




Section Backup.
Implicit Types (w : filesystem) (p target : string).

Lemma base_perform_backup target d w k :
  isdir d w = true → files w !! target = Some k →
  ∃ p, files w !! p = None ∧ path_truthy p = true ∧ below d p = true ∧
    _CommandFileBase.perform (Some d) (_CommandFileBase.__init__ target, w)
    = (Ok (PyBool true),
       (_CommandFileBase.mk performed target (Some p), set_files <[p := k]> w)).
Proof.
  intros Hd Hk.
  destruct (mkstemp_in_staging d w Hd) as (p & Hmk & Hp & Ht & Hb).
  exists p. split; [done|]. split; [done|]. split; [done|].
  unfold _CommandFileBase.perform, _CommandFileBase.upcall,
    _CommandFileBase.__init__.
  steps. rewrite perform_from_init by done. steps.
  rewrite (isfile_true _ _ _ Hk). steps. rewrite Hmk. steps.
  rewrite (shutil_copy_ok target p _ k); [| |congruence|done].
  - steps. unfold set_files. cbn. by rewrite insert_insert_eq.
  - unfold set_files. cbn. rewrite lookup_insert_ne; [done|congruence].
Qed.

Lemma base_perform_nothing target dir w :
  files w !! target = None →
  _CommandFileBase.perform dir (_CommandFileBase.__init__ target, w)
  = (Ok (PyBool false), (_CommandFileBase.mk performed target None, w)).
Proof.
  intros Hk.
  unfold _CommandFileBase.perform, _CommandFileBase.upcall,
    _CommandFileBase.__init__.
  steps. rewrite perform_from_init by done. steps.
  rewrite (isfile_false _ _ Hk). by steps.
Qed.

Lemma base_rollback_restore target p w k :
  files w !! p = Some k → path_truthy p = true → p ≠ target →
  path_truthy target = true →
  _CommandFileBase.rollback (_CommandFileBase.mk performed target (Some p), w)
  = (Ok (PyBool true),
     (_CommandFileBase.mk performed target (Some p),
      set_files (λ m, <[target := k]> (delete p m)) w)).
Proof.
  intros Hk Hp Hne Ht.
  unfold _CommandFileBase.rollback, _CommandFileBase.upcall,
    _CommandFileBase.no_copy, performed.
  steps. rewrite rollback_performed by done. steps.
  rewrite Hp, (isfile_true _ _ _ Hk). steps.
  rewrite (shutil_move_ok p target w k); [by run|done..].
Qed.

Lemma base_rollback_nothing target w :
  _CommandFileBase.rollback (_CommandFileBase.mk performed target None, w)
  = (Ok (PyBool false), (_CommandFileBase.mk performed target None, w)).
Proof.
  unfold _CommandFileBase.rollback, _CommandFileBase.upcall,
    _CommandFileBase.no_copy, performed.
  steps. rewrite rollback_performed by done. by steps.
Qed.
End Backup.


(** Two file systems with the same files and directories are equal; the
    files are compared key by key, told apart from the named paths. *)
(** Two file systems are equal when they have the same directories and
    the same content at every path; the paths are told apart from the
    ones the command names. *)
Ltac files_by_key :=
  apply filesystem_eq; [|done];
  unfold set_files; cbn; apply map_eq; intros ?i.
Ltac key i p := destruct (decide (i = p)); [subst i|].
Ltac close_key := simplify_map_eq; congruence.

Section RoundTrip.
Implicit Types (w : filesystem) (d : string).

Lemma write_roundtrip target contents w d :
  path_truthy target = true → isdir d w = true →
  ∃ v c1 w1 v' c2,
    perform (Some d)
      (OfCommandFileWrite (CommandFileWrite.__init__ target contents), w)
      = (Ok v, (c1, w1)) ∧
    dirs w1 = dirs w ∧
    rollback (c1, w1) = (Ok v', (c2, w)).
Proof.
  intros Ht Hd.
  unfold perform, rollback, as_object. cbn [fst snd].
  unfold CommandFileWrite.perform, CommandFileWrite.upcall,
    CommandFileWrite.__init__, CommandFileWrite.target_path.
  steps.
  destruct (files w !! target) as [k|] eqn:Hk.
  - destruct (base_perform_backup target d w k Hd Hk) as (p & Hp & Hpt & _ & ->).
    steps. rewrite write_file_ok by done. steps.
    do 5 eexists. split; [done|]. split; [done|].
    unfold CommandFileWrite.rollback, CommandFileWrite.upcall. steps.
    assert (p ≠ target) as Hne by (intros ->; by rewrite Hk in Hp).
    rewrite (base_rollback_restore target p _ k); [|unfold set_files; cbn; by simplify_map_eq|done..].
    steps. do 2 f_equal. f_equal.
    files_by_key. key i target; [close_key|]. key i p; close_key.
  - rewrite (base_perform_nothing target _ w Hk).
    steps. rewrite write_file_ok by done. steps.
    do 5 eexists. split; [done|]. split; [done|].
    unfold CommandFileWrite.rollback, CommandFileWrite.upcall,
      CommandFileWrite.target_path. steps.
    rewrite base_rollback_nothing. steps.
    rewrite (isfile_true target _ contents) by (unfold set_files; cbn; by simplify_map_eq).
    steps. rewrite (os_remove_ok target _ contents) by (unfold set_files; cbn; by simplify_map_eq).
    steps. do 2 f_equal. f_equal.
    files_by_key. key i target; close_key.
Qed.

Lemma delete_roundtrip target w d :
  path_truthy target = true → isdir d w = true →
  ∃ v c1 w1 v' c2,
    perform (Some d) (OfCommandFileDelete (CommandFileDelete.__init__ target), w)
      = (Ok v, (c1, w1)) ∧
    dirs w1 = dirs w ∧
    rollback (c1, w1) = (Ok v', (c2, w)).
Proof.
  intros Ht Hd.
  unfold perform, rollback, as_object. cbn [fst snd].
  unfold CommandFileDelete.perform, CommandFileDelete.upcall,
    CommandFileDelete.__init__, CommandFileDelete.target_path.
  steps.
  destruct (files w !! target) as [k|] eqn:Hk.
  - destruct (base_perform_backup target d w k Hd Hk) as (p & Hp & Hpt & _ & ->).
    assert (p ≠ target) as Hne by (intros ->; by rewrite Hk in Hp).
    steps. rewrite (os_remove_ok target _ k)
      by (unfold set_files; cbn; by simplify_map_eq).
    steps. do 5 eexists. split; [done|]. split; [done|].
    unfold CommandFileDelete.rollback, CommandFileDelete.upcall. steps.
    rewrite (base_rollback_restore target p _ k);
      [|unfold set_files; cbn; by simplify_map_eq|done..].
    steps. do 2 f_equal. f_equal.
    files_by_key. key i target; [close_key|]. key i p; close_key.
  - rewrite (base_perform_nothing target _ w Hk). steps.
    do 5 eexists. split; [done|]. split; [done|].
    unfold CommandFileDelete.rollback, CommandFileDelete.upcall. steps.
    rewrite base_rollback_nothing. by steps.
Qed.

Lemma copy_roundtrip src dst c w d :
  CommandFileCopy.__init__ src dst = Ok c →
  path_truthy dst = true → isdir d w = true →
  ∃ v c1 w1 v' c2,
    perform (Some d) (OfCommandFileCopy c, w) = (Ok v, (c1, w1)) ∧
    dirs w1 = dirs w ∧
    rollback (c1, w1) = (Ok v', (c2, w)).
Proof.
  intros Hc Ht Hd. unfold CommandFileCopy.__init__ in Hc.
  case_decide as Hsd; simplify_eq.
  unfold perform, rollback, as_object. cbn [fst snd].
  unfold CommandFileCopy.perform, CommandFileCopy.upcall. steps.
  destruct (files w !! dst) as [k|] eqn:Hk.
  - destruct (base_perform_backup dst d w k Hd Hk) as (p & Hp & Hpt & _ & ->).
    assert (p ≠ dst) as Hne by (intros ->; by rewrite Hk in Hp).
    steps.
    destruct (path_truthy src) eqn:Hs; cbn [negb orb];
      [destruct (isfile_lookup src (set_files <[p:=k]> w))
         as [[-> (x & Hx)]|[-> _]]|]; cbn [negb].
    + rewrite (shutil_copy_ok src dst _ x) by done. steps.
      do 5 eexists. split; [done|]. split; [done|].
      unfold CommandFileCopy.rollback, CommandFileCopy.upcall. steps.
      rewrite (base_rollback_restore dst p _ k);
        [|unfold set_files; cbn; by simplify_map_eq|done..].
      steps. do 2 f_equal. f_equal.
      files_by_key. key i dst; [close_key|]. key i p; close_key.
    + steps. do 5 eexists. split; [done|]. split; [done|].
      unfold CommandFileCopy.rollback, CommandFileCopy.upcall. steps.
      rewrite (base_rollback_restore dst p _ k);
        [|unfold set_files; cbn; by simplify_map_eq|done..].
      steps. do 2 f_equal. f_equal.
      files_by_key. key i dst; [close_key|]. key i p; close_key.
    + steps. do 5 eexists. split; [done|]. split; [done|].
      unfold CommandFileCopy.rollback, CommandFileCopy.upcall. steps.
      rewrite (base_rollback_restore dst p _ k);
        [|unfold set_files; cbn; by simplify_map_eq|done..].
      steps. do 2 f_equal. f_equal.
      files_by_key. key i dst; [close_key|]. key i p; close_key.
  - rewrite (base_perform_nothing dst _ w Hk). steps.
    destruct (path_truthy src) eqn:Hs; cbn [negb orb];
      [destruct (isfile_lookup src w) as [[-> (x & Hx)]|[-> _]]|]; cbn [negb].
    + rewrite (shutil_copy_ok src dst _ x) by done. steps.
      do 5 eexists. split; [done|]. split; [done|].
      unfold CommandFileCopy.rollback, CommandFileCopy.upcall. steps.
      rewrite base_rollback_nothing. steps. rewrite Ht.
      rewrite (isfile_true dst _ x) by (unfold set_files; cbn; by simplify_map_eq).
      steps. rewrite (os_remove_ok dst _ x)
        by (unfold set_files; cbn; by simplify_map_eq).
      steps. do 2 f_equal. f_equal.
      files_by_key. key i dst; close_key.
    + steps. do 5 eexists. split; [done|]. split; [done|].
      unfold CommandFileCopy.rollback, CommandFileCopy.upcall. steps.
      rewrite base_rollback_nothing. steps.
      rewrite (isfile_false dst _ Hk), Ht. by steps.
    + steps. do 5 eexists. split; [done|]. split; [done|].
      unfold CommandFileCopy.rollback, CommandFileCopy.upcall. steps.
      rewrite base_rollback_nothing. steps.
      rewrite (isfile_false dst _ Hk), Ht. by steps.
Qed.

Lemma move_roundtrip src dst w d :
  path_truthy dst = true → isdir d w = true →
  nothing_moved_onto_a_file
    (OfCommandFileMove (CommandFileMove.__init__ src dst)) w = false →
  ∃ v c1 w1 v' c2,
    perform (Some d) (OfCommandFileMove (CommandFileMove.__init__ src dst), w)
      = (Ok v, (c1, w1)) ∧
    dirs w1 = dirs w ∧
    rollback (c1, w1) = (Ok v', (c2, w)).
Proof.
  intros Ht Hd Hok. cbn in Hok.
  unfold perform, rollback, as_object. cbn [fst snd].
  unfold CommandFileMove.perform, CommandFileMove.upcall,
    CommandFileMove.__init__. steps.
  destruct (files w !! dst) as [k|] eqn:Hk.
  - (* something at the destination: the source is there *)
    rewrite (isfile_true dst w k Hk), andb_true_r in Hok.
    apply negb_false_iff, andb_true_iff in Hok as [Hs Hsrc].
    destruct (isfile_lookup src w) as [[_ (x & Hx)]|[Hno _]];
      [|by rewrite Hno in Hsrc].
    destruct (base_perform_backup dst d w k Hd Hk) as (p & Hp & Hpt & _ & ->).
    assert (p ≠ dst) as Hne by (intros ->; by rewrite Hk in Hp).
    assert (p ≠ src) as Hne' by (intros ->; by rewrite Hx in Hp).
    steps. rewrite Hs. cbn [negb orb].
    rewrite (isfile_true src _ x) by (unfold set_files; cbn; by simplify_map_eq).
    cbn [negb]. destruct (decide (src = dst)) as [->|Hsd].
    + rewrite (shutil_move_same dst _ k)
        by (unfold set_files; cbn; by simplify_map_eq).
      steps. do 5 eexists. split; [done|]. split; [done|].
      unfold CommandFileMove.rollback, CommandFileMove.upcall. steps.
      rewrite Ht, (isfile_true dst _ k)
        by (unfold set_files; cbn; by simplify_map_eq).
      cbn [andb]. rewrite (shutil_move_same dst _ k)
        by (unfold set_files; cbn; by simplify_map_eq).
      steps. rewrite (base_rollback_restore dst p _ k);
        [|unfold set_files; cbn; by simplify_map_eq|done..].
      steps. do 2 f_equal. f_equal.
      files_by_key. key i dst; [close_key|]. key i p; close_key.
    + rewrite (shutil_move_ok src dst _ x);
        [|unfold set_files; cbn; by simplify_map_eq|done..].
      steps. do 5 eexists. split; [done|]. split; [done|].
      unfold CommandFileMove.rollback, CommandFileMove.upcall. steps.
      rewrite Ht, (isfile_true dst _ x)
        by (unfold set_files; cbn; by simplify_map_eq).
      cbn [andb]. rewrite (shutil_move_ok dst src _ x);
        [|unfold set_files; cbn; by simplify_map_eq|done..].
      steps. rewrite (base_rollback_restore dst p _ k);
        [|unfold set_files; cbn; by simplify_map_eq|done..].
      steps. do 2 f_equal. f_equal.
      files_by_key. key i dst; [close_key|]. key i p; [close_key|].
      key i src; close_key.
  - rewrite (base_perform_nothing dst _ w Hk). steps.
    destruct (path_truthy src) eqn:Hs; cbn [negb orb];
      [destruct (isfile_lookup src w) as [[-> (x & Hx)]|[-> _]]|]; cbn [negb].
    + assert (src ≠ dst) as Hsd by (intros ->; by rewrite Hk in Hx).
      rewrite (shutil_move_ok src dst _ x) by done.
      steps. do 5 eexists. split; [done|]. split; [done|].
      unfold CommandFileMove.rollback, CommandFileMove.upcall. steps.
      rewrite Ht, (isfile_true dst _ x)
        by (unfold set_files; cbn; by simplify_map_eq).
      cbn [andb]. rewrite (shutil_move_ok dst src _ x);
        [|unfold set_files; cbn; by simplify_map_eq|done..].
      steps. rewrite base_rollback_nothing. steps. do 2 f_equal. f_equal.
      files_by_key. key i dst; [close_key|]. key i src; close_key.
    + steps. do 5 eexists. split; [done|]. split; [done|].
      unfold CommandFileMove.rollback, CommandFileMove.upcall. steps.
      rewrite (isfile_false dst _ Hk), andb_false_r. steps.
      rewrite base_rollback_nothing. by steps.
    + steps. do 5 eexists. split; [done|]. split; [done|].
      unfold CommandFileMove.rollback, CommandFileMove.upcall. steps.
      rewrite (isfile_false dst _ Hk), andb_false_r. steps.
      rewrite base_rollback_nothing. by steps.
Qed.

(** Every fresh file command, performed and rolled back at once, leaves
    the file system exactly as it found it, staging directory
    included. *)
Lemma command_roundtrip c w d :
  fresh_command c → nothing_moved_onto_a_file c w = false →
  isdir d w = true →
  ∃ v c1 w1 v' c2,
    perform (Some d) (c, w) = (Ok v, (c1, w1)) ∧
    dirs w1 = dirs w ∧
    rollback (c1, w1) = (Ok v', (c2, w)).
Proof.
  intros [target contents Ht|target Ht|src dst c' Hc Ht|src dst Ht] Hok Hd.
  - by apply write_roundtrip.
  - by apply delete_roundtrip.
  - by apply (copy_roundtrip src dst).
  - by apply move_roundtrip.
Qed.
End RoundTrip.


Section RunAndSweep.
Import Transaction TransactionState.
Implicit Types (s : Transaction.t * machine) (cmds : list nat).

Lemma for_each_app {S A} (xs ys : list A) (body : A → Py S pyval) (s : S) :
  for_each (xs ++ ys) body s = (for_each xs body ;; for_each ys body) s.
Proof.
  revert s. induction xs as [|x xs IH]; intros s; simpl; [done|].
  unfold bind. destruct (body x s) as [[v|e] s1]; [|done].
  rewrite IH. done.
Qed.

Lemma perform_command_ok a c s d v c1 w1 :
  in_scope s → temp_dir s.1 = Some d → heap s.2 !! a = Some c →
  perform (Some d) (c, fs s.2) = (Ok v, (c1, w1)) →
  perform_command a s
  = (Ok PyNone,
     (append_command a s.1,
      mkMachine (<[a := c1]> (heap s.2)) w1 (trace s.2 ++ [EvPerform a]))).
Proof.
  intros [Hst _] Hd Ha Hp. unfold perform_command, call. run.
  rewrite Hst. case_decide; [done|]. cbn. rewrite Hd, Ha, Hp. done.
Qed.

Lemma call_rollback_ok a c t m v c2 w2 :
  heap m !! a = Some c → rollback (c, fs m) = (Ok v, (c2, w2)) →
  call (EvRollback a) a rollback (t, m)
  = (Ok v, (t, mkMachine (<[a := c2]> (heap m)) w2 (trace m ++ [EvRollback a]))).
Proof. intros Ha Hr. unfold call. cbn. by rewrite Ha, Hr. Qed.

(** Performing well-behaved commands and sweeping them backwards: the
    file system is back where it started, and no other object was
    touched. *)
Lemma run_then_sweep cmds s :
  in_scope s → NoDup cmds → well_behaved cmds s →
  ∃ s1,
    for_each cmds perform_command s = (Ok tt, s1) ∧
    state s1.1 = state s.1 ∧ temp_dir s1.1 = temp_dir s.1 ∧
    safe s1.1 = safe s.1 ∧
    commands s1.1 = commands s.1 ++ cmds ∧
    ∀ t, ∃ m2,
      for_each (rev cmds) (λ a, call (EvRollback a) a rollback) (t, s1.2)
        = (Ok tt, (t, m2)) ∧
      fs m2 = fs s.2 ∧
      ∀ a, a ∉ cmds → heap m2 !! a = heap s.2 !! a.
Proof.
  revert s. induction cmds as [|a rest IH]; intros s Hin Hnd Hwb.
  - exists s. cbn. rewrite app_nil_r. repeat split; try done.
    intros t. by exists s.2.
  - apply NoDup_cons in Hnd as [Ha Hnd].
    destruct Hwb as [(c & Hc & Hfresh & Hok) Hwb].
    pose proof Hin as [Hst (d & Hd & Hdir)].
    destruct (command_roundtrip c (fs s.2) d Hfresh Hok Hdir)
      as (v & c1 & w1 & v' & c2 & Hp & Hdirs & Hr).
    pose proof (perform_command_ok a c s d v c1 w1 Hin Hd Hc Hp) as Hpc.
    rewrite Hpc in Hwb. cbn [snd] in Hwb.
    set (sa := (append_command a s.1,
                mkMachine (<[a := c1]> (heap s.2)) w1
                  (trace s.2 ++ [EvPerform a]))) in *.
    destruct (IH sa) as (s1 & Hrun & Hst1 & Htd1 & Hsf1 & Hcmds1 & Hsweep);
      [|done|done|].
    { split; [done|]. exists d. split; [done|].
      unfold isdir in *. cbn. by rewrite Hdirs. }
    exists s1. cbn [for_each]. unfold bind at 1. rewrite Hpc.
    split; [done|]. split; [done|]. split; [done|]. split; [done|].
    split; [rewrite Hcmds1; cbn; by rewrite <- app_assoc|].
    intros t. destruct (Hsweep t) as (m2 & Hsw & Hfs & Hheap).
    cbn [rev]. rewrite for_each_app. unfold bind at 1. rewrite Hsw.
    cbn [for_each]. unfold bind at 1.
    rewrite (call_rollback_ok a c1 t m2 v' c2 (fs s.2)).
    + eexists. split; [done|]. split; [done|].
      intros a' Ha'. cbn. apply not_elem_of_cons in Ha' as [Hne Ha'].
      rewrite lookup_insert_ne by done. rewrite (Hheap a' Ha'). cbn.
      by rewrite lookup_insert_ne.
    + rewrite (Hheap a Ha). cbn. by rewrite lookup_insert_eq.
    + by rewrite Hfs.
Qed.

(** An explicit [abort()] after well-behaved commands: the file system is
    exactly what it was when the first command was submitted. *)
Lemma abort_restores_files cmds s :
  in_scope s → commands s.1 = [] → NoDup cmds → well_behaved cmds s →
  ∃ s1 s2,
    perform_commands cmds s = (Ok PyNone, s1) ∧
    safe s1.1 = safe s.1 ∧
    abort s1 = (Ok PyNone, s2) ∧
    state s2.1 = ABORTED ∧
    temp_dir s2.1 = temp_dir s.1 ∧
    fs s2.2 = fs s.2.
Proof.
  intros Hin Hnil Hnd Hwb.
  destruct (run_then_sweep cmds s Hin Hnd Hwb)
    as (s1 & Hrun & Hst & Htd & Hsf & Hcmds & Hsweep).
  destruct (Hsweep (set_state ABORTED s1.1)) as (m2 & Hsw & Hfs & _).
  exists s1, (set_state ABORTED s1.1, m2).
  split; [unfold perform_commands, bind; by rewrite Hrun|].
  split; [done|]. split; [|by repeat split].
  rewrite abort_sweep by (destruct Hin as [Hr _]; by rewrite Hst, Hr).
  rewrite Hcmds, Hnil. cbn [app]. unfold bind. cbn [fst snd].
  by rewrite Hsw.
Qed.

(** The same when the scope is left by the abort signal, or in safe mode
    by any failure but a usage error: the exception is swallowed, the
    transaction is [ABORTED], the staging directory is gone and every
    file outside it is what it was. *)
Lemma failure_restores_files cmds s exc :
  in_scope s → commands s.1 = [] → NoDup cmds → well_behaved cmds s →
  exc ≠ TransactionError →
  safe s.1 = true ∨ exc = TransactionAbortError →
  ∃ s1 s2 d,
    perform_commands cmds s = (Ok PyNone, s1) ∧
    __exit__ (Some exc) s1 = (Ok true, s2) ∧
    state s2.1 = ABORTED ∧
    temp_dir s.1 = Some d ∧
    (d ∉ dirs (fs s2.2)) ∧
    ∀ p, below d p = false → files (fs s2.2) !! p = files (fs s.2) !! p.
Proof.
  intros Hin Hnil Hnd Hwb Hne Hmode.
  destruct (abort_restores_files cmds s Hin Hnil Hnd Hwb)
    as (s1 & s2 & Hrun & Hsf & Hab & Hst & Htd & Hfs).
  pose proof Hin as [_ (d & Hd & Hdir)].
  assert (__exit__ (Some exc) s1 = (abort ;; _cleanup ;; ret true) s1) as Hx.
  { destruct Hmode as [Hsafe| ->]; [|apply exit_abort_signal].
    apply exit_safe_failure; [done|]. by rewrite Hsf. }
  exists s1. rewrite Hx. unfold bind at 1. rewrite Hab. unfold bind.
  unfold _cleanup, os. run. unfold log. cbn [fs heap trace].
  rewrite Htd, Hd, Hfs.
  unfold rmtree. rewrite Hdir. cbn.
  eexists _, d. split; [done|]. split; [done|]. cbn.
  split; [done|]. split; [done|]. split.
  - rewrite elem_of_filter, elem_of_difference, elem_of_singleton.
    intros (_ & _ & Hn). by apply Hn.
  - intros p Hp. destruct (files (fs s.2) !! p) as [x|] eqn:Hx'.
    + by apply map_lookup_filter_Some.
    + apply map_lookup_filter_None. by left.
Qed.

(** The lemma at work: a move and a write to the moved-to path, then a
    failure in safe mode. *)
Lemma failure_restores_files_example :
  let s := Example.running true [] Example.move_then_write in
  ∃ s1 s2,
    perform_commands [0; 1] s = (Ok PyNone, s1) ∧
    files (fs s1.2) !! "A" = None ∧
    files (fs s1.2) !! "B" = Some "x" ∧
    __exit__ (Some (OtherError "boom")) s1 = (Ok true, s2) ∧
    state s2.1 = ABORTED ∧
    files (fs s2.2) !! "A" = Some "a" ∧
    files (fs s2.2) !! "B" = Some "keep".
Proof.
  intros s.
  destruct (failure_restores_files [0; 1] s (OtherError "boom"))
    as (s1 & s2 & d & Hrun & Hx & Hst & Hd & _ & Hfiles).
  - split; [done|]. exists "/tmp/_". by vm_compute.
  - done.
  - apply NoDup_cons. split; [|apply NoDup_singleton].
    intros [=]%list_elem_of_singleton.
  - split; [|split; [|done]].
    + eexists. split; [by vm_compute|].
      split; [by apply (fresh_move "A" "B")|done].
    + eexists. split; [by vm_compute|].
      split; [by apply (fresh_write "B" "x")|done].
  - done.
  - by left.
  - assert (d = "/tmp/_") as -> by (vm_compute in Hd; congruence).
    exists s1, s2.
    assert (s1 = (perform_commands [0; 1] s).2) as Hs1 by (by rewrite Hrun).
    split; [done|]. split; [rewrite Hs1; by vm_compute|].
    split; [rewrite Hs1; by vm_compute|]. split; [done|]. split; [done|].
    split; (rewrite Hfiles; by vm_compute).
Qed.
End RunAndSweep.

(** ** Commands whose source is missing *)

Section MissingSource.
Implicit Types (w : filesystem) (d src dst : string).

(** What the backup of the destination changes: nothing outside the
    staging directory. *)
Lemma base_perform_outside target d w :
  isdir d w = true →
  ∃ v c1 w1,
    _CommandFileBase.perform (Some d) (_CommandFileBase.__init__ target, w)
      = (Ok v, (c1, w1)) ∧
    _CommandFileBase.super c1 = performed ∧
    dirs w1 = dirs w ∧
    (∀ p, below d p = false → files w1 !! p = files w !! p).
Proof.
  intros Hd. destruct (files w !! target) as [k|] eqn:Hk.
  - destruct (base_perform_backup target d w k Hd Hk)
      as (p & Hp & Hpt & Hb & ->).
    do 3 eexists. split; [done|]. split; [done|]. split; [done|].
    intros q Hq. unfold set_files. cbn.
    rewrite lookup_insert_ne; [done|]. intros ->. by rewrite Hb in Hq.
  - rewrite (base_perform_nothing target _ w Hk).
    do 3 eexists. by repeat split.
Qed.

(** A copy whose source is missing: [perform] returns [False], the
    command is [PERFORMED], nothing outside the staging directory has
    changed, and the rollback puts the file system back exactly. *)
Lemma copy_missing_source_noop src dst c w d :
  CommandFileCopy.__init__ src dst = Ok c →
  path_truthy dst = true → isdir d w = true → below d src = false →
  path_truthy src && isfile src w = false →
  ∃ c1 w1 v' c2,
    perform (Some d) (OfCommandFileCopy c, w) = (Ok (PyBool false), (c1, w1)) ∧
    lifecycle c1 = Some performed ∧
    dirs w1 = dirs w ∧
    (∀ p, below d p = false → files w1 !! p = files w !! p) ∧
    rollback (c1, w1) = (Ok v', (c2, w)).
Proof.
  intros Hc Ht Hd Hsrc Hmiss.
  destruct (copy_roundtrip src dst c w d Hc Ht Hd)
    as (v & c1 & w1 & v' & c2 & Hp & Hdirs & Hr).
  exists c1, w1, v', c2.
  unfold CommandFileCopy.__init__ in Hc. case_decide as Hsd; simplify_eq.
  revert Hp. unfold perform, as_object. cbn [fst snd].
  unfold CommandFileCopy.perform, CommandFileCopy.upcall. steps.
  destruct (base_perform_outside dst d w Hd)
    as (v0 & b1 & w0 & -> & Hlife & Hdirs0 & Hout).
  steps.
  assert (path_truthy src && isfile src w0 = false) as Hmiss0.
  { apply andb_false_iff in Hmiss as [->|Hno]; [done|].
    rewrite andb_false_iff. right. unfold isfile in *.
    rewrite (Hout src Hsrc). done. }
  apply andb_false_iff in Hmiss0.
  assert (negb (path_truthy src) || negb (isfile src w0) = true) as ->.
  { destruct Hmiss0 as [-> | ->]; [done|by rewrite orb_true_r]. }
  steps. intros [= <- <- <-].
  unfold CommandFileCopy.set_super. cbn. rewrite Hlife. by repeat split.
Qed.

(** A move whose source is missing: the same for [perform]; the rollback
    puts the file system back when there is nothing at the
    destination. *)
Lemma move_missing_source_perform src dst w d :
  path_truthy dst = true → isdir d w = true → below d src = false →
  path_truthy src && isfile src w = false →
  ∃ c1 w1,
    perform (Some d) (OfCommandFileMove (CommandFileMove.__init__ src dst), w)
      = (Ok (PyBool false), (c1, w1)) ∧
    lifecycle c1 = Some performed ∧
    dirs w1 = dirs w ∧
    (∀ p, below d p = false → files w1 !! p = files w !! p) ∧
    (isfile dst w = false → ∃ v' c2, rollback (c1, w1) = (Ok v', (c2, w))).
Proof.
  intros Ht Hd Hsrc Hmiss.
  unfold perform, as_object. cbn [fst snd].
  unfold CommandFileMove.perform, CommandFileMove.upcall,
    CommandFileMove.__init__. steps.
  destruct (base_perform_outside dst d w Hd)
    as (v0 & b1 & w0 & Hb & Hlife & Hdirs0 & Hout).
  rewrite Hb. steps.
  assert (path_truthy src && isfile src w0 = false) as Hmiss0.
  { apply andb_false_iff in Hmiss as [->|Hno]; [done|].
    rewrite andb_false_iff. right. unfold isfile in *.
    rewrite (Hout src Hsrc). done. }
  apply andb_false_iff in Hmiss0.
  assert (negb (path_truthy src) || negb (isfile src w0) = true) as ->.
  { destruct Hmiss0 as [-> | ->]; [done|by rewrite orb_true_r]. }
  steps. do 2 eexists. split; [done|].
  unfold CommandFileMove.set_super. cbn. rewrite Hlife. split; [done|].
  split; [done|]. split; [done|]. intros Hdst.
  destruct (move_roundtrip src dst w d Ht Hd)
    as (v & c1 & w1 & v' & c2 & Hp & _ & Hr).
  { cbn. by rewrite Hdst, andb_false_r. }
  revert Hp. unfold perform, as_object. cbn [fst snd].
  unfold CommandFileMove.perform, CommandFileMove.upcall,
    CommandFileMove.__init__. steps. rewrite Hb. steps.
  assert (negb (path_truthy src) || negb (isfile src w0) = true) as ->.
  { destruct Hmiss0 as [-> | ->]; [done|by rewrite orb_true_r]. }
  steps. intros [= <- <- <-]. eauto.
Qed.
End MissingSource.

(** ** Rollback of a move that did nothing *)

(** C7 at a move whose source [A] is missing while the destination [B]
    exists with content "keep".  [perform] returns [False] without
    raising, the command is [PERFORMED], and outside the staging
    directory nothing has changed.  The rollback, however, finds [B] in
    place, takes that for the moved file and moves it to [A] before the
    backup is put back: afterwards [A] exists, with the content of [B].
    This is the one case left open by [copy_missing_source_noop] and
    [move_missing_source_perform]. *)
Theorem move_missing_source_rollback_creates_source :
  let w := mkFs {[ "B" := "keep" ]} {[ "/tmp/_" ]} in
  let cmd := OfCommandFileMove (CommandFileMove.__init__ "A" "B") in
  let done := perform (Some "/tmp/_") (cmd, w) in
  let undone := rollback done.2 in
  done.1 = Ok (PyBool false) ∧
  lifecycle done.2.1 = Some performed ∧
  files done.2.2 !! "A" = None ∧
  files done.2.2 !! "B" = Some "keep" ∧
  undone.1 = Ok PyNone ∧
  files undone.2.2 !! "A" = Some "keep" ∧
  files undone.2.2 !! "B" = Some "keep" ∧
  files undone.2.2 ≠ files w.
Proof.
  simpl. repeat split; by vm_compute.
Qed.

(** ** Abort of a transaction *)

(** C1 at two transactions in safe mode.  In the first, one write command
    for [target.txt] (content "old") is submitted twice: the second
    [perform] raises the lifecycle error and sets the failed-before-
    perform mark on the one object the history holds twice, so both
    rollback calls return at once; the transaction ends [ABORTED] and
    [target.txt] holds "new".  In the second, a move of the missing [A] to
    the existing [B] is followed by the abort command: the transaction
    ends [ABORTED] and [A] has come into existence.  These are the two
    ways out of [failure_restores_files]: a command that is not fresh when
    its turn comes, and a move that did nothing onto an existing file. *)
Theorem abort_leaves_files_changed :
  let first := Transaction.execute [0; 0] None false true Example.one_write in
  let second := Transaction.execute [0; 1] None false true Example.move_missing_source in
  (files (fs Example.one_write) !! "target.txt" = Some "old" ∧
   first.1 = Ok false ∧
   Transaction.state first.2.1 = TransactionState.ABORTED ∧
   trace first.2.2
     = [EvPerform 0; EvPerform 0; EvRollback 0; EvRollback 0;
        EvRmtree (Some "/tmp/_")] ∧
   files (fs first.2.2) !! "target.txt" = Some "new") ∧
  (files (fs Example.move_missing_source) !! "A" = None ∧
   second.1 = Ok false ∧
   Transaction.state second.2.1 = TransactionState.ABORTED ∧
   files (fs second.2.2) !! "A" = Some "keep" ∧
   files (fs second.2.2) !! "B" = Some "keep").
Proof. simpl. repeat split; by vm_compute. Qed.

(** A run in which the rollback does its work: [target.txt] holds "old",
    a safe transaction writes "new" and then a command fails for a reason
    of its own.  The transaction ends [ABORTED], the file holds "old"
    again and the staging directory is gone. *)
Lemma scenario_write_then_failure :
  let out := Transaction.execute [0; 1] None false true Example.write_then_failure in
  out.1 = Ok false ∧
  Transaction.state out.2.1 = TransactionState.ABORTED ∧
  files (fs out.2.2) = {[ "target.txt" := "old" ]} ∧
  dirs (fs out.2.2) = ∅.
Proof. simpl. repeat split; by vm_compute. Qed.

(** * Further properties *)

(** ** A command under any sequence of calls *)

(** Case analysis on what a method goes through, innermost first. *)
Ltac plain x :=
  lazymatch x with
  | context [let (_, _) := _ in _] => fail
  | context [if _ then _ else _] => fail
  | context [match _ with Ok _ => _ | Raise _ => _ end] => fail
  | _ => idtac
  end.
Ltac crunch :=
  repeat first
    [ progress cbn
    | match goal with
      | |- context [let (_, _) := ?x in _] => plain x; destruct x
      | |- context [match ?x with Ok _ => _ | Raise _ => _ end] => plain x; destruct x
      | |- context [if ?x then _ else _] => plain x; destruct x
      end ].

Section LifecycleTracking.
Implicit Types (c : command) (b : CommandBase.t) (w : filesystem).

Lemma lifecycle_step mth c b w :
  lifecycle c = Some b →
  lifecycle (invoke mth (c, w)).2.1 = Some (base_invoke mth b).2.
Proof.
  intros Hb.
  destruct c as [[b0 f g h]|c|[[b0 t tc] x]|[[b0 t tc]]|[[b0 t tc] x y]|[[b0 t tc] x y]];
    cbn in Hb; simplify_eq.
  all: destruct mth; cbn [invoke base_invoke].
  all: unfold_class; cbn.
  all: try rewrite rollback_keeps_object.
  all: try (destruct (CommandBase.perform b) as [[v|e] b']; cbn; [|done]).
  all: try (destruct (CommandBase.commit b) as [[v|e] b']; cbn; [|done]).
  all: generalize (rollback_keeps_object b); crunch; cbn; congruence.
Qed.

Lemma lifecycle_none_step mth c w :
  lifecycle c = None →
  lifecycle (invoke mth (c, w)).2.1 = None ∧
  (is_perform mth = true → is_ok (invoke mth (c, w)).1 = false).
Proof.
  intros Hb. destruct c as [c|c|c|c|c|c]; cbn in Hb; simplify_eq.
  by destruct mth.
Qed.

Lemma base_left_init mth b :
  CommandBase._state b ≠ CommandState.INIT →
  CommandBase._state (base_invoke mth b).2 ≠ CommandState.INIT.
Proof.
  intros Hs. destruct mth; cbn [base_invoke].
  - by rewrite perform_illegal.
  - by rewrite rollback_keeps_object.
  - destruct (decide (CommandBase._state b = CommandState.PERFORMED)) as [Hp|Hp].
    + by rewrite commit_performed.
    + by rewrite commit_illegal.
Qed.

Lemma base_perform_leaves_init dir b :
  CommandBase._state (base_invoke (DoPerform dir) b).2 ≠ CommandState.INIT.
Proof.
  cbn [base_invoke].
  destruct (decide (CommandBase._state b = CommandState.INIT)) as [Hp|Hp].
  - by rewrite perform_from_init.
  - by rewrite perform_illegal.
Qed.

Lemma base_committed mth b :
  CommandBase._state b = CommandState.COMMITTED →
  CommandBase._state (base_invoke mth b).2 = CommandState.COMMITTED.
Proof.
  intros Hs. destruct mth; cbn [base_invoke].
  - by rewrite perform_illegal by (by rewrite Hs).
  - by rewrite rollback_keeps_object.
  - by rewrite commit_illegal by (by rewrite Hs).
Qed.

(** A [perform] on a command that has left its initial state: the
    lifecycle error, no change to any file, and the mark is set. *)
Lemma perform_illegal_dispatch dir c b w :
  lifecycle c = Some b → CommandBase._state b ≠ CommandState.INIT →
  ∃ c', perform dir (c, w) = (Raise CommandError, (c', w)) ∧
        lifecycle c' = Some (CommandBase.mk (CommandBase._state b) true).
Proof.
  intros Hb Hs.
  destruct c as [[b0 f g h]|c|[[b0 t tc] x]|[[b0 t tc]]|[[b0 t tc] x y]|[[b0 t tc] x y]];
    cbn in Hb; simplify_eq.
  all: unfold_class; cbn; rewrite (perform_illegal _ Hs); cbn.
  all: by eexists.
Qed.

Lemma commit_ok_was_performed c b w :
  lifecycle c = Some b → is_ok (commit (c, w)).1 = true →
  CommandBase._state b = CommandState.PERFORMED.
Proof.
  intros Hb Hok.
  destruct (decide (CommandBase._state b = CommandState.PERFORMED)) as [|Hn]; [done|].
  by rewrite (commit_illegal_dispatch c b w Hb Hn) in Hok.
Qed.

Lemma no_more_performs calls c w :
  (match lifecycle c with
   | Some b => CommandBase._state b ≠ CommandState.INIT
   | None => True
   end) →
  successful is_perform calls (invoke_all calls (c, w)).1 = 0.
Proof.
  revert c w. induction calls as [|mth calls IH]; intros c w Hc; [done|].
  cbn [invoke_all].
  destruct (invoke mth (c, w)) as [r [c' w']] eqn:Hi.
  specialize (IH c' w').
  destruct (invoke_all calls (c', w')) as [rs s''] eqn:Hrest. cbn in *.
  assert (is_perform mth && is_ok r = false) as ->.
  { destruct (lifecycle c) as [b|] eqn:Hb.
    - destruct mth as [dir| |]; [|done..]. cbn in Hi.
      destruct (perform_illegal_dispatch dir c b w Hb Hc) as (c0 & Hp & _).
      rewrite Hp in Hi. by simplify_eq.
    - destruct (lifecycle_none_step mth c w Hb) as [_ Hp].
      rewrite Hi in Hp. cbn [fst snd] in Hp.
      destruct (is_perform mth); [|done]. by rewrite Hp. }
  apply IH.
  destruct (lifecycle c) as [b|] eqn:Hb.
  - pose proof (lifecycle_step mth c b w Hb) as Hl. rewrite Hi in Hl.
    cbn in Hl. rewrite Hl. by apply base_left_init.
  - destruct (lifecycle_none_step mth c w Hb) as [Hl _]. rewrite Hi in Hl.
    cbn in Hl. by rewrite Hl.
Qed.

Lemma no_more_commits calls c b w :
  lifecycle c = Some b → CommandBase._state b = CommandState.COMMITTED →
  successful is_commit calls (invoke_all calls (c, w)).1 = 0.
Proof.
  revert c b w. induction calls as [|mth calls IH]; intros c b w Hb Hs; [done|].
  cbn [invoke_all].
  destruct (invoke mth (c, w)) as [r [c' w']] eqn:Hi.
  pose proof (lifecycle_step mth c b w Hb) as Hl. rewrite Hi in Hl. cbn in Hl.
  specialize (IH c' _ w' Hl).
  destruct (invoke_all calls (c', w')) as [rs s''] eqn:Hrest. cbn in *.
  assert (is_commit mth && is_ok r = false) as ->.
  { destruct mth; [done|done|]. cbn in Hi.
    rewrite (commit_illegal_dispatch c b w Hb) in Hi by (by rewrite Hs).
    by simplify_eq. }
  apply IH. by apply base_committed.
Qed.
End LifecycleTracking.

(** X1.  The lifecycle attributes of a command change exactly as the method
    of [CommandBase] of the same name changes them, whatever the class of
    the command, whatever the file system holds and whether or not the
    rest of the method raises. *)
Theorem lifecycle_follows_base (mth : method) (c : command)
    (b : CommandBase.t) (w : filesystem) :
  lifecycle c = Some b →
  lifecycle (invoke mth (c, w)).2.1 = Some (base_invoke mth b).2.
Proof. apply lifecycle_step. Qed.

(** X2.  Over any run of method calls on one command, at most one
    [perform] returns without raising; when the command has a lifecycle,
    at most one [commit] does. *)
Theorem perform_and_commit_at_most_once (calls : list method)
    (c : command) (w : filesystem) :
  successful is_perform calls (invoke_all calls (c, w)).1 ≤ 1 ∧
  (is_Some (lifecycle c) →
   successful is_commit calls (invoke_all calls (c, w)).1 ≤ 1).
Proof.
  split.
  - revert c w. induction calls as [|mth calls IH]; intros c w; [cbn; lia|].
    cbn [invoke_all].
    destruct (invoke mth (c, w)) as [r [c' w']] eqn:Hi.
    specialize (IH c' w').
    destruct (is_perform mth) eqn:Hm.
    + pose proof (no_more_performs calls c' w') as Hz.
      destruct (invoke_all calls (c', w')) as [rs s''] eqn:Hrest.
      cbn in *. rewrite Hm. rewrite Hz; [destruct (is_ok r); cbn; lia|].
      destruct mth as [dir| |]; [|done..].
      destruct (lifecycle c) as [b|] eqn:Hb.
      * pose proof (lifecycle_step (DoPerform dir) c b w Hb) as Hl.
        rewrite Hi in Hl. cbn [fst snd] in Hl. rewrite Hl.
        apply base_perform_leaves_init.
      * destruct (lifecycle_none_step (DoPerform dir) c w Hb) as [Hl _].
        rewrite Hi in Hl. cbn [fst snd] in Hl. by rewrite Hl.
    + destruct (invoke_all calls (c', w')) as [rs s''] eqn:Hrest.
      cbn in *. by rewrite Hm.
  - intros [b Hb]. revert c b w Hb.
    induction calls as [|mth calls IH]; intros c b w Hb; [cbn; lia|].
    cbn [invoke_all].
    destruct (invoke mth (c, w)) as [r [c' w']] eqn:Hi.
    pose proof (lifecycle_step mth c b w Hb) as Hl. rewrite Hi in Hl.
    cbn [fst snd] in Hl.
    specialize (IH c' _ w' Hl).
    destruct (is_commit mth && is_ok r) eqn:Hm.
    + apply andb_true_iff in Hm as [Hm Hok].
      destruct mth; [done|done|]. cbn in Hi.
      assert (CommandBase._state b = CommandState.PERFORMED) as Hp.
      { apply (commit_ok_was_performed c b w Hb). by rewrite Hi. }
      pose proof (no_more_commits calls c' _ w' Hl) as Hz.
      destruct (invoke_all calls (c', w')) as [rs s''] eqn:Hrest.
      cbn in *. rewrite Hok. cbn. rewrite Hz; [lia|].
      by rewrite commit_performed.
    + destruct (invoke_all calls (c', w')) as [rs s''] eqn:Hrest.
      cbn in *. rewrite Hm. cbn. lia.
Qed.

(** X3.  A [perform] on a command that is no longer in its initial state
    raises the lifecycle error before anything else happens: no file
    changes, and the command keeps its state and gets the failed-before-
    perform mark.  This holds for every class with a lifecycle. *)
Theorem second_perform_raises (dir : option string) (c : command)
    (b : CommandBase.t) (w : filesystem) :
  lifecycle c = Some b → CommandBase._state b ≠ CommandState.INIT →
  ∃ c', perform dir (c, w) = (Raise CommandError, (c', w)) ∧
        lifecycle c' = Some (CommandBase.mk (CommandBase._state b) true).
Proof. apply perform_illegal_dispatch. Qed.

(** A write command whose file operation fails (the staging directory is
    missing) is [PERFORMED] all the same. *)
Lemma lifecycle_follows_base_witness :
  let c := OfCommandFileWrite (CommandFileWrite.__init__ "target.txt" "new") in
  let w := mkFs {[ "target.txt" := "old" ]} ∅ in
  (perform (Some "/tmp/_") (c, w)).1 = Raise FileNotFoundError ∧
  lifecycle (perform (Some "/tmp/_") (c, w)).2.1 = Some performed.
Proof.
  intros c w. split; [by vm_compute|].
  apply (lifecycle_follows_base (DoPerform (Some "/tmp/_")) c CommandBase.__init__ w).
  reflexivity.
Defined.

(** Two performs and two commits on a write command: one of each goes
    through. *)
Lemma perform_and_commit_at_most_once_witness :
  let c := OfCommandFileWrite (CommandFileWrite.__init__ "target.txt" "new") in
  let w := mkFs {[ "target.txt" := "old" ]} {[ "/tmp/_" ]} in
  let calls := [DoPerform (Some "/tmp/_"); DoPerform (Some "/tmp/_");
                DoCommit; DoCommit] in
  (invoke_all calls (c, w)).1
    = [Ok PyNone; Raise CommandError; Ok PyNone; Raise CommandError] ∧
  successful is_perform calls (invoke_all calls (c, w)).1 ≤ 1 ∧
  successful is_commit calls (invoke_all calls (c, w)).1 ≤ 1.
Proof.
  intros c w calls.
  destruct (perform_and_commit_at_most_once calls c w) as [Hp Hc].
  split; [by vm_compute|]. split; [exact Hp|].
  apply Hc. by exists CommandBase.__init__.
Defined.

(** A second [perform] on a write command that has been performed. *)
Lemma second_perform_raises_witness :
  let c := OfCommandFileWrite
             (CommandFileWrite.mk
                (_CommandFileBase.mk performed "target.txt" None) "new") in
  let w := mkFs {[ "target.txt" := "new" ]} {[ "/tmp/_" ]} in
  ∃ c', perform (Some "/tmp/_") (c, w) = (Raise CommandError, (c', w)) ∧
        lifecycle c' = Some (CommandBase.mk CommandState.PERFORMED true).
Proof.
  intros c w.
  apply (second_perform_raises (Some "/tmp/_") c performed w); [reflexivity|].
  discriminate.
Defined.

(** ** The states of the engine *)

Section EngineStates.
Import Transaction TransactionState.
Implicit Types (s : Transaction.t * machine) (cmds : list nat).

Lemma enter_fresh s :
  state s.1 = INIT ∨ state s.1 = RUNNING →
  ∃ d, (d ∉ names (fs s.2)) ∧
    __enter__ s
    = (Ok tt,
       (set_state RUNNING (set_temp_dir (Some d) s.1),
        mkMachine (heap s.2)
          (mkFs (files (fs s.2)) ({[d]} ∪ dirs (fs s.2))) (trace s.2))).
Proof.
  intros Hst. exists (fresh_string_of_set ("/tmp/" +:+ "_") (names (fs s.2))).
  split; [apply fresh_string_of_set_fresh|].
  unfold __enter__, os, mkdtemp. run.
  destruct Hst as [-> | ->].
  all: case_decide as H1; [done|]; case_decide as H2; [by destruct H2|].
  all: cbn; unfold isdir; cbn.
  all: rewrite bool_decide_eq_true_2; [done|].
  all: by apply elem_of_union_l, elem_of_singleton.
Qed.

Lemma perform_command_not_running a s :
  state s.1 ≠ RUNNING → perform_command a s = (Raise TransactionError, s).
Proof. intros Hst. unfold perform_command. run. by case_decide. Qed.

Lemma perform_command_self a s :
  state s.1 = RUNNING →
  (perform_command a s).2.1 = append_command a s.1 ∧
  trace (perform_command a s).2.2 = trace s.2 ++ [EvPerform a].
Proof.
  intros Hst. unfold perform_command. run. rewrite Hst.
  case_decide; [done|]. cbn [fst snd].
  pose proof (call_frame (EvPerform a) a
                (perform (temp_dir (append_command a s.1)))
                (append_command a s.1, s.2)) as [Hself Htr].
  destruct (call _ _ _ _) as [[v|e] s1]; cbn [fst snd] in *; by rewrite Hself.
Qed.

Lemma for_each_perform cmds s :
  state s.1 = RUNNING →
  ∃ done,
    done `prefix_of` cmds ∧
    state (for_each cmds perform_command s).2.1 = RUNNING ∧
    temp_dir (for_each cmds perform_command s).2.1 = temp_dir s.1 ∧
    commands (for_each cmds perform_command s).2.1 = commands s.1 ++ done ∧
    trace (for_each cmds perform_command s).2.2
      = trace s.2 ++ (EvPerform <$> done) ∧
    (is_ok (for_each cmds perform_command s).1 = true → done = cmds) ∧
    (is_ok (for_each cmds perform_command s).1 = false →
     ∃ done' a rest, done = done' ++ [a] ∧ cmds = done ++ rest).
Proof.
  revert s. induction cmds as [|a cmds IH]; intros s Hst.
  - exists []. cbn. rewrite !app_nil_r. by repeat split.
  - cbn [for_each]. unfold bind.
    destruct (perform_command_self a s Hst) as [Hself Htr].
    destruct (perform_command a s) as [[v|e] s1]; cbn [fst snd] in *.
    + destruct (IH s1) as (done & Hpre & Hs & Htd & Hc & Ht & Hok & Hfail).
      { by rewrite Hself. }
      exists (a :: done). split; [by apply prefix_cons|].
      split; [done|]. split; [by rewrite Htd, Hself|].
      split; [rewrite Hc, Hself; cbn; by rewrite <- app_assoc|].
      split; [rewrite Ht, Htr; by rewrite <- app_assoc|].
      split; [intros H; f_equal; by apply Hok|].
      intros H. destruct (Hfail H) as (done' & x & rest & -> & ->).
      by exists (a :: done'), x, rest.
    + exists [a]. split; [by apply prefix_cons, prefix_nil|].
      rewrite Hself. cbn. repeat split; try done.
      intros _. by exists [], a, cmds.
Qed.

Lemma forward_calls_app (m m' : machine) (evs : list event) :
  (∀ ev, ev ∈ evs → is_forward ev = false) →
  trace m' = trace m ++ evs → forward_calls m' = forward_calls m.
Proof.
  intros Hev Htr. unfold forward_calls. rewrite Htr, filter_app, length_app.
  assert (filter (λ e, is_forward e = true) evs = []) as ->; [|cbn; lia].
  clear Htr. induction evs as [|ev evs IH]; [done|].
  rewrite filter_cons_False.
  - apply IH. intros e He. apply Hev. by right.
  - rewrite Hev; [done|by left].
Qed.

Lemma abort_finished s :
  finished s →
  finished (abort s).2 ∧
  commands (abort s).2.1 = commands s.1 ∧
  forward_calls (abort s).2.2 = forward_calls s.2.
Proof.
  intros Hfin.
  destruct (decide (state s.1 = ABORTED)) as [Ha|Ha].
  { rewrite (abort_twice _ Ha). by repeat split. }
  destruct (abort_frame s Ha) as [Hself (calls & _ & Htr & _)].
  unfold finished. rewrite Hself. split; [by right|]. split; [done|].
  apply (forward_calls_app _ _ (EvRollback <$> calls)); [|done].
  intros ev (a & -> & _)%list_elem_of_fmap. done.
Qed.

Lemma cleanup_finished s :
  finished s →
  finished (_cleanup s).2 ∧
  commands (_cleanup s).2.1 = commands s.1 ∧
  forward_calls (_cleanup s).2.2 = forward_calls s.2.
Proof.
  intros Hfin. destruct (cleanup_trace s) as [Hself Htr].
  unfold finished. rewrite Hself. split; [done|]. split; [done|].
  apply (forward_calls_app _ _ [EvRmtree (temp_dir s.1)]); [|done].
  by intros ev ->%list_elem_of_singleton.
Qed.

Lemma exit_none_done s :
  state s.1 = DONE → __exit__ None s = (Ok true, s).
Proof.
  intros Hst. unfold __exit__. unfold bind at 1. unfold attr, gets.
  cbn [fst snd]. rewrite Hst. by repeat (case_decide; [done|]).
Qed.

Lemma exit_none_aborted s :
  state s.1 = ABORTED → __exit__ None s = (_cleanup ;; ret true) s.
Proof.
  intros Hst. unfold __exit__. unfold bind at 1. unfold attr, gets.
  cbn [fst snd]. rewrite Hst. by case_decide.
Qed.

Lemma exit_none_running s :
  state s.1 = RUNNING →
  __exit__ None s
  = (_commit ;; setattr (set_state DONE) ;; _cleanup ;; ret true) s.
Proof.
  intros Hst. unfold __exit__. unfold bind at 1. unfold attr, gets.
  cbn [fst snd]. rewrite Hst. by repeat (case_decide; [done|]).
Qed.

Lemma exit_finished exc s :
  finished s →
  finished (__exit__ exc s).2 ∧
  commands (__exit__ exc s).2.1 = commands s.1 ∧
  forward_calls (__exit__ exc s).2.2 = forward_calls s.2.
Proof.
  intros Hfin.
  assert (finished ((abort ;; _cleanup ;; ret true) s).2 ∧
          commands ((abort ;; _cleanup ;; ret true) s).2.1 = commands s.1 ∧
          forward_calls ((abort ;; _cleanup ;; ret true) s).2.2
            = forward_calls s.2) as Hboth.
  { unfold bind. destruct (abort_finished s Hfin) as (Hf & Hc & Hn).
    destruct (abort s) as [[v|e] s1]; cbn [fst snd] in *; [|done].
    destruct (cleanup_finished s1 Hf) as (Hf' & Hc' & Hn').
    destruct (_cleanup s1) as [[v'|e] s2]; cbn [fst snd] in *;
      by rewrite <- Hc, <- Hn. }
  destruct exc as [e|].
  - destruct (decide (e = TransactionError)) as [->|Hne].
    { by rewrite exit_usage_error. }
    destruct (safe s.1) eqn:Hsafe.
    + by rewrite (exit_safe_failure _ _ Hne Hsafe).
    + destruct (decide (e = TransactionAbortError)) as [->|Hna].
      * by rewrite exit_abort_signal.
      * by rewrite (exit_unsafe_failure _ _ Hne Hna Hsafe).
  - destruct Hfin as [Hst|Hst].
    + rewrite (exit_none_done _ Hst). by repeat split; try left.
    + rewrite (exit_none_aborted _ Hst). unfold bind.
      destruct (cleanup_finished s) as (Hf' & Hc' & Hn'); [by right|].
      by destruct (_cleanup s) as [[v'|e] s2].
Qed.

Lemma end_state s : (end_ s).2 = (__exit__ None s).2.
Proof.
  unfold end_. run.
  destruct (__exit__ None s) as [[b|e] s']; cbn; [done|].
  by case_decide.
Qed.

Lemma start_state s : (start s).2 = (__enter__ s).2.
Proof.
  unfold start. run.
  destruct (__enter__ s) as [[b|e] s']; cbn; [done|].
  by case_decide.
Qed.

Lemma enter_finished s :
  finished s → __enter__ s = (Raise TransactionError, s).
Proof.
  intros Hfin. unfold __enter__. run.
  case_decide as H1; [done|]. case_decide as H2; [done|].
  by destruct H2.
Qed.

Lemma finished_not_running s : finished s → state s.1 ≠ RUNNING.
Proof. intros [H|H]; by rewrite H. Qed.

Lemma perform_commands_not_running cmds s :
  state s.1 ≠ RUNNING → (perform_commands cmds s).2 = s.
Proof.
  intros Hst. unfold perform_commands, bind.
  destruct cmds as [|a cmds]; [done|]. cbn [for_each]. unfold bind.
  by rewrite (perform_command_not_running a s Hst).
Qed.

Lemma tx_after_finished mth s :
  finished s →
  finished (tx_after mth s) ∧
  commands (tx_after mth s).1 = commands s.1 ∧
  forward_calls (tx_after mth s).2 = forward_calls s.2.
Proof.
  intros Hfin. destruct mth; cbn [tx_after].
  - by rewrite start_state, (enter_finished _ Hfin).
  - by rewrite (enter_finished _ Hfin).
  - by rewrite perform_command_not_running by (by apply finished_not_running).
  - by rewrite perform_commands_not_running by (by apply finished_not_running).
  - by apply abort_finished.
  - rewrite end_state. by apply exit_finished.
  - by apply exit_finished.
Qed.
End EngineStates.

(** X4.  Entering the scope of a transaction that is in its initial state,
    or already running, succeeds: the transaction is [RUNNING] and owns a
    staging directory that exists now and was the name of nothing before.
    Files, the other directories, the history and the command objects are
    untouched; in particular, on a second entry the earlier staging
    directory stays where it is and is no longer referred to. *)
Theorem scope_entry_creates_staging_dir (s : Transaction.t * machine) :
  Transaction.state s.1 = TransactionState.INIT ∨
  Transaction.state s.1 = TransactionState.RUNNING →
  ∃ d s',
    Transaction.__enter__ s = (Ok tt, s') ∧
    in_scope s' ∧
    Transaction.temp_dir s'.1 = Some d ∧
    (d ∉ names (fs s.2)) ∧
    dirs (fs s'.2) = {[d]} ∪ dirs (fs s.2) ∧
    files (fs s'.2) = files (fs s.2) ∧
    Transaction.commands s'.1 = Transaction.commands s.1 ∧
    Transaction.safe s'.1 = Transaction.safe s.1 ∧
    heap s'.2 = heap s.2 ∧
    trace s'.2 = trace s.2.
Proof.
  intros Hst. destruct (enter_fresh s Hst) as (d & Hnew & Heq).
  eexists d, _. split; [exact Heq|]. cbn.
  split; [|by repeat split].
  split; [done|]. exists d. split; [done|]. unfold isdir. cbn.
  apply bool_decide_eq_true_2. by apply elem_of_union_l, elem_of_singleton.
Qed.

Lemma scope_entry_creates_staging_dir_witness :
  let s := (Transaction.__init__ None false true, Example.one_write) in
  ∃ s', Transaction.__enter__ s = (Ok tt, s') ∧
        Transaction.temp_dir s'.1 = Some "/tmp/_" ∧
        dirs (fs s'.2) = {[ "/tmp/_" ]} ∧
        files (fs s'.2) = files (fs s.2).
Proof.
  intros s.
  destruct (scope_entry_creates_staging_dir s)
    as (d & s' & He & _ & Hd & _ & Hdirs & Hfiles & _); [by left|].
  exists s'. split; [exact He|].
  assert (s' = (Transaction.__enter__ s).2) as -> by (by rewrite He).
  split; [by vm_compute|]. split; [by vm_compute|]. exact Hfiles.
Defined.

(** X5.  [perform_commands] submits the commands in order and stops at the
    first one whose [perform] raises.  While the transaction runs, the
    commands submitted so far, the failing one included and last, are
    appended to the history, and those after it are neither recorded nor
    performed.  On a transaction that is not running, a non-empty list
    raises the usage error and changes nothing, and the empty list
    returns without any error. *)
Theorem perform_commands_stops_at_first_failure
    (cmds : list nat) (s : Transaction.t * machine) :
  (Transaction.state s.1 = TransactionState.RUNNING →
   ∃ done,
     done `prefix_of` cmds ∧
     Transaction.commands (Transaction.perform_commands cmds s).2.1
       = Transaction.commands s.1 ++ done ∧
     trace (Transaction.perform_commands cmds s).2.2
       = trace s.2 ++ (EvPerform <$> done) ∧
     (is_ok (Transaction.perform_commands cmds s).1 = true → done = cmds) ∧
     (is_ok (Transaction.perform_commands cmds s).1 = false →
      ∃ done' a rest, done = done' ++ [a] ∧ cmds = done ++ rest)) ∧
  (Transaction.state s.1 ≠ TransactionState.RUNNING →
   Transaction.perform_commands cmds s
   = (match cmds with [] => Ok PyNone | _ :: _ => Raise TransactionError end, s)).
Proof.
  split; intros Hst.
  - destruct (for_each_perform cmds s Hst)
      as (done & Hpre & _ & _ & Hc & Ht & Hok & Hfail).
    exists done. unfold Transaction.perform_commands, bind.
    destruct (for_each cmds Transaction.perform_command s) as [[[]|e] s1];
      cbn [fst snd] in *; by repeat split.
  - unfold Transaction.perform_commands, bind.
    destruct cmds as [|a cmds]; [done|]. cbn [for_each]. unfold bind.
    by rewrite (perform_command_not_running a s Hst).
Qed.

(** The abort command in the middle of a list: the write before it and
    the abort command itself are in the history, the write after it is
    not. *)
Lemma perform_commands_stops_at_first_failure_witness :
  let s := Example.running true [] Example.move_then_write in
  let out := Transaction.perform_commands [0; 2; 1] s in
  out.1 = Raise TransactionAbortError ∧
  Transaction.commands out.2.1 = [0; 2] ∧
  trace out.2.2 = [EvPerform 0; EvPerform 2] ∧
  Transaction.perform_commands [0]
    (Transaction.__init__ None false true, Example.move_then_write)
  = (Raise TransactionError,
     (Transaction.__init__ None false true, Example.move_then_write)).
Proof.
  intros s out.
  destruct (perform_commands_stops_at_first_failure [0; 2; 1] s) as [H _].
  destruct H as (done & _ & Hc & Ht & _ & Hfail); [by vm_compute|].
  destruct (perform_commands_stops_at_first_failure [0]
              (Transaction.__init__ None false true, Example.move_then_write))
    as [_ H'].
  split; [by vm_compute|]. split; [by vm_compute|]. split; [by vm_compute|].
  apply H'. by vm_compute.
Defined.

(** X6.  A transaction that is [DONE] or [ABORTED] stays so, whatever
    methods are called on it afterwards and in whatever order: it never
    runs again, its history never changes, and the engine never again
    calls [perform] or [commit] on a command. *)
Theorem finished_transaction_stays_finished
    (calls : list tx_method) (s : Transaction.t * machine) :
  finished s →
  finished (tx_after_all calls s) ∧
  Transaction.commands (tx_after_all calls s).1 = Transaction.commands s.1 ∧
  forward_calls (tx_after_all calls s).2 = forward_calls s.2.
Proof.
  revert s. induction calls as [|mth calls IH]; intros s Hfin; [done|].
  cbn. destruct (tx_after_finished mth s Hfin) as (Hf & Hc & Hn).
  destruct (IH _ Hf) as (Hf' & Hc' & Hn').
  unfold tx_after_all in *. by rewrite Hc', Hn'.
Qed.

Lemma finished_transaction_stays_finished_witness :
  let s := (Transaction.execute [0] None false true Example.one_write).2 in
  let s' := tx_after_all
              [TxStart; TxPerform 0; TxAbort; TxEnd; TxExit (Some CommandError)] s in
  Transaction.state s.1 = TransactionState.DONE ∧
  Transaction.state s'.1 = TransactionState.ABORTED ∧
  Transaction.commands s'.1 = [0] ∧
  forward_calls s'.2 = 2.
Proof.
  intros s s'.
  destruct (finished_transaction_stays_finished
              [TxStart; TxPerform 0; TxAbort; TxEnd; TxExit (Some CommandError)] s)
    as (_ & Hc & Hn); [left; by vm_compute|].
  split; [by vm_compute|]. split; [by vm_compute|].
  split; [unfold s'; rewrite Hc; by vm_compute|].
  unfold s'. rewrite Hn. by vm_compute.
Defined.

(** ** Restoration of the files at the end of a scope *)

Section Restoration.
Import Transaction TransactionState.
Implicit Types (s : Transaction.t * machine) (cmds : list nat).

(** The cleanup inside the scope: the staging directory and what is
    below it go, and nothing else. *)
Lemma cleanup_in_scope s d :
  temp_dir s.1 = Some d → isdir d (fs s.2) = true →
  ∃ m',
    _cleanup s = (Ok PyNone, (s.1, m')) ∧
    heap m' = heap s.2 ∧
    (d ∉ dirs (fs m')) ∧
    (∀ p, below d p = false → files (fs m') !! p = files (fs s.2) !! p) ∧
    (∀ p, below d p = true → files (fs m') !! p = None).
Proof.
  intros Hd Hdir. unfold _cleanup, os. run. unfold log. cbn [fs heap trace].
  rewrite Hd. unfold rmtree. rewrite Hdir. cbn.
  eexists. split; [done|]. cbn. split; [done|]. split; [|split].
  - rewrite elem_of_filter, elem_of_difference, elem_of_singleton.
    intros (_ & _ & Hn). by apply Hn.
  - intros p Hp. destruct (files (fs s.2) !! p) as [x|] eqn:Hx.
    + by apply map_lookup_filter_Some.
    + apply map_lookup_filter_None. by left.
  - intros p Hp. apply map_lookup_filter_None. right.
    intros c _. cbn [fst]. by rewrite Hp.
Qed.

(** The state in which the body of a scope starts. *)
Lemma enter_in_scope name verbose safe m :
  ∃ d s_in,
    __enter__ (__init__ name verbose safe, m) = (Ok tt, s_in) ∧
    in_scope s_in ∧ temp_dir s_in.1 = Some d ∧ commands s_in.1 = [] ∧
    Transaction.safe s_in.1 = safe ∧
    (d ∉ names (fs m)) ∧
    files (fs s_in.2) = files (fs m) ∧
    heap s_in.2 = heap m.
Proof.
  destruct (enter_fresh (__init__ name verbose safe, m)) as (d & Hnew & Heq);
    [by left|].
  eexists d, _. split; [exact Heq|]. cbn.
  split; [|by repeat split].
  split; [done|]. exists d. split; [done|]. unfold isdir. cbn.
  apply bool_decide_eq_true_2. by apply elem_of_union_l, elem_of_singleton.
Qed.

Lemma scope_entry_state name verbose safe m :
  state (__enter__ (__init__ name verbose safe, m)).2.1 = RUNNING.
Proof.
  destruct (enter_fresh (__init__ name verbose safe, m)) as (d & _ & ->);
    [by left|done].
Qed.

(** A method call changes the object it is made on and no other. *)
Lemma call_heap_frame ev a mth s a' :
  a' ≠ a → heap (call ev a mth s).2.2 !! a' = heap s.2 !! a'.
Proof.
  intros Hne. unfold call. cbn.
  destruct (heap s.2 !! a) as [c|]; cbn; [|done].
  destruct (mth (c, fs s.2)) as [r [c' w']]. cbn.
  by rewrite lookup_insert_ne.
Qed.

Lemma perform_command_heap_frame a s a' :
  a' ≠ a → heap (perform_command a s).2.2 !! a' = heap s.2 !! a'.
Proof.
  intros Hne. unfold perform_command. run.
  case_decide; [done|]. cbn [fst snd].
  pose proof (call_heap_frame (EvPerform a) a
                (perform (temp_dir (append_command a s.1)))
                (append_command a s.1, s.2) a' Hne) as Hf.
  by destruct (call _ _ _ _) as [[v|e] s1].
Qed.

Lemma for_each_perform_heap_frame cmds s a' :
  a' ∉ cmds →
  heap (for_each cmds perform_command s).2.2 !! a' = heap s.2 !! a'.
Proof.
  revert s. induction cmds as [|a cmds IH]; intros s Hn; [done|].
  apply not_elem_of_cons in Hn as [Hne Hn].
  cbn [for_each]. unfold bind.
  pose proof (perform_command_heap_frame a s a' Hne) as Hf.
  destruct (perform_command a s) as [[v|e] s1]; cbn [fst snd] in *; [|done].
  by rewrite IH.
Qed.

(** The outcome of a sweep of method calls, the objects and the files it
    leaves do not depend on the transaction's attributes nor on the
    events recorded so far. *)
Lemma call_any_trace ev a mth (t t' : Transaction.t) h w tr tr' :
  ∃ r h' w',
    call ev a mth (t, mkMachine h w tr)
      = (r, (t, mkMachine h' w' (tr ++ [ev]))) ∧
    call ev a mth (t', mkMachine h w tr')
      = (r, (t', mkMachine h' w' (tr' ++ [ev]))).
Proof.
  unfold call, log. cbn. destruct (h !! a) as [c|]; [|by do 3 eexists].
  destruct (mth (c, w)) as [r [c' w']]. by do 3 eexists.
Qed.

Lemma for_each_call_any_trace (ev : nat → event) mth xs
    (t t' : Transaction.t) h w tr tr' :
  ∃ r h' w' evs,
    for_each xs (λ a, call (ev a) a mth) (t, mkMachine h w tr)
      = (r, (t, mkMachine h' w' (tr ++ evs))) ∧
    for_each xs (λ a, call (ev a) a mth) (t', mkMachine h w tr')
      = (r, (t', mkMachine h' w' (tr' ++ evs))).
Proof.
  revert h w tr tr'. induction xs as [|a xs IH]; intros h w tr tr'.
  - exists (Ok tt), h, w, []. cbn. by rewrite !app_nil_r.
  - cbn [for_each]. unfold bind.
    destruct (call_any_trace (ev a) a mth t t' h w tr tr')
      as (r & h1 & w1 & -> & ->).
    destruct r as [v|e].
    + destruct (IH h1 w1 (tr ++ [ev a]) (tr' ++ [ev a]))
        as (r & h2 & w2 & evs & -> & ->).
      exists r, h2, w2, (ev a :: evs). by rewrite <- !app_assoc.
    + by exists (Raise e), h1, w1, [ev a].
Qed.

(** The body of a scope that performs well-behaved commands. *)
Lemma scope_body_runs cmds name verbose safe m :
  NoDup cmds →
  well_behaved cmds (__enter__ (__init__ name verbose safe, m)).2 →
  ∃ d s_in s1,
    __enter__ (__init__ name verbose safe, m) = (Ok tt, s_in) ∧
    in_scope s_in ∧ temp_dir s_in.1 = Some d ∧ commands s_in.1 = [] ∧
    Transaction.safe s_in.1 = safe ∧
    (d ∉ names (fs m)) ∧ files (fs s_in.2) = files (fs m) ∧
    heap s_in.2 = heap m ∧
    perform_commands cmds s_in = (Ok PyNone, s1) ∧
    state s1.1 = RUNNING ∧ temp_dir s1.1 = Some d ∧
    Transaction.safe s1.1 = safe ∧ commands s1.1 = cmds.
Proof.
  intros Hnd Hwb.
  destruct (enter_in_scope name verbose safe m)
    as (d & s_in & He & Hin & Hd & Hnil & Hsafe & Hnew & Hfiles & Hheap).
  rewrite He in Hwb. cbn [snd] in Hwb.
  destruct (run_then_sweep cmds s_in Hin Hnd Hwb)
    as (s1 & Hrun & Hst & Htd & Hsf & Hcmds & _).
  exists d, s_in, s1. split; [done|]. split; [done|]. split; [done|].
  split; [done|]. split; [done|]. split; [done|]. split; [done|].
  split; [done|].
  split; [unfold perform_commands, bind; by rewrite Hrun|].
  destruct Hin as [Hr _].
  split; [by rewrite Hst|]. split; [by rewrite Htd|].
  split; [by rewrite Hsf|]. by rewrite Hcmds, Hnil.
Qed.

(** After the sweep the staging directory of the scope is still in place
    and is removed by the cleanup. *)
Lemma restored_then_cleanup s d m w :
  temp_dir s.1 = Some d → fs s.2 = w → isdir d w = true →
  files w = files (fs m) →
  ∃ s',
    _cleanup s = (Ok PyNone, s') ∧ s'.1 = s.1 ∧
    (d ∉ dirs (fs s'.2)) ∧
    (∀ p, below d p = false → files (fs s'.2) !! p = files (fs m) !! p).
Proof.
  intros Hd Hfs Hdir Hfiles.
  destruct (cleanup_in_scope s d Hd) as (m' & Hc & _ & Hgone & Hout & _);
    [by rewrite Hfs|].
  exists (s.1, m'). split; [done|]. split; [done|]. split; [done|].
  intros p Hp. cbn [snd]. by rewrite (Hout p Hp), Hfs, Hfiles.
Qed.
End Restoration.

(** X7.  A scope that performs well-behaved commands and then calls
    [abort()] itself, in safe mode or not: the [with] statement ends
    without an exception, the transaction is [ABORTED], the staging
    directory is gone, and every file outside it is what it was before the
    scope was entered. *)
Theorem abort_in_scope_restores_files (cmds : list nat)
    (name : option string) (verbose safe : bool) (m : machine) :
  NoDup cmds →
  well_behaved cmds
    (Transaction.__enter__ (Transaction.__init__ name verbose safe, m)).2 →
  ∃ s' d,
    Transaction.with_ (Transaction.perform_commands cmds ;; Transaction.abort)
      (Transaction.__init__ name verbose safe, m) = (Ok tt, s') ∧
    Transaction.state s'.1 = TransactionState.ABORTED ∧
    Transaction.temp_dir s'.1 = Some d ∧
    (d ∉ names (fs m)) ∧
    (d ∉ dirs (fs s'.2)) ∧
    (∀ p, below d p = false → files (fs s'.2) !! p = files (fs m) !! p).
Proof.
  intros Hnd Hwb.
  destruct (enter_in_scope name verbose safe m)
    as (d & s_in & He & Hin & Hd & Hnil & Hsafe & Hnew & Hfiles & Hheap).
  rewrite He in Hwb. cbn [snd] in Hwb.
  destruct (abort_restores_files cmds s_in Hin Hnil Hnd Hwb)
    as (s1 & s2 & Hrun & _ & Hab & Hst & Htd & Hfs).
  destruct (restored_then_cleanup s2 d m (fs s_in.2)) as (s' & Hc & Hself & Hgone & Hout);
    [by rewrite Htd|done|by destruct Hin as [_ (d' & Hd' & Hdir)]; simplify_eq|done|].
  exists s', d.
  unfold Transaction.with_. unfold bind at 1. rewrite He.
  unfold bind at 1. rewrite Hrun, Hab.
  unfold bind at 1. rewrite (exit_none_aborted _ Hst). unfold bind. rewrite Hc.
  split; [done|]. rewrite Hself. by rewrite Hst, Htd, Hd.
Qed.

(** X8.  A scope whose body performs well-behaved commands and then
    raises: in safe mode, whatever is raised but the usage error, and in
    either mode when it is the abort signal, the [with] statement
    swallows the exception, the transaction is [ABORTED], the staging
    directory is gone, and every file outside it is what it was before
    the scope was entered. *)
Theorem scope_failure_restores_files (cmds : list nat)
    (name : option string) (verbose safe : bool) (m : machine) (exc : exn) :
  NoDup cmds →
  well_behaved cmds
    (Transaction.__enter__ (Transaction.__init__ name verbose safe, m)).2 →
  exc ≠ TransactionError →
  safe = true ∨ exc = TransactionAbortError →
  ∃ s' d,
    Transaction.with_ (Transaction.perform_commands cmds ;; raise exc)
      (Transaction.__init__ name verbose safe, m) = (Ok tt, s') ∧
    Transaction.state s'.1 = TransactionState.ABORTED ∧
    Transaction.temp_dir s'.1 = Some d ∧
    (d ∉ names (fs m)) ∧
    (d ∉ dirs (fs s'.2)) ∧
    (∀ p, below d p = false → files (fs s'.2) !! p = files (fs m) !! p).
Proof.
  intros Hnd Hwb Hne Hmode.
  destruct (enter_in_scope name verbose safe m)
    as (d & s_in & He & Hin & Hd & Hnil & Hsafe & Hnew & Hfiles & Hheap).
  rewrite He in Hwb. cbn [snd] in Hwb.
  destruct (abort_restores_files cmds s_in Hin Hnil Hnd Hwb)
    as (s1 & s2 & Hrun & Hsf & Hab & Hst & Htd & Hfs).
  destruct (restored_then_cleanup s2 d m (fs s_in.2))
    as (s' & Hc & Hself & Hgone & Hout);
    [by rewrite Htd|done
    |by destruct Hin as [_ (d' & Hd' & Hdir)]; simplify_eq|done|].
  exists s', d.
  assert (Transaction.__exit__ (Some exc) s1
          = (Transaction.abort ;; Transaction._cleanup ;; ret true) s1) as Hx.
  { destruct Hmode as [Hs| ->]; [|apply exit_abort_signal].
    apply exit_safe_failure; [done|]. by rewrite Hsf, Hsafe. }
  rewrite (with_raised _ _ s_in s1 exc He)
    by (unfold bind; by rewrite Hrun).
  unfold bind at 1. rewrite Hx. unfold bind. rewrite Hab, Hc.
  split; [done|]. rewrite Hself. by rewrite Hst, Htd, Hd.
Qed.

(** X9.  [Transaction.execute] on well-behaved commands followed by an
    abort command: the result is [False], the transaction is [ABORTED]
    with all the commands, the abort command included, in its history;
    the staging directory is gone and every file outside it is what it
    was before the call. *)
Theorem abort_command_restores_files (cmds : list nat) (x : nat)
    (c : CommandAbort.t) (name : option string) (verbose safe : bool)
    (m : machine) :
  NoDup cmds → x ∉ cmds → heap m !! x = Some (OfCommandAbort c) →
  well_behaved cmds
    (Transaction.__enter__ (Transaction.__init__ name verbose safe, m)).2 →
  ∃ s' d,
    Transaction.execute (cmds ++ [x]) name verbose safe m = (Ok false, s') ∧
    Transaction.state s'.1 = TransactionState.ABORTED ∧
    Transaction.commands s'.1 = cmds ++ [x] ∧
    Transaction.temp_dir s'.1 = Some d ∧
    (d ∉ names (fs m)) ∧
    (d ∉ dirs (fs s'.2)) ∧
    (∀ p, below d p = false → files (fs s'.2) !! p = files (fs m) !! p).
Proof.
  intros Hnd Hx Hc Hwb.
  destruct (enter_in_scope name verbose safe m)
    as (d & s_in & He & Hin & Hd & Hnil & Hsafe & Hnew & Hfiles & Hheap).
  rewrite He in Hwb. cbn [snd] in Hwb.
  destruct (run_then_sweep cmds s_in Hin Hnd Hwb)
    as (s1 & Hrun & Hst & Htd & Hsf & Hcmds & Hsweep).
  pose proof Hin as [Hr (d' & Hd' & Hdir)]. simplify_eq.
  assert (heap s1.2 !! x = Some (OfCommandAbort c)) as Hx1.
  { pose proof (for_each_perform_heap_frame cmds s_in x Hx) as Hf.
    rewrite Hrun in Hf. cbn [snd] in Hf. by rewrite Hf, Hheap. }
  (* the body: the abort command raises the signal *)
  set (s1x := (Transaction.append_command x s1.1,
               mkMachine (<[x := OfCommandAbort c]> (heap s1.2)) (fs s1.2)
                 (trace s1.2 ++ [EvPerform x]))).
  assert (Transaction.perform_commands (cmds ++ [x]) s_in
          = (Raise TransactionAbortError, s1x)) as Hbody.
  { unfold Transaction.perform_commands. unfold bind at 1.
    rewrite for_each_app. unfold bind at 1. rewrite Hrun.
    cbn [for_each]. unfold bind at 1.
    unfold Transaction.perform_command, Transaction.call. run.
    rewrite Hst, Hr. case_decide; [done|]. cbn [fst snd].
    unfold log. cbn [heap fs trace]. rewrite Hx1.
    unfold perform, as_object, CommandAbort.perform. run. done. }
  (* the sweep: the abort command first, then the others backwards *)
  destruct (Hsweep (Transaction.set_state TransactionState.ABORTED s1x.1))
    as (m2 & Hsw & Hfs & _).
  destruct (for_each_call_any_trace EvRollback rollback (rev cmds)
              (Transaction.set_state TransactionState.ABORTED s1x.1)
              (Transaction.set_state TransactionState.ABORTED s1x.1)
              (heap s1.2) (fs s1.2) (trace s1.2)
              (trace s1x.2 ++ [EvRollback x]))
    as (r & h' & w' & evs & Hone & Htwo).
  assert (r = Ok tt ∧ w' = fs s_in.2) as [-> ->].
  { destruct s1 as [t1 [h1 w1 tr1]]. cbn [fst snd heap fs trace] in *.
    rewrite Hsw in Hone. simplify_eq. by rewrite <- Hfs. }
  set (s2 := (Transaction.set_state TransactionState.ABORTED s1x.1,
              mkMachine h' (fs s_in.2) ((trace s1x.2 ++ [EvRollback x]) ++ evs))).
  assert (Transaction.abort s1x = (Ok PyNone, s2)) as Hab.
  { rewrite abort_sweep by (cbn; by rewrite Hst, Hr).
    unfold bind at 1. cbn [fst snd Transaction.commands s1x
                             Transaction.append_command].
    rewrite Hcmds, Hnil. cbn [app]. rewrite rev_app_distr. cbn [rev app].
    cbn [for_each]. unfold bind at 1.
    unfold Transaction.call at 1. unfold log. cbn [fst snd heap fs trace].
    rewrite lookup_insert_eq.
    unfold rollback at 1, as_object, CommandAbort.rollback. run.
    rewrite insert_insert_eq, (insert_id _ _ _ Hx1).
    subst s2 s1x. cbn [fst snd trace] in Htwo |- *. by rewrite Htwo. }
  destruct (restored_then_cleanup s2 d m (fs s_in.2))
    as (s' & Hcl & Hself & Hgone & Hout);
    [by cbn; rewrite Htd|done|done|done|].
  exists s', d. unfold Transaction.execute. unfold bind at 1.
  rewrite (with_raised _ _ s_in s1x TransactionAbortError He Hbody).
  unfold bind at 1. rewrite exit_abort_signal.
  unfold bind at 1. rewrite Hab. unfold bind at 1. rewrite Hcl. run.
  rewrite Hself. cbn. rewrite Hcmds, Hnil, Htd.
  by repeat split.
Qed.

(** X10.  The same failure in unsafe mode, for any exception but the usage
    error and the abort signal: the [with] statement lets the exception
    through and the transaction is still [RUNNING].  A call of
    [abort()] and then of [end()] recovers what safe mode does by
    itself: [end()] returns [True], the transaction is [ABORTED], the
    staging directory is gone and every file outside it is what it was
    before the scope was entered. *)
Theorem unsafe_failure_manual_abort (cmds : list nat)
    (name : option string) (verbose : bool) (m : machine) (exc : exn) :
  NoDup cmds →
  well_behaved cmds
    (Transaction.__enter__ (Transaction.__init__ name verbose false, m)).2 →
  exc ≠ TransactionError → exc ≠ TransactionAbortError →
  ∃ s1 s2 d,
    Transaction.with_ (Transaction.perform_commands cmds ;; raise exc)
      (Transaction.__init__ name verbose false, m) = (Raise exc, s1) ∧
    Transaction.state s1.1 = TransactionState.RUNNING ∧
    Transaction.temp_dir s1.1 = Some d ∧
    (Transaction.abort ;; Transaction.end_) s1 = (Ok (PyBool true), s2) ∧
    Transaction.state s2.1 = TransactionState.ABORTED ∧
    (d ∉ names (fs m)) ∧
    (d ∉ dirs (fs s2.2)) ∧
    (∀ p, below d p = false → files (fs s2.2) !! p = files (fs m) !! p).
Proof.
  intros Hnd Hwb Hne Hna.
  destruct (enter_in_scope name verbose false m)
    as (d & s_in & He & Hin & Hd & Hnil & Hsafe & Hnew & Hfiles & Hheap).
  rewrite He in Hwb. cbn [snd] in Hwb.
  destruct (run_then_sweep cmds s_in Hin Hnd Hwb)
    as (s1 & Hrun' & Hst1 & Htd1 & _).
  destruct (abort_restores_files cmds s_in Hin Hnil Hnd Hwb)
    as (s1' & s2 & Hrun & Hsf & Hab & Hst & Htd & Hfs).
  assert (s1' = s1) as ->.
  { revert Hrun. unfold Transaction.perform_commands, bind.
    rewrite Hrun'. by intros [= ->]. }
  destruct (restored_then_cleanup s2 d m (fs s_in.2))
    as (s' & Hc & Hself & Hgone & Hout);
    [by rewrite Htd|done
    |by destruct Hin as [_ (d' & Hd' & Hdir)]; simplify_eq|done|].
  exists s1, s', d.
  rewrite (with_raised _ _ s_in s1 exc He)
    by (unfold bind; by rewrite Hrun).
  unfold bind at 1.
  rewrite (exit_unsafe_failure exc s1 Hne Hna) by (by rewrite Hsf, Hsafe).
  unfold raise.
  destruct Hin as [Hr _].
  split; [done|]. split; [by rewrite Hst1|]. split; [by rewrite Htd1|].
  split.
  - unfold bind at 1. rewrite Hab. unfold Transaction.end_. run.
    rewrite (exit_none_aborted _ Hst). unfold bind. by rewrite Hc.
  - rewrite Hself. by rewrite Hst.
Qed.

(** ** The demonstration in [main] *)


(** The scenario of the examples: [A] holds "a" and [B] holds "keep"; the
    move of [A] to [B] and the write to [B] are well-behaved. *)
Lemma example_no_dup : NoDup [0; 1].
Proof.
  apply NoDup_cons. split; [|apply NoDup_singleton].
  intros [=]%list_elem_of_singleton.
Qed.

Lemma example_well_behaved safe :
  well_behaved [0; 1]
    (Transaction.__enter__
       (Transaction.__init__ None false safe, Example.move_then_write)).2.
Proof.
  split; [|split; [|done]].
  - eexists. split; [by vm_compute|].
    split; [by apply (fresh_move "A" "B")|by vm_compute].
  - eexists. split; [destruct safe; by vm_compute|].
    split; [by apply (fresh_write "B" "x")|done].
Qed.

Lemma abort_in_scope_restores_files_witness :
  ∃ s',
    Transaction.with_ (Transaction.perform_commands [0; 1] ;; Transaction.abort)
      (Transaction.__init__ None false false, Example.move_then_write)
      = (Ok tt, s') ∧
    Transaction.state s'.1 = TransactionState.ABORTED ∧
    files (fs s'.2) !! "A" = Some "a" ∧
    files (fs s'.2) !! "B" = Some "keep".
Proof.
  destruct (abort_in_scope_restores_files [0; 1] None false false
              Example.move_then_write example_no_dup
              (example_well_behaved false))
    as (s' & d & Hw & Hst & Hd & _ & _ & Hout).
  exists s'. split; [exact Hw|]. split; [exact Hst|].
  assert (d = "/tmp/_") as ->.
  { assert (s' = (Transaction.with_
                    (Transaction.perform_commands [0; 1] ;; Transaction.abort)
                    (Transaction.__init__ None false false,
                     Example.move_then_write)).2) as Hs by (by rewrite Hw).
    rewrite Hs in Hd. vm_compute in Hd. congruence. }
  split; (rewrite Hout; by vm_compute).
Defined.

Lemma scope_failure_restores_files_witness :
  ∃ s',
    Transaction.with_
      (Transaction.perform_commands [0; 1] ;; raise (OtherError "boom"))
      (Transaction.__init__ None false true, Example.move_then_write)
      = (Ok tt, s') ∧
    Transaction.state s'.1 = TransactionState.ABORTED ∧
    files (fs s'.2) !! "A" = Some "a" ∧
    files (fs s'.2) !! "B" = Some "keep".
Proof.
  destruct (scope_failure_restores_files [0; 1] None false true
              Example.move_then_write (OtherError "boom") example_no_dup
              (example_well_behaved true))
    as (s' & d & Hw & Hst & Hd & _ & _ & Hout); [done|by left|].
  exists s'. split; [exact Hw|]. split; [exact Hst|].
  assert (d = "/tmp/_") as ->.
  { assert (s' = (Transaction.with_
                    (Transaction.perform_commands [0; 1] ;;
                     raise (OtherError "boom"))
                    (Transaction.__init__ None false true,
                     Example.move_then_write)).2) as Hs by (by rewrite Hw).
    rewrite Hs in Hd. vm_compute in Hd. congruence. }
  split; (rewrite Hout; by vm_compute).
Defined.

Lemma abort_command_restores_files_witness :
  ∃ s',
    Transaction.execute [0; 1; 2] None false false Example.move_then_write
      = (Ok false, s') ∧
    Transaction.commands s'.1 = [0; 1; 2] ∧
    files (fs s'.2) !! "A" = Some "a" ∧
    files (fs s'.2) !! "B" = Some "keep".
Proof.
  destruct (abort_command_restores_files [0; 1] 2 CommandAbort.__init__
              None false false Example.move_then_write example_no_dup)
    as (s' & d & Hw & Hst & Hc & Hd & _ & _ & Hout).
  { intros [[=]|[=]%list_elem_of_singleton]%elem_of_cons. }
  { by vm_compute. }
  { apply example_well_behaved. }
  exists s'. split; [exact Hw|]. split; [exact Hc|].
  assert (d = "/tmp/_") as ->.
  { assert (s' = (Transaction.execute [0; 1; 2] None false false
                    Example.move_then_write).2) as Hs
      by (cbn [app] in Hw; by rewrite Hw).
    rewrite Hs in Hd. vm_compute in Hd. congruence. }
  split; (rewrite Hout; by vm_compute).
Defined.

Lemma unsafe_failure_manual_abort_witness :
  ∃ s1 s2,
    Transaction.with_
      (Transaction.perform_commands [0; 1] ;; raise (OtherError "boom"))
      (Transaction.__init__ None false false, Example.move_then_write)
      = (Raise (OtherError "boom"), s1) ∧
    files (fs s1.2) !! "A" = None ∧
    files (fs s1.2) !! "B" = Some "x" ∧
    (Transaction.abort ;; Transaction.end_) s1 = (Ok (PyBool true), s2) ∧
    files (fs s2.2) !! "A" = Some "a" ∧
    files (fs s2.2) !! "B" = Some "keep".
Proof.
  destruct (unsafe_failure_manual_abort [0; 1] None false
              Example.move_then_write (OtherError "boom") example_no_dup
              (example_well_behaved false))
    as (s1 & s2 & d & Hw & Hst & Hd & Hrec & Hst2 & _ & _ & Hout);
    [done|done|].
  exists s1, s2.
  assert (s1 = (Transaction.with_
                  (Transaction.perform_commands [0; 1] ;;
                   raise (OtherError "boom"))
                  (Transaction.__init__ None false false,
                   Example.move_then_write)).2) as Hs by (by rewrite Hw).
  assert (d = "/tmp/_") as ->.
  { rewrite Hs in Hd. vm_compute in Hd. congruence. }
  split; [exact Hw|].
  split; [rewrite Hs; by vm_compute|]. split; [rewrite Hs; by vm_compute|].
  split; [exact Hrec|].
  split; (rewrite Hout; by vm_compute).
Defined.


(** ** What the file commands do *)

Section Forward.
Implicit Types (w : filesystem) (d target src dst : string).

Lemma isfile_insert_ne p q k w :
  p ≠ q → isfile q (set_files <[p := k]> w) = isfile q w.
Proof.
  intros Hne. unfold isfile, set_files. cbn. by rewrite lookup_insert_ne.
Qed.

(** What [perform] of a write command does. *)
Lemma write_perform target contents w d :
  path_truthy target = true → isdir d w = true →
  ∃ c1 w1,
    perform (Some d)
      (OfCommandFileWrite (CommandFileWrite.__init__ target contents), w)
      = (Ok PyNone, (c1, w1)) ∧
    staged d c1 ∧ dirs w1 = dirs w ∧
    ∀ q, below d q = false →
      files w1 !! q = if decide (q = target) then Some contents else files w !! q.
Proof.
  intros Ht Hd.
  unfold perform, as_object. cbn [fst snd].
  unfold CommandFileWrite.perform, CommandFileWrite.upcall,
    CommandFileWrite.__init__, CommandFileWrite.target_path.
  steps.
  destruct (files w !! target) as [k|] eqn:Hk.
  - destruct (base_perform_backup target d w k Hd Hk) as (p & Hp & Hpt & Hb & ->).
    steps. rewrite write_file_ok by done. steps.
    do 2 eexists. split; [done|]. split.
    { split; [done|]. split; [done|]. cbn. by intros ? [= <-]. }
    split; [done|]. intros q Hq. unfold set_files. cbn.
    case_decide; simplify_map_eq; [done|].
    rewrite lookup_insert_ne; [done|]. intros ->. by rewrite Hb in Hq.
  - rewrite (base_perform_nothing target _ w Hk).
    steps. rewrite write_file_ok by done. steps.
    do 2 eexists. split; [done|]. split.
    { split; [done|]. split; [done|]. cbn. by intros ? [=]. }
    split; [done|]. intros q Hq. unfold set_files. cbn.
    case_decide; by simplify_map_eq.
Qed.

(** What [perform] of a delete command does; deleting a file that is not
    there is not an error. *)
Lemma delete_perform target w d :
  isdir d w = true →
  ∃ c1 w1,
    perform (Some d) (OfCommandFileDelete (CommandFileDelete.__init__ target), w)
      = (Ok (if isfile target w then PyNone else PyBool false), (c1, w1)) ∧
    staged d c1 ∧ dirs w1 = dirs w ∧
    ∀ q, below d q = false →
      files w1 !! q = if decide (q = target) then None else files w !! q.
Proof.
  intros Hd.
  unfold perform, as_object. cbn [fst snd].
  unfold CommandFileDelete.perform, CommandFileDelete.upcall,
    CommandFileDelete.__init__, CommandFileDelete.target_path.
  steps.
  destruct (files w !! target) as [k|] eqn:Hk.
  - destruct (base_perform_backup target d w k Hd Hk) as (p & Hp & Hpt & Hb & ->).
    assert (p ≠ target) as Hne by (intros ->; by rewrite Hk in Hp).
    steps. rewrite (os_remove_ok target _ k)
      by (unfold set_files; cbn; by simplify_map_eq).
    steps. rewrite (isfile_true _ _ _ Hk).
    do 2 eexists. split; [done|]. split.
    { split; [done|]. split; [done|]. cbn. by intros ? [= <-]. }
    split; [done|]. intros q Hq. unfold set_files. cbn.
    case_decide; simplify_map_eq; [done|].
    rewrite lookup_insert_ne; [done|]. intros ->. by rewrite Hb in Hq.
  - rewrite (base_perform_nothing target _ w Hk). steps.
    rewrite (isfile_false _ _ Hk).
    do 2 eexists. split; [done|]. split.
    { split; [done|]. split; [done|]. cbn. by intros ? [=]. }
    split; [done|]. intros q Hq. case_decide; by simplify_eq.
Qed.

(** What [perform] of a copy command does; a missing source is not an
    error. *)
Lemma copy_perform src dst c w d :
  CommandFileCopy.__init__ src dst = Ok c →
  path_truthy dst = true → isdir d w = true →
  ∃ v c1 w1,
    perform (Some d) (OfCommandFileCopy c, w) = (Ok v, (c1, w1)) ∧
    staged d c1 ∧ dirs w1 = dirs w ∧
    (below d src = false →
     v = (if path_truthy src && isfile src w then PyNone else PyBool false) ∧
     ∀ q, below d q = false →
       files w1 !! q
       = if decide (q = dst) then
           (if path_truthy src && isfile src w then files w !! src
            else files w !! dst)
         else files w !! q).
Proof.
  intros Hc Ht Hd. unfold CommandFileCopy.__init__ in Hc.
  case_decide as Hsd; simplify_eq.
  unfold perform, as_object. cbn [fst snd].
  unfold CommandFileCopy.perform, CommandFileCopy.upcall. steps.
  destruct (files w !! dst) as [k|] eqn:Hk.
  - destruct (base_perform_backup dst d w k Hd Hk) as (p & Hp & Hpt & Hb & ->).
    assert (p ≠ dst) as Hne by (intros ->; by rewrite Hk in Hp).
    steps.
    destruct (path_truthy src) eqn:Hs; cbn [negb orb andb];
      [destruct (isfile_lookup src (set_files <[p:=k]> w))
         as [[Hi (x & Hx)]|[Hi _]]; rewrite Hi|]; cbn [negb].
    + rewrite (shutil_copy_ok src dst _ x) by done. steps.
      do 3 eexists. split; [done|]. split.
      { split; [done|]. split; [done|]. cbn. by intros ? [= <-]. }
      split; [done|]. intros Hsrc.
      assert (p ≠ src) as Hps by (intros ->; by rewrite Hb in Hsrc).
      rewrite isfile_insert_ne in Hi by done. rewrite Hi.
      split; [done|]. intros q Hq. unfold set_files in *. cbn in *.
      rewrite lookup_insert_ne in Hx by done.
      case_decide; simplify_map_eq; [done|].
      rewrite lookup_insert_ne; [done|]. intros ->. by rewrite Hb in Hq.
    + steps. do 3 eexists. split; [done|]. split.
      { split; [done|]. split; [done|]. cbn. by intros ? [= <-]. }
      split; [done|]. intros Hsrc.
      assert (p ≠ src) as Hps by (intros ->; by rewrite Hb in Hsrc).
      rewrite isfile_insert_ne in Hi by done. rewrite Hi.
      split; [done|]. intros q Hq. unfold set_files. cbn.
      case_decide; simplify_eq.
      * rewrite lookup_insert_ne; [done|]. intros ->. by rewrite Hb in Hq.
      * rewrite lookup_insert_ne; [done|]. intros ->. by rewrite Hb in Hq.
    + steps. do 3 eexists. split; [done|]. split.
      { split; [done|]. split; [done|]. cbn. by intros ? [= <-]. }
      split; [done|]. intros Hsrc. split; [done|].
      intros q Hq. unfold set_files. cbn.
      case_decide; simplify_eq.
      * rewrite lookup_insert_ne; [done|]. intros ->. by rewrite Hb in Hq.
      * rewrite lookup_insert_ne; [done|]. intros ->. by rewrite Hb in Hq.
  - rewrite (base_perform_nothing dst _ w Hk). steps.
    destruct (path_truthy src) eqn:Hs; cbn [negb orb andb];
      [destruct (isfile_lookup src w) as [[Hi (x & Hx)]|[Hi _]]; rewrite Hi|];
      cbn [negb].
    + rewrite (shutil_copy_ok src dst _ x) by done. steps.
      do 3 eexists. split; [done|]. split.
      { split; [done|]. split; [done|]. cbn. by intros ? [=]. }
      split; [done|]. intros _. split; [done|].
      intros q Hq. unfold set_files. cbn. case_decide; by simplify_map_eq.
    + steps. do 3 eexists. split; [done|]. split.
      { split; [done|]. split; [done|]. cbn. by intros ? [=]. }
      split; [done|]. intros _. split; [done|].
      intros q Hq. case_decide; by simplify_eq.
    + steps. do 3 eexists. split; [done|]. split.
      { split; [done|]. split; [done|]. cbn. by intros ? [=]. }
      split; [done|]. intros _. split; [done|].
      intros q Hq. case_decide; by simplify_eq.
Qed.

(** What [perform] of a move command does; a missing source is not an
    error. *)
Lemma move_perform src dst w d :
  path_truthy dst = true → isdir d w = true →
  ∃ v c1 w1,
    perform (Some d) (OfCommandFileMove (CommandFileMove.__init__ src dst), w)
      = (Ok v, (c1, w1)) ∧
    staged d c1 ∧ dirs w1 = dirs w ∧
    (below d src = false →
     v = (if path_truthy src && isfile src w then PyNone else PyBool false) ∧
     ∀ q, below d q = false →
       files w1 !! q
       = if path_truthy src && isfile src w then
           (if decide (q = dst) then files w !! src
            else if decide (q = src) then None else files w !! q)
         else files w !! q).
Proof.
  intros Ht Hd.
  unfold perform, as_object. cbn [fst snd].
  unfold CommandFileMove.perform, CommandFileMove.upcall,
    CommandFileMove.__init__. steps.
  destruct (files w !! dst) as [k|] eqn:Hk.
  - destruct (base_perform_backup dst d w k Hd Hk) as (p & Hp & Hpt & Hb & ->).
    assert (p ≠ dst) as Hne by (intros ->; by rewrite Hk in Hp).
    steps.
    destruct (path_truthy src) eqn:Hs; cbn [negb orb andb];
      [destruct (isfile_lookup src (set_files <[p:=k]> w))
         as [[Hi (x & Hx)]|[Hi _]]; rewrite Hi|]; cbn [negb].
    + destruct (decide (src = dst)) as [->|Hsd].
      * rewrite (shutil_move_same dst _ x) by done. steps.
        do 3 eexists. split; [done|]. split.
        { split; [done|]. split; [done|]. cbn. by intros ? [= <-]. }
        split; [done|]. intros Hsrc.
        rewrite isfile_insert_ne in Hi by done. rewrite Hi.
        split; [done|]. intros q Hq. unfold set_files. cbn.
        case_decide; simplify_eq.
        -- by rewrite lookup_insert_ne.
        -- rewrite lookup_insert_ne; [done|]. intros ->. by rewrite Hb in Hq.
      * rewrite (shutil_move_ok src dst _ x) by done. steps.
        do 3 eexists. split; [done|]. split.
        { split; [done|]. split; [done|]. cbn. by intros ? [= <-]. }
        split; [done|]. intros Hsrc.
        assert (p ≠ src) as Hps by (intros ->; by rewrite Hb in Hsrc).
        rewrite isfile_insert_ne in Hi by done. rewrite Hi.
        split; [done|]. intros q Hq. unfold set_files in *. cbn in *.
        rewrite lookup_insert_ne in Hx by done.
        case_decide; simplify_map_eq; [done|].
        case_decide; simplify_map_eq; [done|].
        rewrite lookup_insert_ne; [done|]. intros ->. by rewrite Hb in Hq.
    + steps. do 3 eexists. split; [done|]. split.
      { split; [done|]. split; [done|]. cbn. by intros ? [= <-]. }
      split; [done|]. intros Hsrc.
      assert (p ≠ src) as Hps by (intros ->; by rewrite Hb in Hsrc).
      rewrite isfile_insert_ne in Hi by done. rewrite Hi.
      split; [done|]. intros q Hq. unfold set_files. cbn.
      rewrite lookup_insert_ne; [done|]. intros ->. by rewrite Hb in Hq.
    + steps. do 3 eexists. split; [done|]. split.
      { split; [done|]. split; [done|]. cbn. by intros ? [= <-]. }
      split; [done|]. intros Hsrc. split; [done|].
      intros q Hq. unfold set_files. cbn.
      rewrite lookup_insert_ne; [done|]. intros ->. by rewrite Hb in Hq.
  - rewrite (base_perform_nothing dst _ w Hk). steps.
    destruct (path_truthy src) eqn:Hs; cbn [negb orb andb];
      [destruct (isfile_lookup src w) as [[Hi (x & Hx)]|[Hi _]]; rewrite Hi|];
      cbn [negb].
    + assert (src ≠ dst) as Hsd by (intros ->; by rewrite Hk in Hx).
      rewrite (shutil_move_ok src dst _ x) by done. steps.
      do 3 eexists. split; [done|]. split.
      { split; [done|]. split; [done|]. cbn. by intros ? [=]. }
      split; [done|]. intros _. split; [done|].
      intros q Hq. unfold set_files. cbn.
      case_decide; simplify_map_eq; [done|].
      case_decide; by simplify_map_eq.
    + steps. do 3 eexists. split; [done|]. split.
      { split; [done|]. split; [done|]. cbn. by intros ? [=]. }
      by split.
    + steps. do 3 eexists. split; [done|]. split.
      { split; [done|]. split; [done|]. cbn. by intros ? [=]. }
      by split.
Qed.
End Forward.

Section CommitStaged.
Implicit Types (w : filesystem) (d target : string) (c : command).

(** The commit of a performed file command removes its backup, if it is
    still there, and touches nothing else. *)
Lemma base_commit_staged target tc w d :
  (∀ p, tc = Some p → below d p = true) →
  ∃ w',
    _CommandFileBase.commit (_CommandFileBase.mk performed target tc, w)
    = (Ok PyNone, (_CommandFileBase.mk committed target tc, w')) ∧
    dirs w' = dirs w ∧
    (∀ q, below d q = false → files w' !! q = files w !! q) ∧
    (∀ p, tc = Some p → files w' !! p = None).
Proof.
  intros Htc.
  unfold _CommandFileBase.commit, _CommandFileBase.upcall,
    _CommandFileBase.no_copy, performed.
  steps. rewrite commit_performed by done. steps.
  destruct tc as [p|]; [|by eexists].
  destruct (path_truthy p) eqn:Hp; cbn [negb orb].
  - destruct (isfile_lookup p w) as [[Hi (x & Hx)]|[Hi Hno]]; rewrite Hi;
      cbn [negb].
    + cbn. rewrite (os_remove_ok p w x Hx). steps.
      eexists. split; [done|]. split; [done|]. split.
      * intros q Hq. unfold set_files. cbn.
        rewrite lookup_delete_ne; [done|]. intros Heq.
        rewrite <- Heq in Hq. by rewrite (Htc p eq_refl) in Hq.
      * intros ? [= <-]. unfold set_files. cbn. apply lookup_delete_eq.
    + steps. eexists. split; [done|]. split; [done|]. split; [done|].
      by intros ? [= <-].
  - specialize (Htc p eq_refl). destruct p; [|done]. unfold below in Htc.
    destruct d as [|a d']; [by vm_compute in Htc|].
    by rewrite append_cons in Htc.
Qed.

Lemma commit_staged c d w :
  staged d c →
  ∃ v c' w',
    commit (c, w) = (Ok v, (c', w')) ∧
    lifecycle c' = Some committed ∧
    dirs w' = dirs w ∧
    (∀ q, below d q = false → files w' !! q = files w !! q).
Proof.
  intros (Hfile & Hlife & Htc).
  destruct c as [c|c|[[b t tc] x]|[[b t tc]]|[[b t tc] x y]|[[b t tc] x y]];
    try done; cbn in Hlife, Htc; simplify_eq.
  all: destruct (base_commit_staged t tc w d Htc) as (w' & Hc & Hd & Hout & _).
  all: unfold commit, as_object; cbn [fst snd].
  all: unfold CommandFileWrite.commit, CommandFileWrite.upcall,
         CommandFileDelete.commit, CommandFileDelete.upcall,
         CommandFileCopy.commit, CommandFileCopy.upcall,
         CommandFileMove.commit, CommandFileMove.upcall.
  all: steps; rewrite Hc; steps.
  all: by do 3 eexists.
Qed.

(** Every fresh file command can be performed, and is staged then. *)
Lemma perform_staged c w d :
  fresh_command c → isdir d w = true →
  ∃ v c1 w1,
    perform (Some d) (c, w) = (Ok v, (c1, w1)) ∧
    staged d c1 ∧ dirs w1 = dirs w.
Proof.
  intros [target contents Ht|target Ht|src dst c' Hc Ht|src dst Ht] Hd.
  - destruct (write_perform target contents w d Ht Hd)
      as (c1 & w1 & Hp & Hs & Hdirs & _). by do 3 eexists.
  - destruct (delete_perform target w d Hd)
      as (c1 & w1 & Hp & Hs & Hdirs & _). by do 3 eexists.
  - destruct (copy_perform src dst c' w d Hc Ht Hd)
      as (v & c1 & w1 & Hp & Hs & Hdirs & _). by do 3 eexists.
  - destruct (move_perform src dst w d Ht Hd)
      as (v & c1 & w1 & Hp & Hs & Hdirs & _). by do 3 eexists.
Qed.
End CommitStaged.

(** ** The commit path *)

Section CommitPath.
Import Transaction TransactionState.
Implicit Types (s : Transaction.t * machine) (cmds : list nat) (d : string).

(** Performing fresh file commands, each submitted once: all of them go
    through, and each holds its backup in the staging directory. *)
Lemma run_fresh cmds s d :
  in_scope s → temp_dir s.1 = Some d → NoDup cmds →
  (∀ a, a ∈ cmds → ∃ c, heap s.2 !! a = Some c ∧ fresh_command c) →
  ∃ s1,
    for_each cmds perform_command s = (Ok tt, s1) ∧
    state s1.1 = RUNNING ∧ temp_dir s1.1 = Some d ∧
    safe s1.1 = safe s.1 ∧
    commands s1.1 = commands s.1 ++ cmds ∧
    trace s1.2 = trace s.2 ++ (EvPerform <$> cmds) ∧
    dirs (fs s1.2) = dirs (fs s.2) ∧
    (∀ a, a ∈ cmds → ∃ c1, heap s1.2 !! a = Some c1 ∧ staged d c1) ∧
    (∀ a, a ∉ cmds → heap s1.2 !! a = heap s.2 !! a).
Proof.
  revert s. induction cmds as [|a rest IH]; intros s Hin Hd Hnd Hfresh.
  - exists s. cbn. rewrite !app_nil_r. destruct Hin as [Hr _].
    repeat split; try done. by intros a ?%elem_of_nil.
  - apply NoDup_cons in Hnd as [Ha Hnd].
    destruct (Hfresh a) as (c & Hc & Hf); [by left|].
    pose proof Hin as [Hst (d' & Hd' & Hdir)].
    assert (d' = d) as -> by congruence.
    destruct (perform_staged c (fs s.2) d Hf Hdir)
      as (v & c1 & w1 & Hp & Hstaged & Hdirs).
    pose proof (perform_command_ok a c s d v c1 w1 Hin Hd Hc Hp) as Hpc.
    set (sa := (append_command a s.1,
                mkMachine (<[a := c1]> (heap s.2)) w1
                  (trace s.2 ++ [EvPerform a]))) in *.
    destruct (IH sa) as (s1 & Hrun & Hst1 & Htd1 & Hsf1 & Hcmds1 & Htr1
                            & Hdirs1 & Hst_all & Hframe); [|done|done| |].
    { split; [done|]. exists d. split; [done|].
      unfold isdir in *. cbn. by rewrite Hdirs. }
    { intros a' Ha'. cbn. rewrite lookup_insert_ne; [|by intros ->].
      apply Hfresh. by right. }
    exists s1. cbn [for_each]. unfold bind at 1. rewrite Hpc.
    split; [done|]. split; [done|]. split; [done|]. split; [done|].
    split; [rewrite Hcmds1; cbn; by rewrite <- app_assoc|].
    split; [rewrite Htr1; cbn; by rewrite <- app_assoc|].
    split; [by rewrite Hdirs1|]. split.
    + intros a' [->|Ha']%elem_of_cons; [|by apply Hst_all].
      exists c1. rewrite (Hframe a Ha). cbn. by rewrite lookup_insert_eq.
    + intros a' [Hne Ha']%not_elem_of_cons. rewrite (Hframe a' Ha'). cbn.
      by rewrite lookup_insert_ne.
Qed.

Lemma call_commit_ok a c t m v c2 w2 :
  heap m !! a = Some c → commit (c, fs m) = (Ok v, (c2, w2)) →
  call (EvCommit a) a commit (t, m)
  = (Ok v, (t, mkMachine (<[a := c2]> (heap m)) w2 (trace m ++ [EvCommit a]))).
Proof. intros Ha Hr. unfold call. cbn. by rewrite Ha, Hr. Qed.

(** The commit sweep over staged commands: every commit goes through,
    and nothing outside the staging directory changes. *)
Lemma commit_sweep cmds (t : Transaction.t) (m : machine) d :
  NoDup cmds →
  (∀ a, a ∈ cmds → ∃ c1, heap m !! a = Some c1 ∧ staged d c1) →
  ∃ m',
    for_each cmds (λ a, call (EvCommit a) a commit) (t, m) = (Ok tt, (t, m')) ∧
    trace m' = trace m ++ (EvCommit <$> cmds) ∧
    dirs (fs m') = dirs (fs m) ∧
    (∀ q, below d q = false → files (fs m') !! q = files (fs m) !! q) ∧
    (∀ a, a ∈ cmds →
       ∃ c', heap m' !! a = Some c' ∧ lifecycle c' = Some committed) ∧
    (∀ a, a ∉ cmds → heap m' !! a = heap m !! a).
Proof.
  revert m. induction cmds as [|a rest IH]; intros m Hnd Hall.
  - exists m. cbn. rewrite app_nil_r. repeat split; try done.
    by intros a ?%elem_of_nil.
  - apply NoDup_cons in Hnd as [Ha Hnd].
    destruct (Hall a) as (c1 & Hc1 & Hs); [by left|].
    destruct (commit_staged c1 d (fs m) Hs)
      as (v & c' & w' & Hc & Hlife & Hdirs & Hout).
    pose proof (call_commit_ok a c1 t m v c' w' Hc1 Hc) as Hcall.
    set (ma := mkMachine (<[a := c']> (heap m)) w' (trace m ++ [EvCommit a]))
      in *.
    destruct (IH ma Hnd) as (m' & Hrun & Htr & Hdirs' & Hout' & Hcom & Hframe).
    { intros a' Ha'. cbn. rewrite lookup_insert_ne; [|by intros ->].
      apply Hall. by right. }
    exists m'. cbn [for_each]. unfold bind at 1. rewrite Hcall.
    split; [done|].
    split; [rewrite Htr; cbn; by rewrite <- app_assoc|].
    split; [by rewrite Hdirs'|].
    split; [intros q Hq; by rewrite (Hout' q Hq), <- (Hout q Hq)|]. split.
    + intros a' [->|Ha']%elem_of_cons; [|by apply Hcom].
      exists c'. rewrite (Hframe a Ha). cbn. by rewrite lookup_insert_eq.
    + intros a' [Hne Ha']%not_elem_of_cons. rewrite (Hframe a' Ha'). cbn.
      by rewrite lookup_insert_ne.
Qed.

(** A scope around fresh commands that ends normally. *)
Lemma scope_commits cmds name verbose safe m :
  NoDup cmds →
  (∀ a, a ∈ cmds → ∃ c, heap m !! a = Some c ∧ fresh_command c) →
  ∃ s_in s1 s' d,
    __enter__ (__init__ name verbose safe, m) = (Ok tt, s_in) ∧
    temp_dir s_in.1 = Some d ∧ isdir d (fs s_in.2) = true ∧
    files (fs s_in.2) = files (fs m) ∧ heap s_in.2 = heap m ∧
    perform_commands cmds s_in = (Ok PyNone, s1) ∧
    with_ (perform_commands cmds) (__init__ name verbose safe, m)
      = (Ok tt, s') ∧
    state s'.1 = DONE ∧ commands s'.1 = cmds ∧
    trace s'.2 = trace m ++ (EvPerform <$> cmds) ++ (EvCommit <$> cmds)
                   ++ [EvRmtree (Some d)] ∧
    (∀ a, a ∈ cmds →
       ∃ c', heap s'.2 !! a = Some c' ∧ lifecycle c' = Some committed) ∧
    temp_dir s'.1 = Some d ∧ (d ∉ names (fs m)) ∧ (d ∉ dirs (fs s'.2)) ∧
    (∀ p, below d p = true → files (fs s'.2) !! p = None) ∧
    (∀ p, below d p = false → files (fs s'.2) !! p = files (fs s1.2) !! p).
Proof.
  intros Hnd Hfresh.
  destruct (enter_fresh (__init__ name verbose safe, m)) as (d & Hnew & He);
    [by left|].
  cbn [fst snd heap fs trace] in He.
  set (s_in := (set_state RUNNING
                  (set_temp_dir (Some d) (__init__ name verbose safe)),
                mkMachine (heap m) (mkFs (files (fs m)) ({[d]} ∪ dirs (fs m)))
                  (trace m))) in *.
  assert (isdir d (fs s_in.2) = true) as Hdir.
  { unfold isdir. cbn. apply bool_decide_eq_true_2.
    by apply elem_of_union_l, elem_of_singleton. }
  assert (in_scope s_in) as Hin by (split; [done|]; by exists d).
  destruct (run_fresh cmds s_in d Hin eq_refl Hnd Hfresh)
    as (s1 & Hrun & Hst1 & Htd1 & Hsf1 & Hcmds1 & Htr1 & Hdirs1 & Hstaged & _).
  change (commands s_in.1) with (@nil nat) in Hcmds1.
  change (trace s_in.2) with (trace m) in Htr1.
  cbn [app] in Hcmds1.
  destruct (commit_sweep cmds s1.1 s1.2 d Hnd Hstaged)
    as (m2 & Hsw & Htr2 & Hdirs2 & Hout2 & Hcom & _).
  set (s2 := (set_state DONE s1.1, m2)).
  destruct (cleanup_in_scope s2 d) as (m3 & Hcl & Hheap3 & Hgone & Hout3 & Hin3).
  { by cbn. }
  { cbn. unfold isdir in *. by rewrite Hdirs2, Hdirs1. }
  pose proof (cleanup_trace s2) as [_ Htr3]. rewrite Hcl in Htr3.
  cbn [fst snd temp_dir set_state] in Htr3.
  exists s_in, s1, (s2.1, m3), d.
  split; [done|]. split; [done|]. split; [done|]. split; [done|].
  split; [done|].
  assert (perform_commands cmds s_in = (Ok PyNone, s1)) as Hbody.
  { unfold perform_commands, bind. by rewrite Hrun. }
  split; [done|]. split.
  { unfold with_. unfold bind at 1. rewrite He, Hbody.
    unfold bind at 1. rewrite (exit_none_running _ Hst1).
    unfold bind at 1. unfold _commit. unfold bind at 1. unfold attr, gets.
    cbn [fst snd]. unfold bind at 1. rewrite Hcmds1.
    destruct s1 as [t1 m1]. cbn [fst snd] in *. rewrite Hsw.
    run. fold s2. rewrite Hcl. done. }
  cbn [fst snd]. split; [done|]. split; [done|].
  change (trace s2.2) with (trace m2) in Htr3.
  change (temp_dir s2.1) with (temp_dir s1.1) in Htr3.
  change (heap s2.2) with (heap m2) in Hheap3.
  change (fs s2.2) with (fs m2) in Hout3.
  split; [by rewrite Htr3, Htd1, Htr2, Htr1, <- !app_assoc|].
  split; [intros a Ha; rewrite Hheap3; by apply Hcom|].
  split; [done|]. split; [done|]. split; [done|]. split; [done|].
  intros p Hp. by rewrite (Hout3 p Hp), <- (Hout2 p Hp).
Qed.
End CommitPath.

(** ** Executing one command *)

Section ExecuteOne.
Implicit Types (m : machine) (c : command) (d : string).

Lemma with_one_command a (s0 : Transaction.t * machine) :
  Transaction.with_ (Transaction.perform_command a) s0
  = Transaction.with_ (Transaction.perform_commands [a]) s0.
Proof.
  unfold Transaction.with_, Transaction.perform_commands. cbn [for_each].
  unfold bind. destruct (Transaction.__enter__ s0) as [[[]|e] s_in]; [|done].
  by destruct (Transaction.perform_command a s_in) as [[v|e] s1].
Qed.

(** [execute] on one object is [Transaction.execute] on the list of that
    object, in safe mode. *)
Lemma execute_as_transaction a name verbose m :
  ∃ name', execute a name verbose m
           = Transaction.execute [a] name' verbose true m.
Proof.
  eexists. unfold execute, Transaction.execute. unfold bind at 1.
  rewrite with_one_command. done.
Qed.

(** One fresh file command, executed: what is left is what its [perform]
    did outside the staging directory. *)
Lemma execute_fresh a c name verbose m :
  heap m !! a = Some c → fresh_command c →
  ∃ s' d w_in c',
    execute a name verbose m = (Ok true, s') ∧
    Transaction.state s'.1 = TransactionState.DONE ∧
    Transaction.temp_dir s'.1 = Some d ∧
    heap s'.2 !! a = Some c' ∧ lifecycle c' = Some committed ∧
    (d ∉ names (fs m)) ∧ (d ∉ dirs (fs s'.2)) ∧
    (∀ q, below d q = true → files (fs s'.2) !! q = None) ∧
    isdir d w_in = true ∧ files w_in = files (fs m) ∧
    ∀ v c1 w1, perform (Some d) (c, w_in) = (Ok v, (c1, w1)) →
      ∀ q, below d q = false → files (fs s'.2) !! q = files w1 !! q.
Proof.
  intros Hc Hf.
  destruct (execute_as_transaction a name verbose m) as (name' & ->).
  destruct (scope_commits [a] name' verbose true m)
    as (s_in & s1 & s' & d & He & Hd & Hdir & Hfiles & Hheap & Hbody & Hw
          & Hst & _ & _ & Hcom & Htd & Hnew & Hgone & Hin & Hout).
  { apply NoDup_singleton. }
  { intros a' ->%list_elem_of_singleton. by exists c. }
  destruct (Hcom a) as (c' & Hc' & Hlife); [by left|].
  exists s', d, (fs s_in.2), c'.
  split.
  { unfold Transaction.execute. unfold bind at 1. rewrite Hw. run.
    rewrite Hst. done. }
  split; [done|]. split; [done|]. split; [done|]. split; [done|].
  split; [done|]. split; [done|]. split; [done|]. split; [done|].
  split; [done|].
  intros v c1 w1 Hp q Hq. rewrite (Hout q Hq).
  assert (in_scope s_in) as Hin_scope.
  { split; [|by exists d]. 
    pose proof (scope_entry_state name' verbose true m) as Hs.
    by rewrite He in Hs. }
  pose proof (perform_command_ok a c s_in d v c1 w1 Hin_scope Hd
                ltac:(by rewrite Hheap) Hp) as Hpc.
  revert Hbody. unfold Transaction.perform_commands. cbn [for_each].
  unfold bind. rewrite Hpc. by intros [= <-].
Qed.
End ExecuteOne.

(** X12.  [Transaction.execute] on fresh file commands, each given once:
    the result is [True] and the transaction is [DONE].  Every command is
    performed, in the order of the list, then every command is committed,
    in the same order, then the staging directory is removed; every
    command ends [COMMITTED].  Nothing is left in the staging directory,
    and outside it the files are as the last [perform] left them: the
    commits change none of them. *)
Theorem execute_commits_fresh_commands (cmds : list nat)
    (name : option string) (verbose safe : bool) (m : machine) :
  NoDup cmds →
  (∀ a, a ∈ cmds → ∃ c, heap m !! a = Some c ∧ fresh_command c) →
  ∃ s_in s1 s' d,
    Transaction.__enter__ (Transaction.__init__ name verbose safe, m)
      = (Ok tt, s_in) ∧
    Transaction.perform_commands cmds s_in = (Ok PyNone, s1) ∧
    Transaction.execute cmds name verbose safe m = (Ok true, s') ∧
    Transaction.state s'.1 = TransactionState.DONE ∧
    Transaction.commands s'.1 = cmds ∧
    Transaction.temp_dir s'.1 = Some d ∧
    trace s'.2 = trace m ++ (EvPerform <$> cmds) ++ (EvCommit <$> cmds)
                   ++ [EvRmtree (Some d)] ∧
    (∀ a, a ∈ cmds →
       ∃ c', heap s'.2 !! a = Some c' ∧ lifecycle c' = Some committed) ∧
    (d ∉ names (fs m)) ∧ (d ∉ dirs (fs s'.2)) ∧
    (∀ p, below d p = true → files (fs s'.2) !! p = None) ∧
    (∀ p, below d p = false → files (fs s'.2) !! p = files (fs s1.2) !! p).
Proof.
  intros Hnd Hfresh.
  destruct (scope_commits cmds name verbose safe m Hnd Hfresh)
    as (s_in & s1 & s' & d & He & Hd & Hdir & Hfiles & Hheap & Hbody & Hw
          & Hst & Hcmds & Htr & Hcom & Htd & Hnew & Hgone & Hin & Hout).
  exists s_in, s1, s', d. split; [done|]. split; [done|]. split.
  { unfold Transaction.execute. unfold bind at 1. rewrite Hw. run.
    by rewrite Hst. }
  by repeat split.
Qed.

(** X13.  [execute] on a fresh write command returns [True]: the command
    is [COMMITTED], the target holds the contents, whether or not it
    existed before, the staging directory and the backup in it are gone,
    and no other file has changed. *)
Theorem write_execute (a : nat) (target contents : string)
    (name : option string) (verbose : bool) (m : machine) :
  heap m !! a
    = Some (OfCommandFileWrite (CommandFileWrite.__init__ target contents)) →
  path_truthy target = true →
  ∃ s' d c',
    execute a name verbose m = (Ok true, s') ∧
    Transaction.state s'.1 = TransactionState.DONE ∧
    Transaction.temp_dir s'.1 = Some d ∧
    heap s'.2 !! a = Some c' ∧ lifecycle c' = Some committed ∧
    (d ∉ names (fs m)) ∧ (d ∉ dirs (fs s'.2)) ∧
    (∀ q, below d q = true → files (fs s'.2) !! q = None) ∧
    (∀ q, below d q = false →
       files (fs s'.2) !! q
       = if decide (q = target) then Some contents else files (fs m) !! q).
Proof.
  intros Hc Ht.
  destruct (execute_fresh a _ name verbose m Hc (fresh_write _ _ Ht))
    as (s' & d & w_in & c' & Hx & Hst & Htd & Hc' & Hlife & Hnew & Hgone & Hin
          & Hdir & Hfiles & Hfin).
  destruct (write_perform target contents w_in d Ht Hdir)
    as (c1 & w1 & Hp & _ & _ & Heff).
  exists s', d, c'. repeat (split; [done|]).
  intros q Hq. by rewrite (Hfin _ _ _ Hp q Hq), (Heff q Hq), Hfiles.
Qed.

(** X14.  [execute] on a fresh delete command returns [True], also when
    there is no file to delete: the command is [COMMITTED], the target
    does not exist, the staging directory and the backup in it are gone,
    and no other file has changed. *)
Theorem delete_execute (a : nat) (target : string)
    (name : option string) (verbose : bool) (m : machine) :
  heap m !! a = Some (OfCommandFileDelete (CommandFileDelete.__init__ target)) →
  path_truthy target = true →
  ∃ s' d c',
    execute a name verbose m = (Ok true, s') ∧
    Transaction.state s'.1 = TransactionState.DONE ∧
    Transaction.temp_dir s'.1 = Some d ∧
    heap s'.2 !! a = Some c' ∧ lifecycle c' = Some committed ∧
    (d ∉ names (fs m)) ∧ (d ∉ dirs (fs s'.2)) ∧
    (∀ q, below d q = true → files (fs s'.2) !! q = None) ∧
    (∀ q, below d q = false →
       files (fs s'.2) !! q
       = if decide (q = target) then None else files (fs m) !! q).
Proof.
  intros Hc Ht.
  destruct (execute_fresh a _ name verbose m Hc (fresh_delete _ Ht))
    as (s' & d & w_in & c' & Hx & Hst & Htd & Hc' & Hlife & Hnew & Hgone & Hin
          & Hdir & Hfiles & Hfin).
  destruct (delete_perform target w_in d Hdir)
    as (c1 & w1 & Hp & _ & _ & Heff).
  exists s', d, c'. repeat (split; [done|]).
  intros q Hq. by rewrite (Hfin _ _ _ Hp q Hq), (Heff q Hq), Hfiles.
Qed.

(** X15.  [execute] on a fresh copy command returns [True], also when the
    source is missing: the command is [COMMITTED] and the staging
    directory and the backup in it are gone.  When the source is outside
    the staging directory, the destination holds what the source holds,
    or is as it was when there is no source, and no other file has
    changed. *)
Theorem copy_execute (a : nat) (src dst : string) (c : CommandFileCopy.t)
    (name : option string) (verbose : bool) (m : machine) :
  CommandFileCopy.__init__ src dst = Ok c →
  heap m !! a = Some (OfCommandFileCopy c) →
  path_truthy dst = true →
  ∃ s' d c',
    execute a name verbose m = (Ok true, s') ∧
    Transaction.state s'.1 = TransactionState.DONE ∧
    Transaction.temp_dir s'.1 = Some d ∧
    heap s'.2 !! a = Some c' ∧ lifecycle c' = Some committed ∧
    (d ∉ names (fs m)) ∧ (d ∉ dirs (fs s'.2)) ∧
    (∀ q, below d q = true → files (fs s'.2) !! q = None) ∧
    (below d src = false →
     ∀ q, below d q = false →
       files (fs s'.2) !! q
       = if decide (q = dst) then
           (if path_truthy src && isfile src (fs m) then files (fs m) !! src
            else files (fs m) !! dst)
         else files (fs m) !! q).
Proof.
  intros Hinit Hc Ht.
  destruct (execute_fresh a _ name verbose m Hc (fresh_copy _ _ _ Hinit Ht))
    as (s' & d & w_in & c' & Hx & Hst & Htd & Hc' & Hlife & Hnew & Hgone & Hin
          & Hdir & Hfiles & Hfin).
  destruct (copy_perform src dst c w_in d Hinit Ht Hdir)
    as (v & c1 & w1 & Hp & _ & _ & Heff).
  exists s', d, c'. repeat (split; [done|]).
  intros Hsrc q Hq. destruct (Heff Hsrc) as [_ Heff'].
  rewrite (Hfin _ _ _ Hp q Hq), (Heff' q Hq). unfold isfile.
  by rewrite Hfiles.
Qed.

(** X16.  [execute] on a fresh move command returns [True], also when the
    source is missing: the command is [COMMITTED] and the staging
    directory and the backup in it are gone.  When the source is outside
    the staging directory and exists, the destination holds what the
    source held, the source is gone unless it is the destination, and no
    other file has changed; when there is no source, no file has
    changed. *)
Theorem move_execute (a : nat) (src dst : string)
    (name : option string) (verbose : bool) (m : machine) :
  heap m !! a = Some (OfCommandFileMove (CommandFileMove.__init__ src dst)) →
  path_truthy dst = true →
  ∃ s' d c',
    execute a name verbose m = (Ok true, s') ∧
    Transaction.state s'.1 = TransactionState.DONE ∧
    Transaction.temp_dir s'.1 = Some d ∧
    heap s'.2 !! a = Some c' ∧ lifecycle c' = Some committed ∧
    (d ∉ names (fs m)) ∧ (d ∉ dirs (fs s'.2)) ∧
    (∀ q, below d q = true → files (fs s'.2) !! q = None) ∧
    (below d src = false →
     ∀ q, below d q = false →
       files (fs s'.2) !! q
       = if path_truthy src && isfile src (fs m) then
           (if decide (q = dst) then files (fs m) !! src
            else if decide (q = src) then None else files (fs m) !! q)
         else files (fs m) !! q).
Proof.
  intros Hc Ht.
  destruct (execute_fresh a _ name verbose m Hc (fresh_move _ _ Ht))
    as (s' & d & w_in & c' & Hx & Hst & Htd & Hc' & Hlife & Hnew & Hgone & Hin
          & Hdir & Hfiles & Hfin).
  destruct (move_perform src dst w_in d Ht Hdir)
    as (v & c1 & w1 & Hp & _ & _ & Heff).
  exists s', d, c'. repeat (split; [done|]).
  intros Hsrc q Hq. destruct (Heff Hsrc) as [_ Heff'].
  rewrite (Hfin _ _ _ Hp q Hq), (Heff' q Hq). unfold isfile.
  by rewrite Hfiles.
Qed.

Section ExecuteAgain.
Implicit Types (c : command) (b : CommandBase.t) (w : filesystem).

End ExecuteAgain.


(** The move of [A] to [B] and the write to [B], committed. *)
Lemma execute_commits_fresh_commands_witness :
  ∃ s',
    Transaction.execute [0; 1] None false true Example.move_then_write
      = (Ok true, s') ∧
    trace s'.2 = [EvPerform 0; EvPerform 1; EvCommit 0; EvCommit 1;
                  EvRmtree (Some "/tmp/_")] ∧
    files (fs s'.2) !! "A" = None ∧
    files (fs s'.2) !! "B" = Some "x".
Proof.
  destruct (execute_commits_fresh_commands [0; 1] None false true
              Example.move_then_write example_no_dup)
    as (s_in & s1 & s' & d & He & Hbody & Hx & _ & _ & Hd & Htr & _ & _ & _
          & _ & Hout).
  { intros a [->|[->|[]%elem_of_nil]%elem_of_cons]%elem_of_cons;
      (eexists; split; [by vm_compute|]).
    - by apply (fresh_move "A" "B").
    - by apply (fresh_write "B" "x"). }
  exists s'. split; [exact Hx|].
  assert (s' = (Transaction.execute [0; 1] None false true
                  Example.move_then_write).2) as Hs by (by rewrite Hx).
  assert (d = "/tmp/_") as ->.
  { rewrite Hs in Hd. vm_compute in Hd. congruence. }
  split; [exact Htr|].
  assert (s_in = (Transaction.__enter__
                    (Transaction.__init__ None false true,
                     Example.move_then_write)).2) as -> by (by rewrite He).
  assert (s1 = (Transaction.perform_commands [0; 1]
                  (Transaction.__enter__
                     (Transaction.__init__ None false true,
                      Example.move_then_write)).2).2) as ->
    by (by rewrite Hbody).
  split; (rewrite Hout; by vm_compute).
Defined.

Lemma write_execute_witness :
  ∃ s',
    execute 0 None false Example.one_write = (Ok true, s') ∧
    Transaction.name s'.1 = Some "CommandFileWrite" ∧
    files (fs s'.2) !! "target.txt" = Some "new" ∧
    files (fs s'.2) !! "/tmp/_/tmp" = None.
Proof.
  destruct (write_execute 0 "target.txt" "new" None false Example.one_write)
    as (s' & d & c' & Hx & _ & Hd & _ & _ & _ & _ & Hin & Hout);
    [by vm_compute|done|].
  exists s'. split; [exact Hx|].
  assert (s' = (execute 0 None false Example.one_write).2) as Hs
    by (by rewrite Hx).
  assert (d = "/tmp/_") as ->.
  { rewrite Hs in Hd. vm_compute in Hd. congruence. }
  split; [rewrite Hs; by vm_compute|].
  split; [rewrite Hout; by vm_compute|].
  apply Hin. by vm_compute.
Defined.

(** Deleting a file that is not there. *)
Lemma delete_execute_witness :
  let m := mkMachine
             {[ 0 := OfCommandFileDelete (CommandFileDelete.__init__ "gone.txt") ]}
             (mkFs {[ "kept.txt" := "k" ]} ∅) [] in
  ∃ s',
    execute 0 (Some "") true m = (Ok true, s') ∧
    Transaction.name s'.1 = Some "CommandFileDelete" ∧
    files (fs s'.2) !! "gone.txt" = None ∧
    files (fs s'.2) !! "kept.txt" = Some "k".
Proof.
  intros m.
  destruct (delete_execute 0 "gone.txt" (Some "") true m)
    as (s' & d & c' & Hx & _ & Hd & _ & _ & _ & _ & Hin & Hout);
    [by vm_compute|done|].
  exists s'. split; [exact Hx|].
  assert (s' = (execute 0 (Some "") true m).2) as Hs by (by rewrite Hx).
  assert (d = "/tmp/_") as ->.
  { rewrite Hs in Hd. vm_compute in Hd. congruence. }
  split; [rewrite Hs; by vm_compute|].
  split; (rewrite Hout; by vm_compute).
Defined.

(** A copy over an existing file. *)
Lemma copy_execute_witness :
  let c := CommandFileCopy.mk (_CommandFileBase.__init__ "B") "A" "B" in
  let m := mkMachine {[ 0 := OfCommandFileCopy c ]}
             (mkFs {[ "A" := "a"; "B" := "keep" ]} ∅) [] in
  ∃ s',
    execute 0 (Some "copy") false m = (Ok true, s') ∧
    Transaction.name s'.1 = Some "copy" ∧
    files (fs s'.2) !! "A" = Some "a" ∧
    files (fs s'.2) !! "B" = Some "a".
Proof.
  intros c m.
  destruct (copy_execute 0 "A" "B" c (Some "copy") false m)
    as (s' & d & c' & Hx & _ & Hd & _ & _ & _ & _ & Hin & Hout);
    [by vm_compute|by vm_compute|done|].
  exists s'. split; [exact Hx|].
  assert (s' = (execute 0 (Some "copy") false m).2) as Hs by (by rewrite Hx).
  assert (d = "/tmp/_") as ->.
  { rewrite Hs in Hd. vm_compute in Hd. congruence. }
  split; [rewrite Hs; by vm_compute|].
  split; (rewrite Hout; by vm_compute).
Defined.

(** A move over an existing file. *)
Lemma move_execute_witness :
  ∃ s',
    execute 0 None false Example.move_then_write = (Ok true, s') ∧
    files (fs s'.2) !! "A" = None ∧
    files (fs s'.2) !! "B" = Some "a".
Proof.
  destruct (move_execute 0 "A" "B" None false Example.move_then_write)
    as (s' & d & c' & Hx & _ & Hd & _ & _ & _ & _ & Hin & Hout);
    [by vm_compute|done|].
  exists s'. split; [exact Hx|].
  assert (s' = (execute 0 None false Example.move_then_write).2) as Hs
    by (by rewrite Hx).
  assert (d = "/tmp/_") as ->.
  { rewrite Hs in Hd. vm_compute in Hd. congruence. }
  split; (rewrite Hout; by vm_compute).
Defined.


(** ** Manual use, the adapter and a refused rollback *)

Section Manual.
Import Transaction TransactionState.
Implicit Types (s : Transaction.t * machine).

Lemma start_value s : (start s).1 = Ok (PyBool true).
Proof.
  unfold start. run.
  destruct (__enter__ s) as [[b|e] s']; cbn; [done|].
  by case_decide.
Qed.

Lemma end_value s : (end_ s).1 = Ok (PyBool true).
Proof.
  unfold end_. run.
  destruct (__exit__ None s) as [[b|e] s']; cbn; [done|].
  by case_decide.
Qed.
End Manual.

(** X18.  Every fresh file command, performed and rolled back at once,
    leaves the file system exactly as it found it, staging directory
    included, provided it is not a move that finds its source missing and
    its destination present.  The command is [PERFORMED] before and after
    the rollback. *)
Theorem perform_then_rollback_is_identity (c : command) (w : filesystem)
    (d : string) :
  fresh_command c → nothing_moved_onto_a_file c w = false →
  isdir d w = true →
  ∃ v c1 w1 v' c2,
    perform (Some d) (c, w) = (Ok v, (c1, w1)) ∧
    lifecycle c1 = Some performed ∧
    rollback (c1, w1) = (Ok v', (c2, w)) ∧
    lifecycle c2 = Some performed.
Proof.
  intros Hf Hok Hd.
  destruct (command_roundtrip c w d Hf Hok Hd)
    as (v & c1 & w1 & v' & c2 & Hp & _ & Hr).
  destruct (perform_staged c w d Hf Hd) as (v0 & c0 & w0 & Hp0 & Hs & _).
  rewrite Hp in Hp0. simplify_eq. destruct Hs as (_ & Hlife & _).
  exists v0, c0, w0, v', c2. split; [done|]. split; [done|]. split; [done|].
  pose proof (lifecycle_step DoRollback c0 performed w0 Hlife) as Hl.
  cbn [invoke base_invoke] in Hl. rewrite Hr in Hl. cbn [fst snd] in Hl.
  by rewrite Hl, rollback_keeps_object.
Qed.

Lemma perform_then_rollback_is_identity_witness :
  let c := OfCommandFileMove (CommandFileMove.__init__ "A" "B") in
  let w := mkFs {[ "A" := "a"; "B" := "keep" ]} {[ "/tmp/_" ]} in
  ∃ c1 w1 v' c2,
    perform (Some "/tmp/_") (c, w) = (Ok PyNone, (c1, w1)) ∧
    files w1 !! "A" = None ∧ files w1 !! "B" = Some "a" ∧
    files w1 !! "/tmp/_/tmp" = Some "keep" ∧
    rollback (c1, w1) = (Ok v', (c2, w)).
Proof.
  intros c w.
  destruct (perform_then_rollback_is_identity c w "/tmp/_")
    as (v & c1 & w1 & v' & c2 & Hp & _ & Hr & _);
    [by apply fresh_move|by vm_compute|by vm_compute|].
  exists c1, w1, v', c2.
  assert (v = PyNone) as ->.
  { assert ((perform (Some "/tmp/_") (c, w)).1 = Ok PyNone) as Hv
      by (by vm_compute).
    rewrite Hp in Hv. cbn in Hv. congruence. }
  assert (w1 = (perform (Some "/tmp/_") (c, w)).2.2) as Hw1
    by (by rewrite Hp).
  split; [exact Hp|].
  split; [rewrite Hw1; by vm_compute|].
  split; [rewrite Hw1; by vm_compute|].
  split; [rewrite Hw1; by vm_compute|]. exact Hr.
Defined.

(** X19.  The closure adapter runs its callbacks exactly when the
    lifecycle lets the call through, and the lifecycle moves on whether
    or not the callback raises.  [perform] on a new adapter runs the
    perform callback and leaves the command [PERFORMED], also when the
    callback raises; from then on every [rollback] runs the rollback
    callback and leaves the command [PERFORMED]; a [commit] runs the
    commit callback and leaves the command [COMMITTED], after which
    [rollback] and [commit] raise the lifecycle error and run nothing. *)
Theorem adapter_runs_callbacks (f g h : callback) (dir : option string)
    (w : filesystem) :
  let lift := λ r : result unit,
    match r with Ok _ => Ok PyNone | Raise e => Raise e end in
  let c1 := OfCommand (Command.mk performed f g h) in
  let c2 := OfCommand (Command.mk committed f g h) in
  perform dir (OfCommand (Command.__init__ f g h), w)
    = (lift (f w).1, (c1, (f w).2)) ∧
  (∀ w', rollback (c1, w') = (lift (g w').1, (c1, (g w').2))) ∧
  (∀ w', commit (c1, w') = (lift (h w').1, (c2, (h w').2))) ∧
  (∀ w', rollback (c2, w') = (Raise CommandError, (c2, w')) ∧
         commit (c2, w') = (Raise CommandError, (c2, w'))).
Proof.
  intros lift c1 c2. subst lift c1 c2. unfold performed, committed.
  split; [|split; [|split]].
  - unfold_class. cbn. rewrite perform_from_init by done. cbn.
    by destruct (f w) as [[[]|e] w1].
  - intros w'. unfold_class. cbn. rewrite rollback_performed by done. cbn.
    by destruct (g w') as [[[]|e] w1].
  - intros w'. unfold_class. cbn. rewrite commit_performed by done. cbn.
    by destruct (h w') as [[[]|e] w1].
  - intros w'. split.
    + by apply (rollback_illegal_dispatch _
                  (CommandBase.mk CommandState.COMMITTED false)).
    + by apply (commit_illegal_dispatch _
                  (CommandBase.mk CommandState.COMMITTED false)).
Qed.



(** X21.  [start()], a body that does not raise, and [end()] do what the
    [with] statement does with that body: when entering succeeds, the
    state in the end is the same, and [start()] and [end()] return
    [True]. *)
Theorem start_end_as_scope (body : Py (Transaction.t * machine) pyval)
    (s0 s_in s1 : Transaction.t * machine) (v : pyval) :
  Transaction.__enter__ s0 = (Ok tt, s_in) → body s_in = (Ok v, s1) →
  Transaction.start s0 = (Ok (PyBool true), s_in) ∧
  (Transaction.start ;; body ;; Transaction.end_) s0
  = (Ok (PyBool true), (Transaction.with_ body s0).2).
Proof.
  intros He Hb.
  assert (Transaction.start s0 = (Ok (PyBool true), s_in)) as Hstart.
  { pose proof (start_value s0) as Hv. pose proof (start_state s0) as Hs.
    rewrite He in Hs. destruct (Transaction.start s0) as [r s'].
    cbn [fst snd] in *. by subst. }
  split; [done|].
  unfold bind at 1. rewrite Hstart. unfold bind at 1. rewrite Hb.
  unfold Transaction.with_. unfold bind at 1. rewrite He, Hb.
  pose proof (end_value s1) as Hv. pose proof (end_state s1) as Hs.
  destruct (Transaction.end_ s1) as [r s']. cbn [fst snd] in Hv, Hs. subst.
  unfold bind. by destruct (Transaction.__exit__ None s1) as [[x|e] s2].
Qed.

Lemma start_end_as_scope_witness :
  let s0 := (Transaction.__init__ None false true, Example.one_write) in
  ∃ s',
    (Transaction.start ;; Transaction.perform_command 0 ;; Transaction.end_) s0
      = (Ok (PyBool true), s') ∧
    Transaction.state s'.1 = TransactionState.DONE ∧
    files (fs s'.2) !! "target.txt" = Some "new".
Proof.
  intros s0.
  destruct (start_end_as_scope (Transaction.perform_command 0) s0
              (Transaction.__enter__ s0).2
              (Transaction.perform_command 0 (Transaction.__enter__ s0).2).2
              PyNone) as [_ Hx]; [by vm_compute|by vm_compute|].
  eexists. split; [exact Hx|]. split; by vm_compute.
Defined.
